(** * VerilogBits: a strongly-typed, Verilog-style bit vector

    A shallow embedding of [veriflow/verilog_bits.py] and of the writer of
    [veriflow/mem_tools.py], together with the part of the third-party
    [bitstring] package (version 3.1 line, as required by [setup.py]) that
    these two modules call.

    A [bitstring.BitArray] is a mutable Python object; a [VerilogBits]
    instance holds a reference to one in its private attribute [_data].
    The embedding therefore threads an explicit store of [BitArray]
    objects, so that copying, sharing and in-place mutation are visible. *)

From Stdlib Require Import ZArith String Ascii List Lia.
From Stdlib Require Import DecimalString DecimalZ DecimalPos.
From stdpp Require Import base option list gmap strings.

#[local] Open Scope Z_scope.

(** ** Python values, exceptions and the store *)

Module Py.

(** The address of a [BitArray] object: Python's object identity. *)
Abbreviation loc := positive (only parsing).

(** The store maps every live [BitArray] to its bits, written left to
    right as [bitstring] prints them: position 0 is the most significant
    bit. *)
Abbreviation heap := (gmap positive (list bool)) (only parsing).

(** The exception classes that the modelled code can raise.
    [CreationError] and [InterpretError] are the two [bitstring]
    exceptions (both subclasses of [ValueError]). *)
Inductive exn : Type :=
| TypeError (msg : string)
| ValueError (msg : string)
| IndexError (msg : string)
| ZeroDivisionError
| CreationError
| InterpretError.

(** The outcome of a call. [Fault] is not a Python outcome: it marks a
    reference to an object that the store does not hold, which no
    reference handed out by a constructor can be. *)
Inductive outcome (A : Type) : Type :=
| Ok (a : A)
| Raise (e : exn)
| Fault.
Arguments Ok {A} a.
Arguments Raise {A} e.
Arguments Fault {A}.

(** A computation reads and updates the store; what it did to the store
    before raising stays done. *)
Definition M (A : Type) : Type := heap -> outcome A * heap.

Definition ret {A} (a : A) : M A := fun h => (Ok a, h).

Definition bind {A B} (m : M A) (k : A -> M B) : M B :=
  fun h =>
    match m h with
    | (Ok a, h') => k a h'
    | (Raise e, h') => (Raise e, h')
    | (Fault, h') => (Fault, h')
    end.

Definition raise {A} (e : exn) : M A := fun h => (Raise e, h).

#[global] Instance M_ret : MRet M := @ret.
#[global] Instance M_bind : MBind M := fun A B k m => bind m k.

(** [str(n)] for a Python [int]. *)
Definition str (n : Z) : string := NilZero.string_of_int (Z.to_int n).

(** [try: m except Exception as e: handler(e)] *)
Definition try_except {A} (m : M A) (handler : exn -> M A) : M A :=
  fun h =>
    match m h with
    | (Raise e, h') => handler e h'
    | r => r
    end.

End Py.
Import Py.

(** The class of the modelled module: its single attribute [_data] refers
    to a [BitArray] in the store. *)
Record VerilogBits : Type := mkVerilogBits { _data : loc }.

(** The Python values that reach the modelled code: the argument types
    named by the annotations of [__init__] and [__setitem__]. *)
Inductive pyval : Type :=
| PyNone
| PyInt (n : Z)
| PyStr (s : string)
| PyVerilogBits (v : VerilogBits)
| PyBitArray (l : loc).

(** [type(x).__name__]. *)
Definition type_name (x : pyval) : string :=
  match x with
  | PyNone => "NoneType"
  | PyInt _ => "int"
  | PyStr _ => "str"
  | PyVerilogBits _ => "VerilogBits"
  | PyBitArray _ => "BitArray"
  end.

(** A subscript [v[key]]: an integer, a [slice(start, stop, step)] whose
    three fields are arbitrary values (an omitted field is [None]), or a
    key of another type, of which only the type name matters. *)
Inductive pykey : Type :=
| KInt (i : Z)
| KSlice (start stop step : pyval)
| KOther (tyname : string).

(** ** Python strings

    A [str] is modelled by a [string] whose characters are the code
    points, all below 256. *)

Module pystr.

(** [ord(c)] *)
Definition ord (c : ascii) : Z := Z.of_N (N_of_ascii c).

(** [c.isspace()]: the white space among the code points below 256. *)
Definition isspace (c : ascii) : bool :=
  let n := ord c in
  ((9 <=? n) && (n <=? 13)) || ((28 <=? n) && (n <=? 32))
  || (n =? 133) || (n =? 160).

(** [s.lstrip()] *)
Fixpoint lstrip (s : string) : string :=
  match s with
  | EmptyString => EmptyString
  | String c r => if isspace c then lstrip r else s
  end.

(** [s.rstrip()] *)
Fixpoint rstrip (s : string) : string :=
  match s with
  | EmptyString => EmptyString
  | String c r =>
      match rstrip r with
      | EmptyString => if isspace c then EmptyString else String c EmptyString
      | r' => String c r'
      end
  end.

(** [s.strip()] *)
Definition strip (s : string) : string := rstrip (lstrip s).

(** [s.split()]: the maximal runs of characters that are not white
    space; [cur] is the run being read. *)
Fixpoint split_from (cur : string) (s : string) : list string :=
  match s with
  | EmptyString => match cur with EmptyString => [] | _ => [cur] end
  | String c r =>
      if isspace c
      then match cur with
           | EmptyString => split_from EmptyString r
           | _ => cur :: split_from EmptyString r
           end
      else split_from (cur +:+ String c EmptyString) r
  end.

Definition split (s : string) : list string := split_from EmptyString s.

(** [s.split(sep)[0]] when [sep in s], for a non-empty [sep]: the text
    before the first occurrence of [sep]; [None] when [sep] is not in
    [s]. *)
Fixpoint before (sep s : string) : option string :=
  if String.prefix sep s then Some EmptyString
  else
    match s with
    | EmptyString => None
    | String c r => String c <$> before sep r
    end.

(** The lines that iterating over a text file gives, each with its line
    end, which universal newlines turn into a line feed whether the text
    has a line feed, a carriage return or both; [cur] is the line being
    read and [pending_cr] tells that the last character was a carriage
    return. *)
Fixpoint lines_from (pending_cr : bool) (cur : string) (text : string)
  : list string :=
  match text with
  | EmptyString => match cur with EmptyString => [] | _ => [cur] end
  | String c r =>
      if Ascii.eqb c "010" then
        if pending_cr then lines_from false cur r
        else (cur +:+ String "010" EmptyString) :: lines_from false EmptyString r
      else if Ascii.eqb c "013" then
        (cur +:+ String "010" EmptyString) :: lines_from true EmptyString r
      else lines_from false (cur +:+ String c EmptyString) r
  end.

Definition lines (text : string) : list string := lines_from false EmptyString text.

End pystr.

(** ** The part of [bitstring] used by the modelled modules *)

Module bitstring.

(** *** Objects in the store *)

(** A new object gets an address that the store does not use yet. *)
Definition new (bits : list bool) : M loc :=
  fun h => let l := fresh (dom h) in (Ok l, <[l := bits]> h).

Definition get (l : loc) : M (list bool) :=
  fun h =>
    match h !! l with
    | Some bits => (Ok bits, h)
    | None => (Fault, h)
    end.

Definition put (l : loc) (bits : list bool) : M unit :=
  fun h =>
    match h !! l with
    | Some _ => (Ok tt, <[l := bits]> h)
    | None => (Fault, h)
    end.

(** *** Integers as bits *)

(** The [n] low-order binary digits of [v], most significant first. *)
Fixpoint uint_bits (n : nat) (v : Z) : list bool :=
  match n with
  | O => []
  | S k => Z.testbit v (Z.of_nat k) :: uint_bits k v
  end.

(** The unsigned value of a bit sequence read most significant first. *)
Definition bits_uint (bits : list bool) : Z :=
  fold_left (fun acc b => 2 * acc + Z.b2z b) bits 0.

(** [BitArray(uint=uint, length=length)]: [_initialise] refuses a
    negative length, [_setuint] a missing or zero length and a value
    outside [0, 2^length - 1]. *)
Definition BitArray_uint (uint : Z) (length : option Z) : M loc :=
  match length with
  | None => raise CreationError
  | Some length =>
      if length <? 0 then raise CreationError
      else if length =? 0 then raise CreationError
      else if uint >=? 2 ^ length then raise CreationError
      else if uint <? 0 then raise CreationError
      else new (uint_bits (Z.to_nat length) uint)
  end.

(** [BitArray(int=int_, length=length)]: [_setint] checks the signed
    range, stores a non-negative value as [_setuint] does and a negative
    one as the complement of [-(int_ + 1)]. *)
Definition BitArray_int (int_ : Z) (length : option Z) : M loc :=
  match length with
  | None => raise CreationError
  | Some length =>
      if length <? 0 then raise CreationError
      else if length =? 0 then raise CreationError
      else if (int_ >=? 2 ^ (length - 1)) || (int_ <? - 2 ^ (length - 1))
      then raise CreationError
      else if int_ >=? 0 then new (uint_bits (Z.to_nat length) int_)
      else new (map negb (uint_bits (Z.to_nat length) (- (int_ + 1))))
  end.

(** *** The string initialiser

    The fragment of the token language that the modelled code and its
    callers produce: one literal [0b...], [0x...] or [0o...] with at
    least one digit (the prefix letter in either case), or one token
    [uint:<length>=<value>] in decimal. Lists of tokens, white space
    and the other token names are outside the fragment. *)

Definition bin_digit (c : ascii) : option (list bool) :=
  if Ascii.eqb c "0" then Some [false]
  else if Ascii.eqb c "1" then Some [true]
  else None.

Definition hex_digit_value (c : ascii) : option Z :=
  let n := Z.of_N (N_of_ascii c) in
  if (48 <=? n) && (n <=? 57) then Some (n - 48)
  else if (97 <=? n) && (n <=? 102) then Some (n - 87)
  else if (65 <=? n) && (n <=? 70) then Some (n - 55)
  else None.

Definition hex_digit (c : ascii) : option (list bool) :=
  uint_bits 4 <$> hex_digit_value c.

Definition oct_digit (c : ascii) : option (list bool) :=
  let n := Z.of_N (N_of_ascii c) in
  if (48 <=? n) && (n <=? 55) then Some (uint_bits 3 (n - 48)) else None.

Fixpoint digits_bits (digit : ascii -> option (list bool)) (s : string)
  : option (list bool) :=
  match s with
  | EmptyString => Some []
  | String c rest =>
      match digit c, digits_bits digit rest with
      | Some b, Some bs => Some (b ++ bs)
      | _, _ => None
      end
  end.

Definition literal_bits (s : string) : option (list bool) :=
  match s with
  | String "0" (String p (String _ _ as digits)) =>
      if Ascii.eqb p "b" || Ascii.eqb p "B" then digits_bits bin_digit digits
      else if Ascii.eqb p "x" || Ascii.eqb p "X" then digits_bits hex_digit digits
      else if Ascii.eqb p "o" || Ascii.eqb p "O" then digits_bits oct_digit digits
      else None
  | _ => None
  end.

Fixpoint strip_prefix (p s : string) : option string :=
  match p, s with
  | EmptyString, _ => Some s
  | String a p', String b s' => if Ascii.eqb a b then strip_prefix p' s' else None
  | String _ _, EmptyString => None
  end.

Fixpoint split_at (sep : ascii) (s : string) : option (string * string) :=
  match s with
  | EmptyString => None
  | String c rest =>
      if Ascii.eqb c sep then Some (EmptyString, rest)
      else
        match split_at sep rest with
        | Some (a, b) => Some (String c a, b)
        | None => None
        end
  end.

Definition decimal (s : string) : option Z :=
  Z.of_uint <$> NilZero.uint_of_string s.

Definition uint_token_bits (s : string) : option (list bool) :=
  match strip_prefix "uint:" s with
  | None => None
  | Some rest =>
      match split_at "=" rest with
      | None => None
      | Some (len, val) =>
          match decimal len, decimal val with
          | Some length, Some value =>
              if (length =? 0) || (value >=? 2 ^ length) then None
              else Some (uint_bits (Z.to_nat length) value)
          | _, _ => None
          end
      end
  end.

(** [Bits(s)] for a string [s]; [None] stands for [CreationError]. *)
Definition auto_bits (s : string) : option (list bool) :=
  match literal_bits s with
  | Some bits => Some bits
  | None => uint_token_bits s
  end.

(** [BitArray(auto)] where [auto] is [None] or a string. *)
Definition BitArray (auto : option string) : M loc :=
  match auto with
  | None => new []
  | Some s =>
      match auto_bits s with
      | Some bits => new bits
      | None => raise CreationError
      end
  end.

(** *** Methods of [BitArray] *)

Definition len (self : loc) : M Z :=
  bits ← get self; mret (Z.of_nat (List.length bits)).

Definition copy (self : loc) : M loc :=
  bits ← get self; new bits.

Fixpoint bin_string (bits : list bool) : string :=
  match bits with
  | [] => EmptyString
  | b :: rest => String (if b then "1"%char else "0"%char) (bin_string rest)
  end.

(** [self.bin] *)
Definition bin (self : loc) : M string :=
  bits ← get self; mret (bin_string bits).

Definition hex_char (k : Z) : ascii :=
  nth (Z.to_nat k) (list_ascii_of_string "0123456789abcdef") "0"%char.

Fixpoint hex_string (bits : list bool) : string :=
  match bits with
  | b3 :: b2 :: b1 :: b0 :: rest =>
      String (hex_char (bits_uint [b3; b2; b1; b0])) (hex_string rest)
  | _ => EmptyString
  end.

(** [self.hex]: refused unless the length is a multiple of four. *)
Definition hex (self : loc) : M string :=
  bits ← get self;
  if Z.of_nat (List.length bits) mod 4 =? 0 then mret (hex_string bits)
  else raise InterpretError.

(** [self.uint]: a zero-length bitstring has no integer reading. *)
Definition uint (self : loc) : M Z :=
  bits ← get self;
  if Z.of_nat (List.length bits) =? 0 then raise InterpretError
  else mret (bits_uint bits).

(** [self.int]: the unsigned reading when the top bit is clear,
    otherwise minus the complement-and-mask of [ui - 1]. *)
Definition int (self : loc) : M Z :=
  bits ← get self;
  let length := Z.of_nat (List.length bits) in
  if length =? 0 then raise InterpretError
  else
    let ui := bits_uint bits in
    if Z.shiftr ui (length - 1) =? 0 then mret ui
    else mret (- Z.land (Z.lnot (ui - 1)) (2 ^ length - 1)).

(** The bits at positions [start] up to but excluding [stop]. *)
Definition _slice (bits : list bool) (start stop : Z) : list bool :=
  take (Z.to_nat (stop - start)) (drop (Z.to_nat start) bits).

(** [self[start:stop]] without a step: a new object. *)
Definition getitem_slice (self : loc) (key_start key_stop : option Z) : M loc :=
  bits ← get self;
  let length := Z.of_nat (List.length bits) in
  let start :=
    match key_start with
    | Some s => if s <? 0 then s + length else s
    | None => 0
    end in
  let stop :=
    match key_stop with
    | Some s => if s <? 0 then s + length else s
    | None => length
    end in
  let start := Z.max start 0 in
  let stop := Z.min stop length in
  if start <? stop then new (_slice bits start stop) else new [].

Definition _overwrite (bits bs : list bool) (pos : Z) : list bool :=
  take (Z.to_nat pos) bits ++ bs
    ++ drop (Z.to_nat pos + List.length bs)%nat bits.

Definition _delete (bits : list bool) (n pos : Z) : list bool :=
  take (Z.to_nat pos) bits ++ drop (Z.to_nat (pos + n)) bits.

Definition _insert (bits bs : list bool) (pos : Z) : list bool :=
  take (Z.to_nat pos) bits ++ bs ++ drop (Z.to_nat pos) bits.

(** [self[start:stop] = value] without a step, [value] a bitstring: as
    for a Python list, the addressed part is replaced by the whole of
    [value], whatever its length. The bits of [value] are read before
    [self] changes. *)
Definition setitem_slice (self : loc) (key_start key_stop : option Z)
    (value : loc) : M unit :=
  bits ← get self;
  value ← get value;
  let length := Z.of_nat (List.length bits) in
  let start :=
    match key_start with
    | Some s =>
        let s := if s <? 0 then s + length else s in
        if s <? 0 then 0 else s
    | None => 0
    end in
  let stop :=
    match key_stop with
    | Some s => if s <? 0 then s + length else s
    | None => length
    end in
  let stop := if start >? stop then start else stop in
  let stop := Z.min stop length in
  let start := Z.max start 0 in
  let start := Z.min start stop in
  if stop - start =? Z.of_nat (List.length value) then
    if Z.of_nat (List.length value) =? 0 then mret tt
    else put self (_overwrite bits value start)
  else put self (_insert (_delete bits (stop - start) start) value start).

(** [self[key] = value] for an integer [key] and a bitstring [value]. *)
Definition setitem_int (self : loc) (key : Z) (value : loc) : M unit :=
  bits ← get self;
  let length := Z.of_nat (List.length bits) in
  let key := if key <? 0 then key + length else key in
  if negb ((0 <=? key) && (key <? length))
  then raise (IndexError "Slice index out of range.")
  else
    value ← get value;
    match value with
    | [b] => put self (<[Z.to_nat key := b]> bits)
    | _ => put self (_insert (_delete bits 1 key) value key)
    end.

(** [self += bs]: appends in place. *)
Definition iadd (self bs : loc) : M unit :=
  bits ← get self;
  bs ← get bs;
  put self (bits ++ bs).

(** [self.prepend(s)] for a string [s]: in place. *)
Definition prepend (self : loc) (s : string) : M unit :=
  match auto_bits s with
  | None => raise CreationError
  | Some bs => bits ← get self; put self (bs ++ bits)
  end.

(** [self * n]: a new object holding the bits [n] times over; a
    negative [n] is refused, and [n = 0] gives a new empty object. *)
Definition mul (self : loc) (n : Z) : M loc :=
  if n <? 0 then raise (ValueError "Cannot multiply by a negative integer.")
  else if n =? 0 then new []
  else bits ← get self; new (List.concat (replicate (Z.to_nat n) bits)).

(** [self == bs] for two bitstrings: the same length and the same bits. *)
Definition eq (self bs : loc) : M bool :=
  a ← get self;
  b ← get bs;
  mret (bool_decide (a = b)).

End bitstring.

(** ** [veriflow/verilog_bits.py] *)

Module verilog_bits.

(** The last branch of [__init__]: [value] is neither a [VerilogBits],
    nor a [BitArray], nor an [int]. *)
Definition init_auto (value : option string) (length : option Z)
  : M VerilogBits :=
  data ← bitstring.BitArray value;
  match length with
  | None => mret (mkVerilogBits data)
  | Some length =>
      n ← bitstring.len data;
      if n >? length then
        data ← bitstring.getitem_slice data (Some (- length)) None;
        mret (mkVerilogBits data)
      else if n <? length then
        bitstring.prepend data ("uint:" +:+ str (length - n) +:+ "=0");;
        mret (mkVerilogBits data)
      else mret (mkVerilogBits data)
  end.

(** [VerilogBits(value, length, signed)] *)
Definition __init__ (value : pyval) (length : option Z) (signed : bool)
  : M VerilogBits :=
  match value with
  | PyVerilogBits value =>
      data ← bitstring.copy (_data value); mret (mkVerilogBits data)
  | PyBitArray value => mret (mkVerilogBits value)
  | PyInt value =>
      data ← (if signed then bitstring.BitArray_int value length
              else bitstring.BitArray_uint value length);
      mret (mkVerilogBits data)
  | PyNone => init_auto None length
  | PyStr s => init_auto (Some s) length
  end.

Definition bin (self : VerilogBits) : M string := bitstring.bin (_data self).

Definition uint (self : VerilogBits) : M Z := bitstring.uint (_data self).

Definition sint (self : VerilogBits) : M Z := bitstring.int (_data self).

Definition __len__ (self : VerilogBits) : M Z := bitstring.len (_data self).

(** [_parse_verilog_slice(self, key)], given [key.start] and [key.stop]. *)
Definition _parse_verilog_slice (self : VerilogBits) (key_start key_stop : pyval)
  : M (Z * Z) :=
  match key_start, key_stop with
  | PyInt msb, PyInt lsb =>
      if lsb >? msb then
        raise (ValueError ("LSB (" +:+ str lsb
                 +:+ ") cannot be greater than MSB (" +:+ str msb
                 +:+ ") in Verilog-style slicing."))
      else
        bit_length ← __len__ self;
        let max_index := bit_length - 1 in
        if negb ((0 <=? msb) && (msb <=? max_index)
                 && ((0 <=? lsb) && (lsb <=? max_index)))
        then
          raise (IndexError ("Slice indices [" +:+ str msb +:+ ":" +:+ str lsb
                   +:+ "] are out of bounds for a " +:+ str bit_length
                   +:+ "-bit array (0 to " +:+ str max_index +:+ ")."))
        else
          let start := bit_length - 1 - msb in
          let end_ := bit_length - 1 - lsb + 1 in
          mret (start, end_)
  | _, _ => raise (TypeError "Verilog-style slice indices must be integers.")
  end.

Definition __getitem__ (self : VerilogBits) (key : pykey) : M VerilogBits :=
  match key with
  | KSlice key_start key_stop key_step =>
      match key_step with
      | PyNone =>
          '(py_start, py_end) ← _parse_verilog_slice self key_start key_stop;
          new_val ← bitstring.getitem_slice (_data self)
                      (Some py_start) (Some py_end);
          __init__ (PyBitArray new_val) None false
      | _ => raise (ValueError "Step is not supported in Verilog-style slicing.")
      end
  | KInt key =>
      new_val ← bitstring.getitem_slice (_data self) (Some key) (Some (key + 1));
      __init__ (PyBitArray new_val) None false
  | KOther tyname =>
      raise (TypeError ("Index must be an integer or slice, not " +:+ tyname))
  end.

Definition __setitem__ (self : VerilogBits) (key : pykey) (value : pyval)
  : M unit :=
  normalized_value ← __init__ value None false;
  let value_to_set := _data normalized_value in
  match key with
  | KSlice key_start key_stop key_step =>
      match key_step with
      | PyNone =>
          '(py_start, py_end) ← _parse_verilog_slice self key_start key_stop;
          bitstring.setitem_slice (_data self) (Some py_start) (Some py_end)
            value_to_set
      | _ => raise (ValueError "Step is not supported in Verilog-style slicing.")
      end
  | KInt key => bitstring.setitem_int (_data self) key value_to_set
  | KOther tyname =>
      raise (TypeError ("Index must be an integer or slice, not " +:+ tyname))
  end.

Definition __add__ (self : VerilogBits) (other : pyval) : M pyval :=
  raise (TypeError
    "The '+' operator is disabled. Please use VerilogBits.concat() for explicit concatenation.").

(** The loop of [concat]: [i] is the index that [enumerate] gives to the
    head of [args]. *)
Fixpoint concat_loop (concatenated_data : loc) (i : Z) (args : list pyval)
  : M unit :=
  match args with
  | [] => mret tt
  | arg :: args =>
      match arg with
      | PyVerilogBits arg =>
          bitstring.iadd concatenated_data (_data arg);;
          concat_loop concatenated_data (i + 1) args
      | _ =>
          raise (TypeError ("Argument " +:+ str i
                   +:+ " is not a VerilogBits instance, but " +:+ type_name arg))
      end
  end.

(** [VerilogBits.concat] applied to the argument tuple [args] *)
Definition concat (args : list pyval) : M VerilogBits :=
  concatenated_data ← bitstring.BitArray None;
  concat_loop concatenated_data 0 args;;
  __init__ (PyBitArray concatenated_data) None false.

Definition comparison_msg : string :=
  "Comparison operators (<, >, <=, >=) are not supported yet.".
Definition arithmetic_msg : string :=
  "Arithmetic operators (-, *, /, etc.) are not supported yet.".
Definition bitwise_msg : string :=
  "Bitwise operators (&, |, ^, ~) are not supported yet.".

Definition __lt__ (self : VerilogBits) (other : pyval) : M pyval :=
  raise (TypeError comparison_msg).
Definition __le__ (self : VerilogBits) (other : pyval) : M pyval :=
  raise (TypeError comparison_msg).
Definition __gt__ (self : VerilogBits) (other : pyval) : M pyval :=
  raise (TypeError comparison_msg).
Definition __ge__ (self : VerilogBits) (other : pyval) : M pyval :=
  raise (TypeError comparison_msg).

Definition __sub__ (self : VerilogBits) (other : pyval) : M pyval :=
  raise (TypeError arithmetic_msg).
Definition __rsub__ (self : VerilogBits) (other : pyval) : M pyval :=
  raise (TypeError arithmetic_msg).
Definition __mul__ (self : VerilogBits) (other : pyval) : M pyval :=
  raise (TypeError arithmetic_msg).
Definition __rmul__ (self : VerilogBits) (other : pyval) : M pyval :=
  raise (TypeError arithmetic_msg).
Definition __truediv__ (self : VerilogBits) (other : pyval) : M pyval :=
  raise (TypeError arithmetic_msg).
Definition __rtruediv__ (self : VerilogBits) (other : pyval) : M pyval :=
  raise (TypeError arithmetic_msg).

Definition __and__ (self : VerilogBits) (other : pyval) : M pyval :=
  raise (TypeError bitwise_msg).
Definition __rand__ (self : VerilogBits) (other : pyval) : M pyval :=
  raise (TypeError bitwise_msg).
Definition __or__ (self : VerilogBits) (other : pyval) : M pyval :=
  raise (TypeError bitwise_msg).
Definition __ror__ (self : VerilogBits) (other : pyval) : M pyval :=
  raise (TypeError bitwise_msg).
Definition __xor__ (self : VerilogBits) (other : pyval) : M pyval :=
  raise (TypeError bitwise_msg).
Definition __rxor__ (self : VerilogBits) (other : pyval) : M pyval :=
  raise (TypeError bitwise_msg).
Definition __invert__ (self : VerilogBits) : M pyval :=
  raise (TypeError bitwise_msg).

Definition __int__ (self : VerilogBits) : M pyval :=
  raise (TypeError
    "Implicit conversion to int is not supported. Use .uint property.").

(** The operator expressions whose left (or only) operand is a
    [VerilogBits], and the special method that Python calls first for
    each of them. *)
Inductive operator : Type :=
| OpLt | OpLe | OpGt | OpGe
| OpAdd | OpSub | OpMul | OpTruediv
| OpAnd | OpOr | OpXor | OpInvert
| OpInt.

Definition apply_operator (op : operator) (self : VerilogBits) (other : pyval)
  : M pyval :=
  match op with
  | OpLt => __lt__ self other
  | OpLe => __le__ self other
  | OpGt => __gt__ self other
  | OpGe => __ge__ self other
  | OpAdd => __add__ self other
  | OpSub => __sub__ self other
  | OpMul => __mul__ self other
  | OpTruediv => __truediv__ self other
  | OpAnd => __and__ self other
  | OpOr => __or__ self other
  | OpXor => __xor__ self other
  | OpInvert => __invert__ self
  | OpInt => __int__ self
  end.

(** The same binary operators with the [VerilogBits] on the right of a
    left operand that returns [NotImplemented]: Python then calls the
    reflected method, which for a comparison is the mirrored one. The
    class defines no [__radd__]. *)
Definition apply_reflected (op : operator) (self : VerilogBits) (other : pyval)
  : option (M pyval) :=
  match op with
  | OpLt => Some (__gt__ self other)
  | OpLe => Some (__ge__ self other)
  | OpGt => Some (__lt__ self other)
  | OpGe => Some (__le__ self other)
  | OpSub => Some (__rsub__ self other)
  | OpMul => Some (__rmul__ self other)
  | OpTruediv => Some (__rtruediv__ self other)
  | OpAnd => Some (__rand__ self other)
  | OpOr => Some (__ror__ self other)
  | OpXor => Some (__rxor__ self other)
  | OpAdd | OpInvert | OpInt => None
  end.

End verilog_bits.

(** The remaining methods of the class. They live in a module of their
    own because [replicate] is also the name of a list function. *)

Module verilog_bits_rest.

(** What [__eq__] returns: a [bool], or the constant [NotImplemented]. *)
Inductive eq_result : Type :=
| NotImplemented
| Bool (b : bool).

Definition __eq__ (self : VerilogBits) (other : pyval) : M eq_result :=
  match other with
  | PyVerilogBits other =>
      b ← bitstring.eq (_data self) (_data other); mret (Bool b)
  | _ => mret NotImplemented
  end.

Definition __repr__ (self : VerilogBits) : M string :=
  b ← bitstring.bin (_data self);
  mret ("VerilogBits('" +:+ b +:+ "')").

Definition __str__ (self : VerilogBits) : M string := __repr__ self.

Definition replicate (self : VerilogBits) (n : pyval) : M VerilogBits :=
  match n with
  | PyInt n =>
      if n <? 0
      then raise (ValueError "Replication count must be a non-negative integer.")
      else
        data ← bitstring.mul (_data self) n;
        verilog_bits.__init__ (PyBitArray data) None false
  | _ => raise (ValueError "Replication count must be a non-negative integer.")
  end.

End verilog_bits_rest.

(** ** [veriflow/mem_tools.py] *)

Module mem_tools.

Definition newline : string := String "010"%char EmptyString.

(** The body of the loop of [write_mem_file] over [enumerate(data)],
    from index [i] on; the result is the text written to the file. *)
Fixpoint write_words (is_hex : bool) (words_per_line : Z) (i : Z)
    (data : list VerilogBits) : M string :=
  match data with
  | [] => mret EmptyString
  | vb :: data =>
      value_str ← (if is_hex then bitstring.hex (_data vb)
                   else verilog_bits.bin vb);
      sep ← (if words_per_line =? 0
             then raise ZeroDivisionError
             else if (i + 1) mod words_per_line =? 0 then mret newline
             else mret " "%string);
      rest ← write_words is_hex words_per_line (i + 1) data;
      mret (value_str +:+ sep +:+ rest)
  end.

(** [MemTools.write_mem_file(file_path, data, is_hex, words_per_line)]:
    the file's contents after a normal return. Logging is left out. *)
Definition write_mem_file (data : list VerilogBits) (is_hex : bool)
    (words_per_line : Z) : M string :=
  match data with
  | [] => raise (ValueError "Input data cannot be empty.")
  | _ => write_words is_hex words_per_line 0 data
  end.

Definition write_memh (data : list VerilogBits) (words_per_line : Z) : M string :=
  write_mem_file data true words_per_line.

Definition write_memb (data : list VerilogBits) (words_per_line : Z) : M string :=
  write_mem_file data false words_per_line.

(** The reader. Its argument [lines] is what iterating over the opened
    file gives; the case of a file that cannot be opened is left out.
    [exn_text e] is [str(e)], the text of an exception, which for the
    exceptions of [bitstring] is not modelled. *)

(** What is left of a line once white space, an address part from [@]
    on and a comment from [//] on are removed. *)
Definition clean_line (line : string) : string :=
  let line := pystr.strip line in
  let line :=
    match pystr.before "@" line with
    | Some data => pystr.strip data
    | None => line
    end in
  match pystr.before "//" line with
  | Some data => pystr.strip data
  | None => line
  end.

(** The loop over the words of line [line_num]. *)
Fixpoint read_words (exn_text : exn -> string) (word_width : Z) (is_hex : bool)
    (line_num : Z) (words : list string) : M (list VerilogBits) :=
  match words with
  | [] => mret []
  | word :: words =>
      vb ← try_except
             (let prefix := if is_hex then "0x"%string else "0b"%string in
              let value_str := prefix +:+ word in
              verilog_bits.__init__ (PyStr value_str) (Some word_width) false)
             (fun e =>
                raise (ValueError ("Error parsing word '" +:+ word
                         +:+ "' on line " +:+ str line_num +:+ ": " +:+ exn_text e)));
      rest ← read_words exn_text word_width is_hex line_num words;
      mret (vb :: rest)
  end.

(** The loop over [enumerate(f, line_num)]. *)
Fixpoint read_lines (exn_text : exn -> string) (word_width : Z) (is_hex : bool)
    (line_num : Z) (lines : list string) : M (list VerilogBits) :=
  match lines with
  | [] => mret []
  | line :: lines =>
      let line := clean_line line in
      vbs ← (match line with
             | EmptyString => mret []
             | _ => read_words exn_text word_width is_hex line_num (pystr.split line)
             end);
      rest ← read_lines exn_text word_width is_hex (line_num + 1) lines;
      mret (vbs ++ rest)
  end.

(** [MemTools.read_mem_file(file_path, word_width, is_hex)] *)
Definition read_mem_file (exn_text : exn -> string) (lines : list string)
    (word_width : Z) (is_hex : bool) : M (list VerilogBits) :=
  read_lines exn_text word_width is_hex 1 lines.

Definition read_memh (exn_text : exn -> string) (lines : list string)
    (word_width : Z) : M (list VerilogBits) :=
  read_mem_file exn_text lines word_width true.

Definition read_memb (exn_text : exn -> string) (lines : list string)
    (word_width : Z) : M (list VerilogBits) :=
  read_mem_file exn_text lines word_width false.

End mem_tools.

Import verilog_bits.

(** ** Vocabulary of the statements *)

(** A computation run on the empty store. *)
Definition run {A} (m : M A) : outcome A := fst (m ∅).

(** Bit [i] of a vector, counting from the least significant bit, which
    is the last stored position. *)
Definition hw_bit (bits : list bool) (i : Z) : option bool :=
  if (0 <=? i) && (i <? Z.of_nat (length bits))
  then bits !! Z.to_nat (Z.of_nat (length bits) - 1 - i)
  else None.

(** The bits that [VerilogBits(value)], called without a length, gives to
    the value of an assignment: the natural width of a literal, a copy of
    another vector, nothing for [None]. An [int] has no width here and is
    refused by the constructor. *)
Definition value_bits (h : heap) (value : pyval) : option (list bool) :=
  match value with
  | PyNone => Some []
  | PyInt _ => None
  | PyStr s => bitstring.auto_bits s
  | PyVerilogBits w => h !! _data w
  | PyBitArray l => h !! l
  end.

(** The stored bits [old] with positions [start] up to but excluding
    [stop] replaced by [val]. *)
Definition splice (old : list bool) (start stop : Z) (val : list bool) : list bool :=
  take (Z.to_nat start) old ++ val ++ drop (Z.to_nat stop) old.

(** The stored positions that a subscript addresses in a vector of [n]
    bits: [v[msb:lsb]] in the hardware convention, [v[i]] counted from
    the left, a negative [i] from the right end. *)
Definition addressed (n : Z) (key : pykey) : option (Z * Z) :=
  match key with
  | KSlice (PyInt msb) (PyInt lsb) PyNone =>
      if (0 <=? lsb) && (lsb <=? msb) && (msb <=? n - 1)
      then Some (n - 1 - msb, n - lsb) else None
  | KInt i =>
      let k := if i <? 0 then i + n else i in
      if (0 <=? k) && (k <? n) then Some (k, k + 1) else None
  | _ => None
  end.

(** The vectors [vs] hold the bit sequences [bss] in the store [h]. *)
Definition hold (h : heap) (vs : list VerilogBits) (bss : list (list bool)) : Prop :=
  Forall2 (fun v bs => h !! _data v = Some bs) vs bss.

(** The specification's hexadecimal form: the [ndigits] low-order
    hexadecimal digits of [value], most significant first, so padded with
    zeros on the left; lower-case, no prefix. *)
Fixpoint hex_padded (ndigits : nat) (value : Z) : string :=
  match ndigits with
  | O => EmptyString
  | S k =>
      String (bitstring.hex_char ((value / 16 ^ Z.of_nat k) mod 16))
        (hex_padded k value)
  end.

(** [ceil(length / 4)] *)
Definition hex_width (length : nat) : nat := Z.to_nat ((Z.of_nat length + 3) / 4).

(** The text that the specification asks for: each word in its
    hexadecimal or binary form, followed by a line break after every
    [words_per_line]-th word and by a space otherwise. *)
Fixpoint rendered (is_hex : bool) (words_per_line : Z) (i : Z)
    (words : list (list bool)) : string :=
  match words with
  | [] => EmptyString
  | bits :: words =>
      (if is_hex then hex_padded (hex_width (length bits)) (bitstring.bits_uint bits)
       else bitstring.bin_string bits)
      +:+ (if (i + 1) mod words_per_line =? 0 then mem_tools.newline else " "%string)
      +:+ rendered is_hex words_per_line (i + 1) words
  end.

(** The hexadecimal writer takes a word whose length is a multiple of 4. *)
Definition hex_writable (bits : list bool) : bool :=
  Z.of_nat (length bits) mod 4 =? 0.

(** One store extends another when every object of the first is in the
    second with the same bits. *)
Definition extends (h h' : heap) : Prop :=
  forall l b, h !! l = Some b -> h' !! l = Some b.

(** A text without the characters [@] and [/], which start an address
    and a comment in a memory file. *)
Definition plain_char (c : ascii) : bool :=
  negb (Ascii.eqb c "@") && negb (Ascii.eqb c "/").

Fixpoint plain_text (s : string) : bool :=
  match s with
  | EmptyString => true
  | String c r => plain_char c && plain_text r
  end.

(** A word: not empty and without white space. *)
Fixpoint no_space (s : string) : bool :=
  match s with
  | EmptyString => true
  | String c r => negb (pystr.isspace c) && no_space r
  end.

(** The text of a word in a memory file of the given radix stands for
    the bits [bits], of the width [word_width]. *)
Definition word_of (is_hex : bool) (word_width : Z) (word : string)
    (bits : list bool) : Prop :=
  bitstring.auto_bits ((if is_hex then "0x" else "0b") +:+ word) = Some bits
  /\ Z.of_nat (length bits) = word_width.

(** The text of a word as the writers write it. *)
Definition word_text (is_hex : bool) (bits : list bool) : string :=
  if is_hex then bitstring.hex_string bits else bitstring.bin_string bits.

(** The vectors of the repository's tests. *)
Definition bits_170 : list bool :=
  [true; false; true; false; true; false; true; false].

Definition zeros_8 : list bool := replicate 8 false.

(** Decides the integer tests of the goal, innermost first; branches whose
    test contradicts the hypotheses are closed. *)
Ltac plain t :=
  lazymatch t with
  | context [if _ then _ else _] => fail
  | _ => idtac
  end.

Ltac ztests :=
  repeat match goal with
    | |- context [?a >? ?b] => rewrite (Z.gtb_ltb a b)
    | |- context [?a >=? ?b] => rewrite (Z.geb_leb a b)
    | |- context [?a <? ?b] =>
        plain a; plain b; destruct (Z.ltb_spec a b); try lia
    | |- context [?a <=? ?b] =>
        plain a; plain b; destruct (Z.leb_spec a b); try lia
    | |- context [?a =? ?b] =>
        plain a; plain b; destruct (Z.eqb_spec a b); try lia
    end;
  cbn [andb orb negb].

(** ** Checks on the repository's own test vectors *)

Example test_creation :
  run (v ← __init__ (PyInt 170) (Some 8) false;
       b ← bin v; u ← uint v; n ← __len__ v; mret (b, u, n))
  = Ok ("10101010"%string, 170, 8).
Proof. vm_compute. reflexivity. Qed.

Example test_creation_copy :
  run (v2 ← __init__ (PyStr "0b1100") None false;
       u ← uint v2;
       v3 ← __init__ (PyVerilogBits v2) None false;
       b ← bin v3;
       mret (u, b, bool_decide (_data v3 = _data v2)))
  = Ok (12, "1100"%string, false).
Proof. vm_compute. reflexivity. Qed.

Example test_valid_slicing_getitem :
  run (v ← __init__ (PyInt 170) (Some 8) false;
       a ← __getitem__ v (KSlice (PyInt 7) (PyInt 4) PyNone);
       b ← __getitem__ v (KSlice (PyInt 5) (PyInt 2) PyNone);
       c ← __getitem__ v (KSlice (PyInt 0) (PyInt 0) PyNone);
       a ← bin a; b ← bin b; c ← bin c; mret (a, b, c))
  = Ok ("1010"%string, "1010"%string, "0"%string).
Proof. vm_compute. reflexivity. Qed.

Example test_valid_slicing_setitem :
  run (v ← __init__ PyNone (Some 8) false;
       x ← __init__ (PyStr "0b1111") None false;
       __setitem__ v (KSlice (PyInt 7) (PyInt 4) PyNone) (PyVerilogBits x);;
       b1 ← bin v;
       __setitem__ v (KSlice (PyInt 3) (PyInt 0) PyNone) (PyStr "0b1010");;
       b2 ← bin v; mret (b1, b2))
  = Ok ("11110000"%string, "11111010"%string).
Proof. vm_compute. reflexivity. Qed.

Example test_explicit_concatenation :
  run (v1 ← __init__ (PyStr "0b1111") None false;
       v2 ← __init__ (PyStr "0b0000") None false;
       v3 ← __init__ (PyStr "0b1010") None false;
       r ← concat [PyVerilogBits v1; PyVerilogBits v2; PyVerilogBits v3];
       bin r)
  = Ok "111100001010"%string.
Proof. vm_compute. reflexivity. Qed.

Example test_slicing_error_handling :
  run (v ← __init__ PyNone (Some 8) false;
       __getitem__ v (KSlice (PyInt 4) (PyInt 5) PyNone))
  = Raise (ValueError
             "LSB (5) cannot be greater than MSB (4) in Verilog-style slicing.")
  /\ run (v ← __init__ PyNone (Some 8) false;
          __getitem__ v (KSlice (PyInt 8) (PyInt 0) PyNone))
     = Raise (IndexError
                "Slice indices [8:0] are out of bounds for a 8-bit array (0 to 7).").
Proof. split; vm_compute; reflexivity. Qed.

Example test_literal_and_signed :
  run (v ← __init__ (PyStr "0x0F") (Some 6) false; bin v) = Ok "001111"%string
  /\ run (v ← __init__ (PyInt (-2)) (Some 4) true;
          b ← bin v; s ← sint v; u ← uint v; mret (b, s, u))
     = Ok ("1110"%string, -2, 14).
Proof. split; vm_compute; reflexivity. Qed.

Example test_python_style_indexing :
  run (v ← __init__ (PyInt 170) (Some 8) false;
       a ← __getitem__ v (KInt 0); b ← __getitem__ v (KInt 7);
       a ← bin a; b ← bin b; mret (a, b))
  = Ok ("1"%string, "0"%string).
Proof. vm_compute. reflexivity. Qed.

(** ** Reasoning about computations *)

Section Stepping.
Context {A B : Type}.
Implicit Types (m : M A) (k : A -> M B) (h : heap).

Lemma bind_Ok m k h a h' :
  m h = (Ok a, h') -> (m ≫= k) h = k a h'.
Proof. intros E. unfold mbind, M_bind, bind. now rewrite E. Qed.

Lemma bind_Raise m k h e h' :
  m h = (Raise e, h') -> (m ≫= k) h = (Raise e, h').
Proof. intros E. unfold mbind, M_bind, bind. now rewrite E. Qed.

Lemma bind_Ok_inv m k h b h2 :
  (m ≫= k) h = (Ok b, h2) ->
  exists a h1, m h = (Ok a, h1) /\ k a h1 = (Ok b, h2).
Proof.
  unfold mbind, M_bind, bind. destruct (m h) as [[a | e |] h1]; intros E.
  - now exists a, h1.
  - discriminate.
  - discriminate.
Qed.
End Stepping.

Lemma mret_eq {A} (a : A) (h : heap) : (mret a : M A) h = (Ok a, h).
Proof. reflexivity. Qed.

Lemma raise_eq {A} (e : exn) (h : heap) : @raise A e h = (Raise e, h).
Proof. reflexivity. Qed.

Lemma mret_eq_bind {A B} (a : A) (k : A -> M B) (h : heap) :
  (k a ≫= mret) h = k a h.
Proof. unfold mbind, M_bind, bind. now destruct (k a h) as [[b | e |] h']. Qed.

(** *** The store primitives *)

Lemma fresh_None (h : heap) : h !! fresh (dom h) = None.
Proof. apply not_elem_of_dom, is_fresh. Qed.

Lemma new_eq bits (h : heap) :
  bitstring.new bits h = (Ok (fresh (dom h)), <[fresh (dom h) := bits]> h).
Proof. reflexivity. Qed.

Lemma get_eq l bits (h : heap) :
  h !! l = Some bits -> bitstring.get l h = (Ok bits, h).
Proof. intros E. unfold bitstring.get. now rewrite E. Qed.

Lemma put_eq l old bits (h : heap) :
  h !! l = Some old -> bitstring.put l bits h = (Ok tt, <[l := bits]> h).
Proof. intros E. unfold bitstring.put. now rewrite E. Qed.

Lemma len_eq l bits (h : heap) :
  h !! l = Some bits -> bitstring.len l h = (Ok (Z.of_nat (length bits)), h).
Proof.
  intros E. unfold bitstring.len. now rewrite (bind_Ok _ _ _ _ _ (get_eq _ _ _ E)).
Qed.

(** An object allocated later leaves the objects of [h] where they are. *)
Lemma lookup_after_new l bits (h : heap) x :
  h !! l = Some x -> <[fresh (dom h) := bits]> h !! l = Some x.
Proof.
  intros E. rewrite lookup_insert_ne; [exact E |].
  intros Heq. subst l. rewrite fresh_None in E. discriminate.
Qed.

Lemma bits_uint_app bits b :
  bitstring.bits_uint (bits ++ [b]) = 2 * bitstring.bits_uint bits + Z.b2z b.
Proof. unfold bitstring.bits_uint. now rewrite fold_left_app. Qed.

Lemma bits_uint_range bits :
  0 <= bitstring.bits_uint bits < 2 ^ Z.of_nat (length bits).
Proof.
  induction bits as [| b bits IH] using rev_ind.
  - cbn. lia.
  - rewrite bits_uint_app, length_app, Nat2Z.inj_add, Z.pow_add_r by lia.
    cbn [length]. change (2 ^ Z.of_nat 1) with 2. destruct b; cbn [Z.b2z]; lia.
Qed.

(** [hw_bit] is the binary digit of weight [2^i] of the unsigned value. *)
Lemma hw_bit_testbit bits i :
  0 <= i < Z.of_nat (length bits) ->
  hw_bit bits i = Some (Z.testbit (bitstring.bits_uint bits) i).
Proof.
  unfold hw_bit. revert i.
  induction bits as [| b bits IH] using rev_ind; intros i Hi.
  - cbn in Hi. lia.
  - rewrite length_app in *. cbn [length] in *.
    replace ((0 <=? i) && (i <? Z.of_nat (length bits + 1))) with true
      by (symmetry; apply andb_true_iff; split; [apply Z.leb_le | apply Z.ltb_lt]; lia).
    rewrite bits_uint_app.
    destruct (Z.eq_dec i 0) as [-> | Hne].
    + replace (Z.to_nat (Z.of_nat (length bits + 1) - 1 - 0)) with (length bits + 0)%nat by lia.
      rewrite lookup_app_r by lia.
      replace (length bits + 0 - length bits)%nat with 0%nat by lia. cbn [lookup list_lookup].
      f_equal. now rewrite Z.testbit_0_r.
    + rewrite lookup_app_l by lia.
      specialize (IH (i - 1)).
      replace ((0 <=? i - 1) && (i - 1 <? Z.of_nat (length bits))) with true in IH
        by (symmetry; apply andb_true_iff; split; [apply Z.leb_le | apply Z.ltb_lt]; lia).
      replace (Z.to_nat (Z.of_nat (length bits + 1) - 1 - i))
        with (Z.to_nat (Z.of_nat (length bits) - 1 - (i - 1))) by lia.
      rewrite IH by lia. f_equal.
      replace i with (Z.succ (i - 1)) at 2 by lia.
      now rewrite Z.testbit_succ_r by lia.
Qed.

(** ** Ranged and single-bit reads *)

Lemma parse_slice_reversed (h : heap) v msb lsb :
  msb < lsb ->
  _parse_verilog_slice v (PyInt msb) (PyInt lsb) h
  = (Raise (ValueError ("LSB (" +:+ str lsb
              +:+ ") cannot be greater than MSB (" +:+ str msb
              +:+ ") in Verilog-style slicing.")), h).
Proof. intros. unfold _parse_verilog_slice. now ztests. Qed.

Section Reads.
Variables (h : heap) (v : VerilogBits) (bits : list bool).
Hypothesis live : h !! _data v = Some bits.

Let n : Z := Z.of_nat (length bits).

Lemma parse_slice_ok msb lsb :
  lsb <= msb -> 0 <= lsb -> msb <= n - 1 ->
  _parse_verilog_slice v (PyInt msb) (PyInt lsb) h
  = (Ok (n - 1 - msb, n - 1 - lsb + 1), h).
Proof.
  intros. unfold _parse_verilog_slice, __len__.
  rewrite Z.gtb_ltb, (proj2 (Z.ltb_ge _ _)) by lia.
  rewrite (bind_Ok _ _ _ _ _ (len_eq _ _ _ live)). fold n. now ztests.
Qed.

Lemma parse_slice_out_of_bounds msb lsb :
  lsb <= msb -> msb < 0 \/ n - 1 < msb \/ lsb < 0 \/ n - 1 < lsb ->
  exists msg,
    _parse_verilog_slice v (PyInt msb) (PyInt lsb) h = (Raise (IndexError msg), h).
Proof.
  intros. unfold _parse_verilog_slice, __len__.
  rewrite Z.gtb_ltb, (proj2 (Z.ltb_ge _ _)) by lia.
  rewrite (bind_Ok _ _ _ _ _ (len_eq _ _ _ live)). fold n.
  ztests; eexists; reflexivity.
Qed.

Lemma getitem_slice_inside start stop :
  0 <= start -> start < stop -> stop <= n ->
  bitstring.getitem_slice (_data v) (Some start) (Some stop) h
  = (Ok (fresh (dom h)), <[fresh (dom h) := bitstring._slice bits start stop]> h).
Proof.
  intros. unfold bitstring.getitem_slice.
  rewrite (bind_Ok _ _ _ _ _ (get_eq _ _ _ live)). fold n.
  ztests; rewrite Z.max_l, Z.min_l by lia; reflexivity.
Qed.

Lemma slice_length start stop :
  0 <= start -> start <= stop -> stop <= n ->
  Z.of_nat (length (bitstring._slice bits start stop)) = stop - start.
Proof.
  intros. unfold bitstring._slice. rewrite length_take, length_drop. unfold n in *. lia.
Qed.

Lemma slice_lookup start stop (j : nat) :
  0 <= start -> start <= stop -> stop <= n -> Z.of_nat j < stop - start ->
  bitstring._slice bits start stop !! j = bits !! (Z.to_nat start + j)%nat.
Proof.
  intros. unfold bitstring._slice.
  rewrite lookup_take_lt by lia. now rewrite lookup_drop.
Qed.

Lemma slice_hw_bit msb lsb k :
  0 <= lsb -> lsb <= msb -> msb <= n - 1 -> 0 <= k <= msb - lsb ->
  hw_bit (bitstring._slice bits (n - 1 - msb) (n - lsb)) k = hw_bit bits (lsb + k).
Proof.
  intros. unfold hw_bit. rewrite slice_length by lia. fold n. ztests.
  rewrite slice_lookup by lia. f_equal. lia.
Qed.

Lemma init_of_BitArray l (h' : heap) :
  __init__ (PyBitArray l) None false h' = (Ok (mkVerilogBits l), h').
Proof. reflexivity. Qed.

(** The read [v[msb:lsb]] inside the bounds. *)
Lemma getitem_range_ok msb lsb :
  lsb <= msb -> 0 <= lsb -> msb <= n - 1 ->
  __getitem__ v (KSlice (PyInt msb) (PyInt lsb) PyNone) h
  = (Ok (mkVerilogBits (fresh (dom h))),
     <[fresh (dom h) := bitstring._slice bits (n - 1 - msb) (n - lsb)]> h).
Proof.
  intros. unfold __getitem__.
  rewrite (bind_Ok _ _ _ _ _ (parse_slice_ok msb lsb ltac:(lia) ltac:(lia) ltac:(lia))).
  rewrite (bind_Ok _ _ _ _ _
             (getitem_slice_inside (n - 1 - msb) (n - 1 - lsb + 1)
                ltac:(lia) ltac:(lia) ltac:(lia))).
  rewrite init_of_BitArray. do 3 f_equal. lia.
Qed.

(** The read [v[i]] for a position inside the vector. *)
Lemma getitem_int_ok i :
  0 <= i < n ->
  __getitem__ v (KInt i) h
  = (Ok (mkVerilogBits (fresh (dom h))),
     <[fresh (dom h) := bitstring._slice bits i (i + 1)]> h).
Proof.
  intros. unfold __getitem__.
  rewrite (bind_Ok _ _ _ _ _
             (getitem_slice_inside i (i + 1) ltac:(lia) ltac:(lia) ltac:(lia))).
  now rewrite init_of_BitArray.
Qed.

Lemma slice_single i :
  0 <= i < n ->
  exists b, bitstring._slice bits i (i + 1) = [b] /\ bits !! Z.to_nat i = Some b.
Proof.
  intros. unfold bitstring._slice.
  replace (Z.to_nat (i + 1 - i)) with 1%nat by lia.
  destruct (lookup_lt_is_Some_2 bits (Z.to_nat i)) as [b Hb]; [unfold n in *; lia |].
  exists b. split; [| exact Hb].
  rewrite <- (take_drop_middle _ _ _ Hb) at 1.
  rewrite drop_app_length'; [reflexivity |].
  rewrite length_take. apply lookup_lt_Some in Hb. lia.
Qed.

End Reads.

(** ** Writes *)

Lemma splice_length old start stop val :
  0 <= start -> start <= stop -> stop <= Z.of_nat (length old) ->
  Z.of_nat (length (splice old start stop val))
  = Z.of_nat (length old) - (stop - start) + Z.of_nat (length val).
Proof.
  intros. unfold splice. rewrite !length_app, length_take, length_drop. lia.
Qed.

Lemma splice_before old start stop val (j : nat) :
  0 <= start -> start <= stop -> stop <= Z.of_nat (length old) ->
  Z.of_nat j < start ->
  splice old start stop val !! j = old !! j.
Proof.
  intros. unfold splice.
  rewrite lookup_app_l by (rewrite length_take; lia).
  apply lookup_take_lt. lia.
Qed.

Lemma splice_after old start stop val (j : nat) :
  0 <= start -> start <= stop -> stop <= Z.of_nat (length old) ->
  Z.of_nat (length val) = stop - start -> stop <= Z.of_nat j ->
  splice old start stop val !! j = old !! j.
Proof.
  intros. unfold splice.
  rewrite lookup_app_r by (rewrite length_take; lia).
  rewrite lookup_app_r by (rewrite length_take; lia).
  rewrite lookup_drop, length_take. f_equal. lia.
Qed.

(** With a value of another width the bits after the addressed part keep
    their distance to the right end, that is their hardware index. *)
Lemma splice_after_shifted old start stop val (j : nat) :
  0 <= start -> start <= stop -> stop <= Z.of_nat (length old) ->
  splice old start stop val !! (Z.to_nat start + length val + j)%nat
  = old !! (Z.to_nat stop + j)%nat.
Proof.
  intros. unfold splice.
  rewrite lookup_app_r by (rewrite length_take; lia).
  rewrite lookup_app_r by (rewrite length_take; lia).
  rewrite lookup_drop, length_take. f_equal. lia.
Qed.

Lemma splice_inside old start stop val (j : nat) :
  0 <= start -> start <= stop -> stop <= Z.of_nat (length old) ->
  (j < length val)%nat ->
  splice old start stop val !! (Z.to_nat start + j)%nat = val !! j.
Proof.
  intros. unfold splice.
  rewrite lookup_app_r by (rewrite length_take; lia).
  rewrite lookup_app_l by (rewrite length_take; lia).
  f_equal. rewrite length_take. lia.
Qed.

Section Init.
Variable h : heap.

Lemma init_plain_eq value :
  __init__ value None false h
  = match value with
    | PyInt _ => (Raise CreationError, h)
    | PyBitArray l => (Ok (mkVerilogBits l), h)
    | PyStr s =>
        match bitstring.auto_bits s with
        | Some val => (Ok (mkVerilogBits (fresh (dom h))), <[fresh (dom h) := val]> h)
        | None => (Raise CreationError, h)
        end
    | PyNone => (Ok (mkVerilogBits (fresh (dom h))), <[fresh (dom h) := []]> h)
    | PyVerilogBits w =>
        match h !! _data w with
        | Some val => (Ok (mkVerilogBits (fresh (dom h))), <[fresh (dom h) := val]> h)
        | None => (Fault, h)
        end
    end.
Proof.
  destruct value as [| z | s | w | l]; try reflexivity.
  - unfold __init__, init_auto, bitstring.BitArray.
    destruct (bitstring.auto_bits s); reflexivity.
  - unfold __init__, bitstring.copy, bitstring.get, mbind, M_bind, bind.
    destruct (h !! _data w); reflexivity.
Qed.

(** A constructor call that returns leaves the objects of the store
    where they are, and either the store holds the value's bits at the
    new vector's [_data], or the value was a reference to no object. *)
Lemma init_plain_inv value nv (h1 : heap) :
  __init__ value None false h = (Ok nv, h1) ->
  (forall l b, h !! l = Some b -> h1 !! l = Some b)
  /\ h1 !! _data nv = value_bits h value.
Proof.
  rewrite init_plain_eq. destruct value as [| z | s | w | l]; cbn [value_bits].
  - intros [= <- <-]. split; [intros; now apply lookup_after_new |].
    cbn. apply lookup_insert_eq.
  - discriminate.
  - destruct (bitstring.auto_bits s); [| discriminate].
    intros [= <- <-]. split; [intros; now apply lookup_after_new |].
    cbn. apply lookup_insert_eq.
  - destruct (h !! _data w); [| discriminate].
    intros [= <- <-]. split; [intros; now apply lookup_after_new |].
    cbn. apply lookup_insert_eq.
  - intros [= <- <-]. split; [auto | reflexivity].
Qed.

Lemma init_plain_ok value val :
  value_bits h value = Some val ->
  exists nv h1,
    __init__ value None false h = (Ok nv, h1)
    /\ (forall l b, h !! l = Some b -> h1 !! l = Some b)
    /\ h1 !! _data nv = Some val.
Proof.
  intros Hval.
  assert (exists nv h1, __init__ value None false h = (Ok nv, h1)) as (nv & h1 & E).
  { rewrite init_plain_eq.
    destruct value as [| z | s | w | l]; cbn [value_bits] in Hval;
      try discriminate; try rewrite Hval; eauto. }
  exists nv, h1. destruct (init_plain_inv _ _ _ E) as [Hf Hv].
  split; [exact E |]. split; [exact Hf |]. now rewrite Hv.
Qed.
End Init.

Section Setitem.
Variables (h : heap) (self value : loc) (bits val : list bool).
Hypothesis live : h !! self = Some bits.
Hypothesis live_value : h !! value = Some val.

Let n : Z := Z.of_nat (length bits).

Lemma overwrite_splice pos :
  0 <= pos ->
  bitstring._overwrite bits val pos
  = splice bits pos (pos + Z.of_nat (length val)) val.
Proof.
  intros. unfold bitstring._overwrite, splice. do 3 f_equal. lia.
Qed.

Lemma delete_insert_splice start stop :
  0 <= start -> start <= stop -> stop <= n ->
  bitstring._insert (bitstring._delete bits (stop - start) start) val start
  = splice bits start stop val.
Proof.
  intros. unfold bitstring._insert, bitstring._delete, splice.
  assert (Z.to_nat start = length (take (Z.to_nat start) bits)) as Hlen
    by (rewrite length_take; unfold n in *; lia).
  rewrite take_app_length' by exact Hlen.
  rewrite drop_app_length' by exact Hlen.
  do 3 f_equal. lia.
Qed.

Lemma setitem_slice_eq start stop :
  0 <= start -> start <= stop -> stop <= n ->
  bitstring.setitem_slice self (Some start) (Some stop) value h
  = (Ok tt, <[self := splice bits start stop val]> h).
Proof.
  intros. unfold bitstring.setitem_slice.
  rewrite (bind_Ok _ _ _ _ _ (get_eq _ _ _ live)).
  rewrite (bind_Ok _ _ _ _ _ (get_eq _ _ _ live_value)). fold n.
  repeat first [ rewrite (proj2 (Z.ltb_ge start 0)) by lia
               | rewrite (proj2 (Z.ltb_ge stop 0)) by lia
               | progress cbv beta iota zeta ].
  rewrite Z.gtb_ltb, (proj2 (Z.ltb_ge stop start)) by lia. cbv iota.
  rewrite (Z.min_l stop n), (Z.max_l start 0), (Z.min_l start stop) by lia.
  destruct (Z.eqb_spec (stop - start) (Z.of_nat (length val))) as [Heq | Hne].
  - destruct (Z.eqb_spec (Z.of_nat (length val)) 0) as [Hz | Hnz].
    + rewrite mret_eq. f_equal. symmetry. apply insert_id. rewrite live. f_equal.
      destruct val; [| cbn in Hz; lia]. unfold splice.
      replace stop with start by lia. cbn [app]. symmetry. apply take_drop.
    + rewrite (put_eq _ _ _ _ live). rewrite overwrite_splice by lia.
      do 3 f_equal. lia.
  - rewrite (put_eq _ _ _ _ live). now rewrite delete_insert_splice by lia.
Qed.

Lemma setitem_int_eq key :
  let k := if key <? 0 then key + n else key in
  bitstring.setitem_int self key value h
  = if (0 <=? k) && (k <? n)
    then (Ok tt, <[self := splice bits k (k + 1) val]> h)
    else (Raise (IndexError "Slice index out of range."), h).
Proof.
  intros k. unfold bitstring.setitem_int.
  rewrite (bind_Ok _ _ _ _ _ (get_eq _ _ _ live)). fold n. fold k.
  destruct ((0 <=? k) && (k <? n)) eqn:Hk; cbn [negb]; [| reflexivity].
  apply andb_true_iff in Hk as [Hk0%Z.leb_le Hk1%Z.ltb_lt].
  rewrite (bind_Ok _ _ _ _ _ (get_eq _ _ _ live_value)).
  assert (bitstring._insert (bitstring._delete bits 1 k) val k
          = splice bits k (k + 1) val) as Hgen.
  { replace 1 with (k + 1 - k) at 1 by lia. apply delete_insert_splice; lia. }
  destruct val as [| b [| b' val']].
  - rewrite (put_eq _ _ _ _ live). now rewrite Hgen.
  - rewrite (put_eq _ _ _ _ live). do 2 f_equal. unfold splice.
    rewrite insert_take_drop by (unfold n in *; lia).
    cbn [app]. do 3 f_equal. lia.
  - rewrite (put_eq _ _ _ _ live). now rewrite Hgen.
Qed.

End Setitem.

Lemma parse_slice_inv (h h' : heap) v bits key_start key_stop a b :
  h !! _data v = Some bits ->
  _parse_verilog_slice v key_start key_stop h = (Ok (a, b), h') ->
  exists msb lsb,
    key_start = PyInt msb /\ key_stop = PyInt lsb
    /\ 0 <= lsb /\ lsb <= msb /\ msb <= Z.of_nat (length bits) - 1
    /\ a = Z.of_nat (length bits) - 1 - msb /\ b = Z.of_nat (length bits) - lsb
    /\ h' = h.
Proof.
  intros live E.
  destruct key_start as [| msb | | |]; try discriminate.
  destruct key_stop as [| lsb | | |]; try discriminate.
  exists msb, lsb.
  destruct (Z_lt_dec msb lsb) as [Hlt | Hge].
  { rewrite (parse_slice_reversed _ _ _ _ Hlt) in E. discriminate. }
  destruct (Z_lt_dec lsb 0) as [Hneg | Hpos].
  { destruct (parse_slice_out_of_bounds _ _ _ live msb lsb) as [msg E'];
      [lia | lia | rewrite E' in E; discriminate]. }
  destruct (Z_lt_dec (Z.of_nat (length bits) - 1) msb) as [Hbig | Hsmall].
  { destruct (parse_slice_out_of_bounds _ _ _ live msb lsb) as [msg E'];
      [lia | lia | rewrite E' in E; discriminate]. }
  rewrite (parse_slice_ok _ _ _ live msb lsb) in E by lia.
  injection E as <- <- <-. repeat split; lia.
Qed.

Lemma addressed_bounds n key start stop :
  addressed n key = Some (start, stop) ->
  0 <= start /\ start < stop /\ stop <= n.
Proof.
  unfold addressed. destruct key as [i | s t st |]; [| | discriminate].
  - cbv zeta. destruct (_ && _) eqn:Hk; [| discriminate].
    apply andb_true_iff in Hk as [Hk0%Z.leb_le Hk1%Z.ltb_lt].
    intros [= <- <-]. lia.
  - destruct s as [| msb | | |]; try discriminate.
    destruct t as [| lsb | | |]; try discriminate.
    destruct st; try discriminate.
    destruct (_ && _) eqn:Hk; [| discriminate].
    apply andb_true_iff in Hk as [Hk Hk2%Z.leb_le].
    apply andb_true_iff in Hk as [Hk0%Z.leb_le Hk1%Z.leb_le].
    intros [= <- <-]. lia.
Qed.

(** What a write that returns has done to the store. *)
Lemma setitem_Ok_inv (h h' : heap) v key x old :
  h !! _data v = Some old ->
  __setitem__ v key x h = (Ok tt, h') ->
  exists start stop val h1,
    addressed (Z.of_nat (length old)) key = Some (start, stop)
    /\ value_bits h x = Some val
    /\ (forall l b, h !! l = Some b -> h1 !! l = Some b)
    /\ h' = <[_data v := splice old start stop val]> h1.
Proof.
  intros live E. unfold __setitem__ in E.
  apply bind_Ok_inv in E as (nv & h1 & Einit & E).
  destruct (init_plain_inv _ _ _ _ Einit) as [Hframe Hval].
  pose proof (Hframe _ _ live) as live1.
  destruct key as [i | s t st | ty].
  - destruct (h1 !! _data nv) as [val |] eqn:Hv.
    + rewrite (setitem_int_eq _ _ _ _ _ live1 Hv i) in E.
      destruct (_ && _) eqn:Hk in E; [| discriminate].
      injection E as <-.
      eexists _, _, val, h1. unfold addressed. cbv zeta. rewrite Hk.
      split; [reflexivity |]. split; [now rewrite <- Hval |]. now split.
    + exfalso. unfold bitstring.setitem_int in E.
      rewrite (bind_Ok _ _ _ _ _ (get_eq _ _ _ live1)) in E.
      destruct (negb _) in E; [discriminate |].
      unfold mbind, M_bind, bind, bitstring.get in E. rewrite Hv in E. discriminate.
  - destruct st; try discriminate.
    apply bind_Ok_inv in E as ([a b] & h2 & Eparse & E).
    destruct (parse_slice_inv _ _ _ _ _ _ _ _ live1 Eparse)
      as (msb & lsb & -> & -> & Hlo & Hle & Hhi & -> & -> & ->).
    destruct (h1 !! _data nv) as [val |] eqn:Hv.
    + rewrite (setitem_slice_eq _ _ _ _ _ live1 Hv) in E by lia.
      injection E as <-.
      eexists _, _, val, h1. unfold addressed.
      replace ((0 <=? lsb) && (lsb <=? msb) && (msb <=? Z.of_nat (length old) - 1))
        with true by (symmetry; rewrite !andb_true_iff, !Z.leb_le; lia).
      split; [reflexivity |]. split; [now rewrite <- Hval |]. now split.
    + exfalso. unfold bitstring.setitem_slice in E.
      rewrite (bind_Ok _ _ _ _ _ (get_eq _ _ _ live1)) in E.
      unfold mbind, M_bind, bind, bitstring.get in E. rewrite Hv in E. discriminate.
  - discriminate.
Qed.

(** C1. Ranged read. For a vector [v] of [n] bits: when [lsb <= msb] and
    both lie in [0, n-1], [v[msb:lsb]] returns a vector on a new object,
    of [msb - lsb + 1] bits, whose bits are the stored positions
    [n-1-msb] up to but excluding [n-lsb] of [v], that is the hardware
    bits [msb] down to [lsb] (bit 0 the least significant), and [v] is
    left as it was; when [lsb > msb] it raises [ValueError] saying that
    the LSB cannot be greater than the MSB; with a step it raises
    [ValueError]; when [lsb <= msb] and an index is outside [0, n-1] it
    raises [IndexError]. *)
Theorem getitem_range_contract (h : heap) (v : VerilogBits) (bits : list bool)
    (msb lsb : Z) :
  h !! _data v = Some bits ->
  let n := Z.of_nat (length bits) in
  (lsb <= msb -> 0 <= lsb -> msb <= n - 1 ->
   exists r out,
     __getitem__ v (KSlice (PyInt msb) (PyInt lsb) PyNone) h
       = (Ok r, <[_data r := out]> h)
     /\ h !! _data r = None
     /\ Z.of_nat (length out) = msb - lsb + 1
     /\ out = bitstring._slice bits (n - 1 - msb) (n - lsb)
     /\ (forall j : nat, Z.of_nat j < msb - lsb + 1 ->
           out !! j = bits !! (Z.to_nat (n - 1 - msb) + j)%nat)
     /\ (forall k, 0 <= k <= msb - lsb -> hw_bit out k = hw_bit bits (lsb + k)))
  /\ (msb < lsb ->
      __getitem__ v (KSlice (PyInt msb) (PyInt lsb) PyNone) h
      = (Raise (ValueError ("LSB (" +:+ str lsb
                  +:+ ") cannot be greater than MSB (" +:+ str msb
                  +:+ ") in Verilog-style slicing.")), h))
  /\ (forall start stop step, step <> PyNone ->
      __getitem__ v (KSlice start stop step) h
      = (Raise (ValueError "Step is not supported in Verilog-style slicing."), h))
  /\ (lsb <= msb -> msb < 0 \/ n - 1 < msb \/ lsb < 0 \/ n - 1 < lsb ->
      exists msg,
        __getitem__ v (KSlice (PyInt msb) (PyInt lsb) PyNone) h
        = (Raise (IndexError msg), h)).
Proof.
  intros live n. repeat split.
  - intros Hle Hlo Hhi.
    exists (mkVerilogBits (fresh (dom h))),
           (bitstring._slice bits (n - 1 - msb) (n - lsb)).
    split; [now apply getitem_range_ok |].
    split; [apply fresh_None |].
    split; [fold n; rewrite slice_length; fold n; lia |].
    split; [reflexivity |].
    split.
    + intros j Hj. apply slice_lookup; fold n; lia.
    + intros k Hk. apply slice_hw_bit; fold n; lia.
  - intros Hgt. unfold __getitem__.
    erewrite bind_Raise; [reflexivity | now apply parse_slice_reversed].
  - intros start stop step Hstep. unfold __getitem__.
    destruct step; [congruence | reflexivity ..].
  - intros Hle Hout.
    destruct (parse_slice_out_of_bounds _ _ _ live msb lsb Hle Hout) as [msg E].
    exists msg. unfold __getitem__. now rewrite (bind_Raise _ _ _ _ _ E).
Qed.

Lemma getitem_range_contract_witness :
  (exists r out,
     __getitem__ (mkVerilogBits 1) (KSlice (PyInt 7) (PyInt 4) PyNone)
       {[1%positive := bits_170]}
     = (Ok r, <[_data r := out]> {[1%positive := bits_170]})
     /\ out = [true; false; true; false])
  /\ (exists msg,
        __getitem__ (mkVerilogBits 1) (KSlice (PyInt 8) (PyInt 0) PyNone)
          {[1%positive := bits_170]}
        = (Raise (IndexError msg), {[1%positive := bits_170]})).
Proof.
  pose proof (getitem_range_contract {[1%positive := bits_170]} (mkVerilogBits 1)
                bits_170 7 4 eq_refl) as [Hok _].
  pose proof (getitem_range_contract {[1%positive := bits_170]} (mkVerilogBits 1)
                bits_170 8 0 eq_refl) as (_ & _ & _ & Hout).
  split.
  - destruct Hok as (r & out & E & _ & _ & Hs & _); [cbn; lia ..|].
    exists r, out. split; [exact E | exact Hs].
  - apply Hout; cbn; lia.
Defined.

(** C2 as stated does not hold: on the 8-bit vector [10101010] the read
    [v[0]] returns the bit [1], the most significant bit, while hardware
    bit 0 of that vector is [0]; and the reads [v[8]] and [v[-1]] return
    a vector of no bits instead of raising [IndexError]. *)
Lemma getitem_int_counterexample :
  hw_bit bits_170 0 = Some false
  /\ (exists r,
        __getitem__ (mkVerilogBits 1) (KInt 0) {[1%positive := bits_170]}
        = (Ok r, <[_data r := [true]]> {[1%positive := bits_170]}))
  /\ (exists r,
        __getitem__ (mkVerilogBits 1) (KInt 8) {[1%positive := bits_170]}
        = (Ok r, <[_data r := []]> {[1%positive := bits_170]}))
  /\ (exists r,
        __getitem__ (mkVerilogBits 1) (KInt (-1)) {[1%positive := bits_170]}
        = (Ok r, <[_data r := []]> {[1%positive := bits_170]})).
Proof.
  split; [reflexivity |].
  repeat split; exists (mkVerilogBits 2); vm_compute; reflexivity.
Qed.

(** C2 (as amended). For a vector [v] of [n] bits and [0 <= i < n], the
    read [v[i]] returns a vector of one bit on a new object, holding the
    bit at stored position [i] counted from the left, which is hardware
    bit [n - 1 - i]: index 0 is the most significant bit. *)
Theorem getitem_int_contract (h : heap) (v : VerilogBits) (bits : list bool) (i : Z) :
  h !! _data v = Some bits ->
  0 <= i < Z.of_nat (length bits) ->
  exists r b,
    __getitem__ v (KInt i) h = (Ok r, <[_data r := [b]]> h)
    /\ h !! _data r = None
    /\ bits !! Z.to_nat i = Some b
    /\ hw_bit bits (Z.of_nat (length bits) - 1 - i) = Some b.
Proof.
  intros live Hi.
  destruct (slice_single bits i Hi) as (b & Hs & Hb).
  exists (mkVerilogBits (fresh (dom h))), b.
  split; [rewrite (getitem_int_ok _ _ _ live i Hi); now rewrite Hs |].
  split; [apply fresh_None |].
  split; [exact Hb |].
  unfold hw_bit. ztests. rewrite <- Hb. f_equal. lia.
Qed.

Lemma getitem_int_contract_witness :
  exists r,
    __getitem__ (mkVerilogBits 1) (KInt 1) {[1%positive := bits_170]}
    = (Ok r, <[_data r := [false]]> {[1%positive := bits_170]})
    /\ hw_bit bits_170 6 = Some false.
Proof.
  destruct (getitem_int_contract {[1%positive := bits_170]} (mkVerilogBits 1)
              bits_170 1) as (r & b & E & _ & Hb & Hw);
    [reflexivity | cbn; lia |].
  injection Hb as <-. exists r. split; [exact E | exact Hw].
Defined.

(** C3 as stated does not hold: on an 8-bit vector of zeros the write
    [v[7:4] = '0b1'] returns normally and leaves [v] with 5 bits. *)
Lemma setitem_length_counterexample :
  run (v ← __init__ PyNone (Some 8) false;
       before ← __len__ v;
       __setitem__ v (KSlice (PyInt 7) (PyInt 4) PyNone) (PyStr "0b1");;
       after ← __len__ v;
       b ← bin v;
       mret (before, after, b))
  = Ok (8, 5, "10000"%string).
Proof. vm_compute. reflexivity. Qed.

(** C3 (as amended). A write [v[key] = x] that returns has replaced, in
    the object that [v] already referred to, the addressed stored
    positions [start .. stop-1] by all the bits of [x] as constructed
    without a length, has left every other object of the store alone,
    and has left the bits before and after the addressed part as they
    were, those after it at the same distance from the right end. The
    length becomes [len(v) - (stop - start) + len(x)]; when [x] has as
    many bits as are addressed ([1] for [v[i]], [msb - lsb + 1] for
    [v[msb:lsb]]) the length is unchanged and every bit outside the
    addressed part keeps its position and value. *)
Theorem setitem_frame (h h' : heap) (v : VerilogBits) (key : pykey) (x : pyval)
    (old : list bool) :
  h !! _data v = Some old ->
  __setitem__ v key x h = (Ok tt, h') ->
  exists start stop val,
    addressed (Z.of_nat (length old)) key = Some (start, stop)
    /\ value_bits h x = Some val
    /\ h' !! _data v = Some (splice old start stop val)
    /\ (forall l b, l <> _data v -> h !! l = Some b -> h' !! l = Some b)
    /\ Z.of_nat (length (splice old start stop val))
       = Z.of_nat (length old) - (stop - start) + Z.of_nat (length val)
    /\ (forall j : nat, Z.of_nat j < start ->
          splice old start stop val !! j = old !! j)
    /\ (forall j : nat,
          splice old start stop val !! (Z.to_nat start + length val + j)%nat
          = old !! (Z.to_nat stop + j)%nat)
    /\ (Z.of_nat (length val) = stop - start ->
          length (splice old start stop val) = length old
          /\ forall j : nat, Z.of_nat j < start \/ stop <= Z.of_nat j ->
               splice old start stop val !! j = old !! j).
Proof.
  intros live E.
  destruct (setitem_Ok_inv _ _ _ _ _ _ live E)
    as (start & stop & val & h1 & Haddr & Hval & Hframe & ->).
  destruct (addressed_bounds _ _ _ _ Haddr) as (H0 & H1 & H2).
  exists start, stop, val.
  split; [exact Haddr |]. split; [exact Hval |].
  split; [apply lookup_insert_eq |].
  split.
  { intros l b Hne Hl. rewrite lookup_insert_ne by congruence. now apply Hframe. }
  split; [apply splice_length; lia |].
  split; [intros; apply splice_before; lia |].
  split; [intros; apply splice_after_shifted; lia |].
  intros Hw. split.
  - pose proof (splice_length old start stop val ltac:(lia) ltac:(lia) ltac:(lia)). lia.
  - intros j [Hj | Hj]; [apply splice_before | apply splice_after]; lia.
Qed.

Lemma setitem_frame_witness :
  (<[1%positive := [true; true; true; true; false; false; false; false]]>
     (<[2%positive := [true; true; true; true]]> {[1%positive := zeros_8]}) : heap)
    !! 1%positive
  = Some (splice zeros_8 0 4 [true; true; true; true]).
Proof.
  destruct (setitem_frame {[1%positive := zeros_8]}
              (<[1%positive := [true; true; true; true; false; false; false; false]]>
                 (<[2%positive := [true; true; true; true]]> {[1%positive := zeros_8]}))
              (mkVerilogBits 1) (KSlice (PyInt 7) (PyInt 4) PyNone)
              (PyStr "0b1111") zeros_8)
    as (start & stop & val & Haddr & Hval & Hnew & _).
  - reflexivity.
  - vm_compute. reflexivity.
  - injection Haddr as <- <-. injection Hval as <-. exact Hnew.
Defined.

(** C4 as stated does not hold: on an 8-bit vector of zeros the write
    [v[7:4] = '0b111111'], whose value has 6 bits for 4 addressed ones,
    returns normally; it raises nothing and [v] then has 10 bits. *)
Lemma setitem_width_counterexample :
  value_bits {[1%positive := zeros_8]} (PyStr "0b111111")
  = Some [true; true; true; true; true; true]
  /\ exists h' : heap,
       __setitem__ (mkVerilogBits 1) (KSlice (PyInt 7) (PyInt 4) PyNone)
         (PyStr "0b111111") {[1%positive := zeros_8]}
       = (Ok tt, h')
       /\ h' !! 1%positive
          = Some [true; true; true; true; true; true; false; false; false; false].
Proof.
  split; [reflexivity |].
  eexists. split; [vm_compute; reflexivity | reflexivity].
Qed.

(** C4 (as amended). For a ranged write [v[msb:lsb] = x] inside the
    bounds, [x] is first made a vector by the constructor called without
    a length, so with its own width; the write makes no width check and
    raises nothing for any width: the addressed bits are replaced by all
    the bits of [x], neither truncated nor padded, and the length of [v]
    becomes [len(v) - (msb - lsb + 1) + len(x)]. *)
Theorem setitem_range_any_width (h : heap) (v : VerilogBits) (old : list bool)
    (msb lsb : Z) (x : pyval) (val : list bool) :
  h !! _data v = Some old ->
  value_bits h x = Some val ->
  0 <= lsb -> lsb <= msb -> msb <= Z.of_nat (length old) - 1 ->
  let n := Z.of_nat (length old) in
  exists h' : heap,
    __setitem__ v (KSlice (PyInt msb) (PyInt lsb) PyNone) x h = (Ok tt, h')
    /\ h' !! _data v = Some (splice old (n - 1 - msb) (n - lsb) val)
    /\ Z.of_nat (length (splice old (n - 1 - msb) (n - lsb) val))
       = n - (msb - lsb + 1) + Z.of_nat (length val).
Proof.
  intros live Hval Hlo Hle Hhi n.
  destruct (init_plain_ok h x val Hval) as (nv & h1 & Einit & Hframe & Hv).
  pose proof (Hframe _ _ live) as live1.
  exists (<[_data v := splice old (n - 1 - msb) (n - lsb) val]> h1).
  split; [| split].
  - unfold __setitem__. rewrite (bind_Ok _ _ _ _ _ Einit).
    rewrite (bind_Ok _ _ _ _ _ (parse_slice_ok _ _ _ live1 msb lsb Hle Hlo Hhi)).
    fold n. rewrite (setitem_slice_eq _ _ _ _ _ live1 Hv) by (fold n; lia).
    fold n. do 3 f_equal. lia.
  - apply lookup_insert_eq.
  - rewrite splice_length by (fold n; lia). fold n. lia.
Qed.

Lemma setitem_range_any_width_witness :
  exists h' : heap,
    __setitem__ (mkVerilogBits 1) (KSlice (PyInt 3) (PyInt 0) PyNone)
      (PyStr "0xabc") {[1%positive := zeros_8]}
    = (Ok tt, h')
    /\ h' !! 1%positive
       = Some (splice zeros_8 4 8
                 [true; false; true; false; true; false; true; true;
                  true; true; false; false]).
Proof.
  destruct (setitem_range_any_width {[1%positive := zeros_8]} (mkVerilogBits 1)
              zeros_8 3 0 (PyStr "0xabc")
              [true; false; true; false; true; false; true; true;
               true; true; false; false])
    as (h' & E & Hnew & _); [reflexivity | reflexivity | cbn; lia ..|].
  exists h'. split; [exact E | exact Hnew].
Defined.

(** ** Construction from nothing and from a literal *)

(** The decimal text of a positive number has no [=] in it. *)
Lemma split_at_decimal d rest :
  bitstring.split_at "=" (NilEmpty.string_of_uint d +:+ String "=" rest)
  = Some (NilEmpty.string_of_uint d, rest).
Proof.
  induction d; cbn [NilEmpty.string_of_uint]; [reflexivity | ..];
    change (String ?c ?s +:+ ?r) with (String c (s +:+ r));
    cbn [bitstring.split_at]; rewrite IHd; reflexivity.
Qed.

Lemma str_positive k :
  0 < k ->
  exists d, str k = NilEmpty.string_of_uint d
            /\ NilZero.uint_of_string (NilEmpty.string_of_uint d) = Some d
            /\ Z.of_uint d = k.
Proof.
  intros Hk. destruct k as [| p |]; try lia.
  exists (Pos.to_uint p).
  pose proof (Unsigned.to_uint_nonnil p) as Hnil.
  assert (NilZero.string_of_uint (Pos.to_uint p)
          = NilEmpty.string_of_uint (Pos.to_uint p)) as Hs
    by (destruct (Pos.to_uint p); [congruence | reflexivity ..]).
  split; [exact Hs |]. split.
  - rewrite <- Hs. now apply NilZero.usu.
  - exact (DecimalZ.of_to (Z.pos p)).
Qed.

Lemma uint_bits_zero n : bitstring.uint_bits n 0 = replicate n false.
Proof.
  induction n as [| n IH]; [reflexivity |].
  cbn [bitstring.uint_bits replicate]. now rewrite Z.testbit_0_l, IH.
Qed.

(** The token that [__init__] builds to pad with [k] zero bits. *)
Lemma auto_bits_uint_zero k :
  0 < k ->
  bitstring.auto_bits ("uint:" +:+ str k +:+ "=0")
  = Some (replicate (Z.to_nat k) false).
Proof.
  intros Hk. destruct (str_positive k Hk) as (d & -> & Hd & Hz).
  unfold bitstring.auto_bits.
  change (bitstring.literal_bits
            ("uint:" +:+ NilEmpty.string_of_uint d +:+ "=0")) with (@None (list bool)).
  unfold bitstring.uint_token_bits.
  change (bitstring.strip_prefix "uint:"
            ("uint:" +:+ NilEmpty.string_of_uint d +:+ "=0"))
    with (Some (NilEmpty.string_of_uint d +:+ "=0")).
  cbv beta iota. rewrite split_at_decimal. unfold bitstring.decimal at 1. rewrite Hd.
  cbn [fmap option_fmap option_map]. rewrite Hz.
  change (bitstring.decimal "0") with (Some 0).
  assert (0 < 2 ^ k) by (apply Z.pow_pos_nonneg; lia).
  ztests. now rewrite uint_bits_zero.
Qed.

Lemma prepend_eq (h : heap) l bits s bs :
  h !! l = Some bits -> bitstring.auto_bits s = Some bs ->
  bitstring.prepend l s h = (Ok tt, <[l := bs ++ bits]> h).
Proof.
  intros live Hs. unfold bitstring.prepend. rewrite Hs.
  rewrite (bind_Ok _ _ _ _ _ (get_eq _ _ _ live)).
  now rewrite (put_eq _ _ _ _ live).
Qed.

Section Tail.
Variables (h : heap) (l : loc) (bits : list bool).
Hypothesis live : h !! l = Some bits.

(** [data[-k:]] for [0 < k < len(data)]: the last [k] bits. *)
Lemma getitem_slice_tail k :
  0 < k -> k < Z.of_nat (length bits) ->
  bitstring.getitem_slice l (Some (- k)) None h
  = (Ok (fresh (dom h)),
     <[fresh (dom h) := drop (Z.to_nat (Z.of_nat (length bits) - k)) bits]> h).
Proof.
  intros. unfold bitstring.getitem_slice.
  rewrite (bind_Ok _ _ _ _ _ (get_eq _ _ _ live)).
  ztests. rewrite Z.max_l, Z.min_l by lia. ztests.
  rewrite new_eq. do 3 f_equal.
  unfold bitstring._slice.
  replace (- k + Z.of_nat (length bits)) with (Z.of_nat (length bits) - k) by lia.
  apply take_ge. rewrite length_drop. lia.
Qed.

(** [data[-0:]] is [data[0:]]: every bit. *)
Lemma getitem_slice_minus_zero :
  bitstring.getitem_slice l (Some (- 0)) None h
  = (Ok (fresh (dom h)), <[fresh (dom h) := bits]> h).
Proof.
  unfold bitstring.getitem_slice.
  rewrite (bind_Ok _ _ _ _ _ (get_eq _ _ _ live)).
  change (- 0) with 0. change (0 <? 0) with false. cbv iota zeta.
  rewrite Z.max_l, Z.min_l by lia.
  destruct (Z.ltb_spec 0 (Z.of_nat (length bits))).
  - rewrite new_eq. do 3 f_equal. unfold bitstring._slice.
    cbn [Z.to_nat drop]. apply take_ge. lia.
  - rewrite new_eq. do 3 f_equal. destruct bits; [reflexivity | cbn in *; lia].
Qed.
End Tail.

Section Literal.
Variables (h : heap) (value : option string) (bits : list bool).

(** [bits] is the natural reading of [value]. *)
Hypothesis natural :
  match value with
  | None => bits = []
  | Some s => bitstring.auto_bits s = Some bits
  end.

Let n : Z := Z.of_nat (length bits).
Let l1 : loc := fresh (dom h).
Let h1 : heap := <[l1 := bits]> h.

Lemma BitArray_eq : bitstring.BitArray value h = (Ok l1, h1).
Proof.
  unfold bitstring.BitArray, h1. destruct value as [s |].
  - now rewrite natural.
  - now rewrite natural.
Qed.

Lemma h1_l1 : h1 !! l1 = Some bits.
Proof. apply lookup_insert_eq. Qed.

Lemma init_auto_natural :
  init_auto value None h = (Ok (mkVerilogBits l1), h1).
Proof. unfold init_auto. now rewrite (bind_Ok _ _ _ _ _ BitArray_eq). Qed.

Lemma init_auto_exact :
  init_auto value (Some n) h = (Ok (mkVerilogBits l1), h1).
Proof.
  unfold init_auto. rewrite (bind_Ok _ _ _ _ _ BitArray_eq).
  rewrite (bind_Ok _ _ _ _ _ (len_eq _ _ _ h1_l1)). fold n. now ztests.
Qed.

(** A positive target length below the natural width keeps the last
    [length] stored bits, on a second new object. *)
Lemma init_auto_truncate length :
  0 < length -> length < n ->
  init_auto value (Some length) h
  = (Ok (mkVerilogBits (fresh (dom h1))),
     <[fresh (dom h1) := drop (Z.to_nat (n - length)) bits]> h1).
Proof.
  intros. unfold init_auto. rewrite (bind_Ok _ _ _ _ _ BitArray_eq).
  rewrite (bind_Ok _ _ _ _ _ (len_eq _ _ _ h1_l1)). fold n. ztests.
  rewrite (bind_Ok _ _ _ _ _ (getitem_slice_tail _ _ _ h1_l1 length ltac:(lia) ltac:(lia))).
  reflexivity.
Qed.

(** The target length 0 below the natural width: the slice [[-0:]] is
    the whole vector. *)
Lemma init_auto_zero :
  0 < n ->
  init_auto value (Some 0) h
  = (Ok (mkVerilogBits (fresh (dom h1))), <[fresh (dom h1) := bits]> h1).
Proof.
  intros. unfold init_auto. rewrite (bind_Ok _ _ _ _ _ BitArray_eq).
  rewrite (bind_Ok _ _ _ _ _ (len_eq _ _ _ h1_l1)). fold n. ztests.
  rewrite (bind_Ok _ _ _ _ _ (getitem_slice_minus_zero _ _ _ h1_l1)).
  reflexivity.
Qed.

(** A target length above the natural width pads on the left, in place. *)
Lemma init_auto_extend length :
  n < length ->
  init_auto value (Some length) h
  = (Ok (mkVerilogBits l1),
     <[l1 := replicate (Z.to_nat (length - n)) false ++ bits]> h).
Proof.
  intros. unfold init_auto. rewrite (bind_Ok _ _ _ _ _ BitArray_eq).
  rewrite (bind_Ok _ _ _ _ _ (len_eq _ _ _ h1_l1)). fold n. ztests.
  rewrite (bind_Ok _ _ _ _ _
             (prepend_eq _ _ _ _ _ h1_l1
                (auto_bits_uint_zero (length - n) ltac:(lia)))).
  rewrite mret_eq. f_equal. unfold h1. apply insert_insert_eq.
Qed.

End Literal.

Lemma bin_eq (h : heap) r bits :
  h !! _data r = Some bits -> bin r h = (Ok (bitstring.bin_string bits), h).
Proof.
  intros live. unfold bin, bitstring.bin.
  now rewrite (bind_Ok _ _ _ _ _ (get_eq _ _ _ live)).
Qed.

Lemma bin_string_length bits :
  String.length (bitstring.bin_string bits) = length bits.
Proof. induction bits as [| b bits IH]; cbn; congruence. Qed.

Lemma bin_string_zeros n :
  bitstring.bin_string (replicate n false)
  = string_of_list_ascii (repeat "0"%char n).
Proof. induction n as [| n IH]; cbn; congruence. Qed.

Lemma digits_bits_width digit w s bits :
  (forall c b, digit c = Some b -> length b = w) ->
  bitstring.digits_bits digit s = Some bits ->
  length bits = (w * String.length s)%nat.
Proof.
  intros Hw. revert bits. induction s as [| c s IH]; intros bits.
  - cbn. intros [= <-]. cbn. lia.
  - cbn [bitstring.digits_bits String.length].
    destruct (digit c) as [b |] eqn:Hc; [| discriminate].
    destruct (bitstring.digits_bits digit s) as [bs |]; [| discriminate].
    intros [= <-]. rewrite length_app, (Hw _ _ Hc), (IH bs eq_refl). lia.
Qed.

(** The natural width of a literal: one bit for each binary digit, four
    for each hexadecimal digit, three for each octal digit, and at least
    one digit. *)
Lemma literal_natural_width s bits :
  bitstring.literal_bits s = Some bits ->
  exists p digits,
    s = String "0" (String p digits)
    /\ (1 <= String.length digits)%nat
    /\ length bits
       = ((if Ascii.eqb p "b" || Ascii.eqb p "B" then 1
           else if Ascii.eqb p "x" || Ascii.eqb p "X" then 4 else 3)
          * String.length digits)%nat.
Proof.
  unfold bitstring.literal_bits.
  destruct s as [| c0 [| p [| c digits]]]; try discriminate;
    try (destruct c0 as [[] [] [] [] [] [] [] []]; discriminate).
  destruct (Ascii.eqb_spec c0 "0") as [-> | Hne];
    [| destruct c0 as [[] [] [] [] [] [] [] []]; congruence].
  intros E. exists p, (String c digits).
  split; [reflexivity |]. split; [cbn; lia |].
  destruct (Ascii.eqb p "b" || Ascii.eqb p "B").
  { apply (digits_bits_width _ 1%nat) in E; [exact E |].
    intros a b. unfold bitstring.bin_digit.
    repeat (destruct (Ascii.eqb _ _)); now intros [= <-]. }
  destruct (Ascii.eqb p "x" || Ascii.eqb p "X").
  { apply (digits_bits_width _ 4%nat) in E; [exact E |].
    intros a b. unfold bitstring.hex_digit.
    destruct (bitstring.hex_digit_value a); now intros [= <-]. }
  destruct (Ascii.eqb p "o" || Ascii.eqb p "O"); [| discriminate].
  apply (digits_bits_width _ 3%nat) in E; [exact E |].
  intros a b. unfold bitstring.oct_digit.
  destruct (_ && _); now intros [= <-].
Qed.

(** C5. Construction from a radix-prefixed literal [s] whose natural
    reading is [bits], of width [n >= 1]: without a length the vector is
    [bits]; with a length above [n] zero bits are put in front up to that
    length; with a length from 1 to [n] the low-order (last) bits are
    kept; and [.bin] then has as many characters as the length asked for.
    With the length 0, however, the constructor keeps all [n] bits: the
    slice [[-0:]] that should keep the low-order 0 bits is the whole
    vector. *)
Theorem init_literal_reconcile (h : heap) (s : string) (bits : list bool) :
  bitstring.literal_bits s = Some bits ->
  let n := Z.of_nat (length bits) in
  1 <= n
  /\ (exists r h',
        __init__ (PyStr s) None false h = (Ok r, h')
        /\ h' !! _data r = Some bits
        /\ bin r h' = (Ok (bitstring.bin_string bits), h'))
  /\ (forall L, n < L ->
      exists r h',
        __init__ (PyStr s) (Some L) false h = (Ok r, h')
        /\ h' !! _data r = Some (replicate (Z.to_nat (L - n)) false ++ bits)
        /\ Z.of_nat (length (replicate (Z.to_nat (L - n)) false ++ bits)) = L)
  /\ (forall L, 1 <= L <= n ->
      exists r h',
        __init__ (PyStr s) (Some L) false h = (Ok r, h')
        /\ h' !! _data r = Some (drop (Z.to_nat (n - L)) bits)
        /\ Z.of_nat (length (drop (Z.to_nat (n - L)) bits)) = L)
  /\ (exists r h',
        __init__ (PyStr s) (Some 0) false h = (Ok r, h')
        /\ h' !! _data r = Some bits
        /\ bin r h' = (Ok (bitstring.bin_string bits), h')
        /\ String.length (bitstring.bin_string bits) <> 0%nat).
Proof.
  intros Hlit n.
  assert (bitstring.auto_bits s = Some bits) as Hauto
    by (unfold bitstring.auto_bits; now rewrite Hlit).
  assert (1 <= n) as Hn.
  { destruct (literal_natural_width _ _ Hlit) as (p & digits & _ & Hd & Hw).
    unfold n. rewrite Hw.
    destruct (Ascii.eqb p "b" || Ascii.eqb p "B"); [lia |].
    destruct (Ascii.eqb p "x" || Ascii.eqb p "X"); lia. }
  split; [exact Hn |]. unfold __init__. repeat split.
  - eexists _, _. rewrite (init_auto_natural h (Some s) bits Hauto).
    split; [reflexivity |].
    assert (<[fresh (dom h) := bits]> h !! _data (mkVerilogBits (fresh (dom h)))
            = Some bits) as Hl by apply lookup_insert_eq.
    split; [exact Hl | now apply bin_eq].
  - intros L HL. eexists _, _.
    rewrite (init_auto_extend h (Some s) bits Hauto L HL).
    split; [reflexivity |]. split; [apply lookup_insert_eq |].
    rewrite length_app, length_replicate. fold n. lia.
  - intros L HL. destruct (Z.eq_dec L n) as [-> | Hne].
    + unfold n. eexists _, _. rewrite (init_auto_exact h (Some s) bits Hauto).
      split; [reflexivity |]. rewrite Z.sub_diag. cbn [Z.to_nat drop].
      split; [apply lookup_insert_eq | reflexivity].
    + eexists _, _.
      rewrite (init_auto_truncate h (Some s) bits Hauto L) by (fold n; lia).
      split; [reflexivity |]. split; [apply lookup_insert_eq |].
      rewrite length_drop. fold n. lia.
  - eexists _, _. rewrite (init_auto_zero h (Some s) bits Hauto) by (fold n; lia).
    split; [reflexivity |].
    match goal with
    | |- ?h' !! ?l = _ /\ _ =>
        assert (h' !! l = Some bits) as Hl by apply lookup_insert_eq
    end.
    split; [exact Hl |]. split; [now apply bin_eq |].
    rewrite bin_string_length. unfold n in Hn. lia.
Qed.

Lemma init_literal_reconcile_witness :
  (exists r h',
     __init__ (PyStr "0b11110000") (Some 4) false ∅ = (Ok r, h')
     /\ h' !! _data r = Some [false; false; false; false])
  /\ (exists r h',
        __init__ (PyStr "0b1") (Some 0) false ∅ = (Ok r, h')
        /\ h' !! _data r = Some [true]).
Proof.
  destruct (init_literal_reconcile ∅ "0b11110000"
              [true; true; true; true; false; false; false; false] eq_refl)
    as (_ & _ & _ & Htrunc & _).
  destruct (init_literal_reconcile ∅ "0b1" [true] eq_refl)
    as (_ & _ & _ & _ & Hzero).
  split.
  - destruct (Htrunc 4) as (r & h' & E & Hl & _); [cbn; lia |].
    exists r, h'. split; [exact E | exact Hl].
  - destruct Hzero as (r & h' & E & Hl & _).
    exists r, h'. split; [exact E | exact Hl].
Defined.

(** C10. Construction without a value: with a target length [L >= 0]
    the result is a new vector of [L] zero bits, whose [.bin] is [L]
    characters [0] and whose length is [L]; without a length it is the
    vector of no bits. The [signed] flag plays no part. *)
Theorem init_default (h : heap) (L : Z) (signed : bool) :
  0 <= L ->
  (exists r h',
     __init__ PyNone (Some L) signed h = (Ok r, h')
     /\ h !! _data r = None
     /\ h' !! _data r = Some (replicate (Z.to_nat L) false)
     /\ bin r h' = (Ok (string_of_list_ascii (repeat "0"%char (Z.to_nat L))), h')
     /\ __len__ r h' = (Ok L, h'))
  /\ (exists r h',
        __init__ PyNone None signed h = (Ok r, h')
        /\ h !! _data r = None
        /\ h' !! _data r = Some []).
Proof.
  intros HL. unfold __init__. split.
  - assert (exists r h',
              init_auto None (Some L) h = (Ok r, h')
              /\ h !! _data r = None
              /\ h' !! _data r = Some (replicate (Z.to_nat L) false))
      as (r & h' & E & Hnew & Hl).
    { destruct (Z.eq_dec L 0) as [-> | Hne].
      - eexists _, _.
        change 0 with (Z.of_nat (@length bool [])) at 1.
        rewrite (init_auto_exact h None [] eq_refl).
        split; [reflexivity |]. split; [apply fresh_None | apply lookup_insert_eq].
      - eexists _, _.
        rewrite (init_auto_extend h None [] eq_refl L) by (cbn; lia).
        split; [reflexivity |]. split; [apply fresh_None |].
        cbn [length Z.of_nat]. rewrite Z.sub_0_r, app_nil_r.
        apply lookup_insert_eq. }
    exists r, h'. split; [exact E |]. split; [exact Hnew |]. split; [exact Hl |].
    split.
    + rewrite (bin_eq _ _ _ Hl). now rewrite bin_string_zeros.
    + unfold __len__. rewrite (len_eq _ _ _ Hl), length_replicate.
      do 2 f_equal. lia.
  - eexists _, _. rewrite (init_auto_natural h None [] eq_refl).
    split; [reflexivity |]. split; [apply fresh_None | apply lookup_insert_eq].
Qed.

Lemma init_default_witness :
  exists r h',
    __init__ PyNone (Some 8) false ∅ = (Ok r, h')
    /\ bin r h' = (Ok "00000000"%string, h').
Proof.
  destruct (init_default ∅ 8 false) as [(r & h' & E & _ & _ & Hb & _) _]; [lia |].
  exists r, h'. split; [exact E | exact Hb].
Defined.

(** ** Integers in and out *)

Lemma uint_bits_length n v : length (bitstring.uint_bits n v) = n.
Proof. induction n as [| n IH]; cbn; congruence. Qed.

Lemma fold_uint_acc bits acc :
  fold_left (fun a b => 2 * a + Z.b2z b) bits acc
  = acc * 2 ^ Z.of_nat (length bits) + bitstring.bits_uint bits.
Proof.
  unfold bitstring.bits_uint. revert acc.
  induction bits as [| b bits IH]; intros acc.
  - cbn. lia.
  - cbn [fold_left length]. rewrite IH, (IH (2 * 0 + Z.b2z b)).
    rewrite Nat2Z.inj_succ, Z.pow_succ_r by lia. lia.
Qed.

Lemma bits_uint_cons b bits :
  bitstring.bits_uint (b :: bits)
  = Z.b2z b * 2 ^ Z.of_nat (length bits) + bitstring.bits_uint bits.
Proof.
  unfold bitstring.bits_uint at 1. cbn [fold_left]. rewrite fold_uint_acc. lia.
Qed.

Lemma bits_uint_uint_bits n v :
  bitstring.bits_uint (bitstring.uint_bits n v) = v mod 2 ^ Z.of_nat n.
Proof.
  induction n as [| n IH].
  - cbn. now rewrite Z.mod_1_r.
  - cbn [bitstring.uint_bits]. rewrite bits_uint_cons, uint_bits_length, IH.
    rewrite Nat2Z.inj_succ, Z.pow_succ_r by lia.
    rewrite (Z.mul_comm 2), Z.rem_mul_r by lia.
    rewrite Z.testbit_spec' by lia. lia.
Qed.

Lemma bits_uint_negb bits :
  bitstring.bits_uint (map negb bits)
  = 2 ^ Z.of_nat (length bits) - 1 - bitstring.bits_uint bits.
Proof.
  induction bits as [| b bits IH].
  - reflexivity.
  - cbn [map]. rewrite !bits_uint_cons, length_map, IH.
    cbn [length]. rewrite Nat2Z.inj_succ, Z.pow_succ_r by lia.
    destruct b; cbn [negb Z.b2z]; lia.
Qed.

(** The stored bits of a negative value are its two's-complement digits. *)
Lemma uint_bits_complement n v :
  map negb (bitstring.uint_bits n (- (v + 1))) = bitstring.uint_bits n v.
Proof.
  induction n as [| n IH]; [reflexivity |].
  cbn [bitstring.uint_bits map]. rewrite IH. f_equal.
  replace (- (v + 1)) with (Z.lnot v) by (rewrite Z.lnot_eq_pred_opp; lia).
  rewrite Z.lnot_spec by lia. apply negb_involutive.
Qed.

Section RoundTrip.
Variables (h : heap) (L v : Z).
Hypothesis HL : 1 <= L.

Let l1 : loc := fresh (dom h).
Let h1 : heap := <[l1 := bitstring.uint_bits (Z.to_nat L) v]> h.

Lemma h1_lookup : h1 !! l1 = Some (bitstring.uint_bits (Z.to_nat L) v).
Proof. apply lookup_insert_eq. Qed.

Lemma BitArray_uint_ok :
  0 <= v <= 2 ^ L - 1 ->
  bitstring.BitArray_uint v (Some L) h = (Ok l1, h1).
Proof. intros. unfold bitstring.BitArray_uint. now ztests. Qed.

Lemma BitArray_uint_refused :
  ~ (0 <= v <= 2 ^ L - 1) ->
  bitstring.BitArray_uint v (Some L) h = (Raise CreationError, h).
Proof. intros. unfold bitstring.BitArray_uint. ztests; reflexivity. Qed.

Lemma BitArray_int_ok :
  - 2 ^ (L - 1) <= v <= 2 ^ (L - 1) - 1 ->
  bitstring.BitArray_int v (Some L) h = (Ok l1, h1).
Proof.
  intros. unfold bitstring.BitArray_int. ztests; [reflexivity |].
  unfold h1. now rewrite uint_bits_complement.
Qed.

Lemma BitArray_int_refused :
  ~ (- 2 ^ (L - 1) <= v <= 2 ^ (L - 1) - 1) ->
  bitstring.BitArray_int v (Some L) h = (Raise CreationError, h).
Proof. intros. unfold bitstring.BitArray_int. ztests; reflexivity. Qed.

Lemma stored_length :
  Z.of_nat (length (bitstring.uint_bits (Z.to_nat L) v)) = L.
Proof. rewrite uint_bits_length. lia. Qed.

Lemma uint_read :
  0 <= v <= 2 ^ L - 1 -> bitstring.uint l1 h1 = (Ok v, h1).
Proof.
  intros. unfold bitstring.uint.
  rewrite (bind_Ok _ _ _ _ _ (get_eq _ _ _ h1_lookup)), stored_length.
  ztests. rewrite bits_uint_uint_bits, Z2Nat.id, Z.mod_small by lia.
  reflexivity.
Qed.

Lemma int_read :
  - 2 ^ (L - 1) <= v <= 2 ^ (L - 1) - 1 -> bitstring.int l1 h1 = (Ok v, h1).
Proof.
  intros Hv. unfold bitstring.int.
  rewrite (bind_Ok _ _ _ _ _ (get_eq _ _ _ h1_lookup)), stored_length.
  rewrite bits_uint_uint_bits, Z2Nat.id by lia.
  assert (2 ^ L = 2 * 2 ^ (L - 1)) as Hpow
    by (rewrite <- Z.pow_succ_r by lia; f_equal; lia).
  assert (0 < 2 ^ (L - 1)) as Hpos by (apply Z.pow_pos_nonneg; lia).
  rewrite Z.shiftr_div_pow2 by lia.
  destruct (Z_lt_dec v 0) as [Hneg | Hnn].
  - assert (v mod 2 ^ L = v + 2 ^ L) as Hmod.
    { symmetry. apply (Z.mod_unique _ _ (-1)); lia. }
    rewrite Hmod.
    assert ((v + 2 ^ L) / 2 ^ (L - 1) = 1) as Hdiv.
    { symmetry. apply (Z.div_unique _ _ _ (v + 2 ^ (L - 1))); lia. }
    rewrite Hdiv. ztests.
    rewrite Z.lnot_pred.
    replace (2 ^ L - 1) with (Z.ones L) by (rewrite Z.ones_equiv; lia).
    rewrite Z.land_ones by lia.
    replace (- (v + 2 ^ L)) with (- v + (-1) * 2 ^ L) by lia.
    rewrite Z.mod_add, Z.mod_small by lia.
    now rewrite Z.opp_involutive.
  - rewrite Z.mod_small by lia.
    rewrite Z.div_small by lia. now ztests.
Qed.

End RoundTrip.

(** C6. Integer round trip. For [L >= 1]: the unsigned construction of
    [v] on [L] bits returns exactly when [0 <= v <= 2^L - 1], and then
    [.uint] is [v]; the signed one returns exactly when
    [-2^(L-1) <= v <= 2^(L-1) - 1], and then [.sint] is [v]; in both the
    vector has [L] bits, the two's-complement digits of [v]; outside the
    range the constructor raises [CreationError]. *)
Theorem int_round_trip (h : heap) (L v : Z) :
  1 <= L ->
  ((0 <= v <= 2 ^ L - 1 ->
    exists r h',
      __init__ (PyInt v) (Some L) false h = (Ok r, h')
      /\ h' !! _data r = Some (bitstring.uint_bits (Z.to_nat L) v)
      /\ __len__ r h' = (Ok L, h')
      /\ uint r h' = (Ok v, h'))
   /\ (~ (0 <= v <= 2 ^ L - 1) ->
       __init__ (PyInt v) (Some L) false h = (Raise CreationError, h)))
  /\ ((- 2 ^ (L - 1) <= v <= 2 ^ (L - 1) - 1 ->
       exists r h',
         __init__ (PyInt v) (Some L) true h = (Ok r, h')
         /\ h' !! _data r = Some (bitstring.uint_bits (Z.to_nat L) v)
         /\ __len__ r h' = (Ok L, h')
         /\ sint r h' = (Ok v, h'))
      /\ (~ (- 2 ^ (L - 1) <= v <= 2 ^ (L - 1) - 1) ->
          __init__ (PyInt v) (Some L) true h = (Raise CreationError, h))).
Proof.
  intros HL. unfold __init__. repeat split.
  - intros Hv. eexists _, _.
    rewrite (bind_Ok _ _ _ _ _ (BitArray_uint_ok h L v HL Hv)).
    split; [reflexivity |]. split; [apply h1_lookup |]. split.
    + unfold __len__. cbn [_data]. rewrite (len_eq _ _ _ (h1_lookup h L v)).
      now rewrite stored_length.
    + now apply uint_read.
  - intros Hv. now rewrite (bind_Raise _ _ _ _ _ (BitArray_uint_refused h L v HL Hv)).
  - intros Hv. eexists _, _.
    rewrite (bind_Ok _ _ _ _ _ (BitArray_int_ok h L v HL Hv)).
    split; [reflexivity |]. split; [apply h1_lookup |]. split.
    + unfold __len__. cbn [_data]. rewrite (len_eq _ _ _ (h1_lookup h L v)).
      now rewrite stored_length.
    + now apply int_read.
  - intros Hv. now rewrite (bind_Raise _ _ _ _ _ (BitArray_int_refused h L v HL Hv)).
Qed.

Lemma int_round_trip_witness :
  (exists r h',
     __init__ (PyInt 170) (Some 8) false ∅ = (Ok r, h')
     /\ uint r h' = (Ok 170, h'))
  /\ (exists r h',
        __init__ (PyInt (-3)) (Some 4) true ∅ = (Ok r, h')
        /\ sint r h' = (Ok (-3), h'))
  /\ __init__ (PyInt 256) (Some 8) false ∅ = (Raise CreationError, ∅).
Proof.
  destruct (int_round_trip ∅ 8 170) as [[Hu _] _]; [lia |].
  destruct (int_round_trip ∅ 4 (-3)) as [_ [Hs _]]; [lia |].
  destruct (int_round_trip ∅ 8 256) as [[_ Hr] _]; [lia |].
  split; [| split].
  - destruct Hu as (r & h' & E & _ & _ & Hread); [cbn; lia |].
    exists r, h'. split; [exact E | exact Hread].
  - destruct Hs as (r & h' & E & _ & _ & Hread); [cbn; lia |].
    exists r, h'. split; [exact E | exact Hread].
  - apply Hr. cbn. lia.
Defined.

(** ** Concatenation *)

Lemma iadd_eq (h : heap) l acc w bs :
  h !! l = Some acc -> h !! w = Some bs ->
  bitstring.iadd l w h = (Ok tt, <[l := acc ++ bs]> h).
Proof.
  intros Hl Hw. unfold bitstring.iadd.
  rewrite (bind_Ok _ _ _ _ _ (get_eq _ _ _ Hl)).
  rewrite (bind_Ok _ _ _ _ _ (get_eq _ _ _ Hw)).
  now rewrite (put_eq _ _ _ _ Hl).
Qed.

Lemma hold_insert_other (h : heap) l acc vs bss :
  h !! l = None -> hold h vs bss -> hold (<[l := acc]> h) vs bss.
Proof.
  intros Hl. unfold hold. induction 1 as [| v bs vs bss Hv _ IH]; constructor.
  - rewrite lookup_insert_ne; [exact Hv |]. intros ->. congruence.
  - exact IH.
Qed.

(** The loop on arguments that are all vectors, none of them stored in
    the accumulator [l]. *)
Lemma concat_loop_ok l vs : forall (h : heap) bss acc i,
  h !! l = Some acc ->
  Forall (fun v => _data v <> l) vs ->
  hold h vs bss ->
  concat_loop l i (map PyVerilogBits vs) h
  = (Ok tt, <[l := acc ++ List.concat bss]> h).
Proof.
  induction vs as [| v vs IH]; intros h bss acc i Hl Hne Hh.
  - inversion Hh; subst. cbn. rewrite app_nil_r.
    rewrite mret_eq. f_equal. symmetry. now apply insert_id.
  - inversion Hh as [| ? bs ? bss' Hv Hrest]; subst.
    inversion Hne as [| ? ? Hv_ne Hne']; subst.
    cbn [map concat_loop].
    rewrite (bind_Ok _ _ _ _ _ (iadd_eq _ _ _ _ _ Hl Hv)).
    rewrite (IH _ bss' (acc ++ bs) (i + 1)).
    + rewrite insert_insert_eq. cbn [List.concat]. now rewrite app_assoc.
    + apply lookup_insert_eq.
    + exact Hne'.
    + clear - Hrest Hne'. revert bss' Hrest.
      induction Hne' as [| w ws Hw _ IHw]; intros bss' Hrest;
        inversion Hrest; subst; constructor.
      * now rewrite lookup_insert_ne by congruence.
      * now apply IHw.
Qed.

(** The loop stops at the first argument that is not a vector. *)
Lemma concat_loop_bad l vs bad post : forall (h : heap) bss acc i,
  h !! l = Some acc ->
  Forall (fun v => _data v <> l) vs ->
  hold h vs bss ->
  (forall w, bad <> PyVerilogBits w) ->
  concat_loop l i (map PyVerilogBits vs ++ bad :: post) h
  = (Raise (TypeError ("Argument " +:+ str (i + Z.of_nat (length vs))
               +:+ " is not a VerilogBits instance, but " +:+ type_name bad)),
     <[l := acc ++ List.concat bss]> h).
Proof.
  induction vs as [| v vs IH]; intros h bss acc i Hl Hne Hh Hbad.
  - inversion Hh; subst. cbn [map app concat_loop length List.concat].
    rewrite app_nil_r, Z.add_0_r, (insert_id _ _ _ Hl).
    destruct bad; try reflexivity. now destruct (Hbad v).
  - inversion Hh as [| ? bs ? bss' Hv Hrest]; subst.
    inversion Hne as [| ? ? Hv_ne Hne']; subst.
    cbn [map app concat_loop].
    rewrite (bind_Ok _ _ _ _ _ (iadd_eq _ _ _ _ _ Hl Hv)).
    rewrite (IH _ bss' (acc ++ bs) (i + 1)).
    + rewrite insert_insert_eq. cbn [List.concat length].
      rewrite app_assoc.
      now replace (i + Z.of_nat (S (length vs))) with (i + 1 + Z.of_nat (length vs)) by lia.
    + apply lookup_insert_eq.
    + exact Hne'.
    + clear - Hrest Hne'. revert bss' Hrest.
      induction Hne' as [| w ws Hw _ IHw]; intros bss' Hrest;
        inversion Hrest; subst; constructor.
      * now rewrite lookup_insert_ne by congruence.
      * now apply IHw.
    + exact Hbad.
Qed.

Lemma hold_not_fresh (h : heap) vs bss :
  hold h vs bss -> Forall (fun v => _data v <> fresh (dom h)) vs.
Proof.
  induction 1 as [| v bs vs bss Hv _ IH]; constructor; [| exact IH].
  intros E. rewrite E, fresh_None in Hv. discriminate.
Qed.

Lemma bin_string_app a b :
  bitstring.bin_string (a ++ b)
  = (bitstring.bin_string a +:+ bitstring.bin_string b)%string.
Proof.
  induction a as [| x a IH]; [reflexivity |].
  cbn [app bitstring.bin_string]. now rewrite IH.
Qed.

(** C7. Concatenation. For arguments [vs] that are all vectors, [concat]
    returns a vector on a new object whose stored bits are those of the
    arguments laid end to end, the first argument leftmost (highest
    order), so that its length is the sum of theirs; the arguments are
    left as they were. If the arguments [vs] are followed by an argument
    of another type, [concat] raises [TypeError] naming its index and its
    type: nothing is coerced. *)
Theorem concat_contract (h : heap) (vs : list VerilogBits) (bss : list (list bool)) :
  hold h vs bss ->
  (exists r,
     concat (map PyVerilogBits vs) h = (Ok r, <[_data r := List.concat bss]> h)
     /\ h !! _data r = None
     /\ length (List.concat bss) = list_sum (map (@length bool) bss)
     /\ bin r (<[_data r := List.concat bss]> h)
        = (Ok (bitstring.bin_string (List.concat bss)),
           <[_data r := List.concat bss]> h))
  /\ (forall bad post,
        (forall w, bad <> PyVerilogBits w) ->
        concat (map PyVerilogBits vs ++ bad :: post) h
        = (Raise (TypeError ("Argument " +:+ str (Z.of_nat (length vs))
                     +:+ " is not a VerilogBits instance, but " +:+ type_name bad)),
           <[fresh (dom h) := List.concat bss]> h)).
Proof.
  intros Hh.
  pose proof (hold_not_fresh _ _ _ Hh) as Hne.
  pose proof (hold_insert_other h (fresh (dom h)) [] vs bss (fresh_None h) Hh) as Hh1.
  split.
  - exists (mkVerilogBits (fresh (dom h))). cbn [_data].
    split; [| split; [apply fresh_None | split; [apply length_concat |]]].
    + unfold concat. cbn [bitstring.BitArray]. rewrite (bind_Ok _ _ _ _ _ (new_eq _ _)).
      rewrite (bind_Ok _ _ _ _ _
                 (concat_loop_ok _ vs _ bss [] 0 (lookup_insert_eq _ _ _) Hne Hh1)).
      rewrite insert_insert_eq. reflexivity.
    + apply bin_eq. apply lookup_insert_eq.
  - intros bad post Hbad. unfold concat. cbn [bitstring.BitArray].
    rewrite (bind_Ok _ _ _ _ _ (new_eq _ _)).
    rewrite (bind_Raise _ _ _ _ _
               (concat_loop_bad _ vs bad post _ bss [] 0
                  (lookup_insert_eq _ _ _) Hne Hh1 Hbad)).
    rewrite insert_insert_eq. reflexivity.
Qed.

Lemma concat_contract_witness :
  (exists r,
     concat [PyVerilogBits (mkVerilogBits 1); PyVerilogBits (mkVerilogBits 2);
             PyVerilogBits (mkVerilogBits 1)]
       (<[2%positive := [false; false]]> {[1%positive := [true; true; false]]})
     = (Ok r,
        <[_data r := [true; true; false; false; false; true; true; false]]>
          (<[2%positive := [false; false]]> {[1%positive := [true; true; false]]})))
  /\ exists h' : heap,
       concat [PyVerilogBits (mkVerilogBits 1); PyInt 5]
         (<[2%positive := [false; false]]> {[1%positive := [true; true; false]]})
       = (Raise (TypeError "Argument 1 is not a VerilogBits instance, but int"), h').
Proof.
  split.
  - destruct (concat_contract
                (<[2%positive := [false; false]]> {[1%positive := [true; true; false]]})
                [mkVerilogBits 1; mkVerilogBits 2; mkVerilogBits 1]
                [[true; true; false]; [false; false]; [true; true; false]])
      as [(r & E & _) _].
    + repeat constructor.
    + exists r. exact E.
  - destruct (concat_contract
                (<[2%positive := [false; false]]> {[1%positive := [true; true; false]]})
                [mkVerilogBits 1] [[true; true; false]])
      as [_ Hbad].
    + repeat constructor.
    + eexists. apply (Hbad (PyInt 5) []). discriminate.
Defined.

(** ** The disabled operators *)

(** C8. Every ordering comparison, [+], [-], [*], [/], [&], [|], [^],
    [~] and [int()] applied to a vector raises [TypeError] with the
    message of its group, whatever the vector and the other operand are
    (the store is not even read) and leaves the store as it was; so do
    the reflected methods that the class defines for a vector on the
    right-hand side. *)
Theorem disabled_operators (h : heap) (op : operator) (self : VerilogBits)
    (other : pyval) :
  (exists msg, apply_operator op self other h = (Raise (TypeError msg), h))
  /\ (forall m, apply_reflected op self other = Some m ->
        exists msg, m h = (Raise (TypeError msg), h)).
Proof.
  split.
  - destruct op; eexists; reflexivity.
  - intros m. destruct op; cbn; intros [= <-]; eexists; reflexivity.
Qed.

(** ** The memory-file writer *)

Lemma bits_uint_app_list a b :
  bitstring.bits_uint (a ++ b)
  = bitstring.bits_uint a * 2 ^ Z.of_nat (length b) + bitstring.bits_uint b.
Proof.
  unfold bitstring.bits_uint at 1. rewrite fold_left_app. apply fold_uint_acc.
Qed.

Lemma hex_padded_high k : forall m a r,
  (k <= m)%nat ->
  hex_padded k (a * 16 ^ Z.of_nat m + r) = hex_padded k r.
Proof.
  induction k as [| k IH]; intros m a r Hm; [reflexivity |].
  cbn [hex_padded]. rewrite (IH m) by lia. f_equal. f_equal.
  replace (Z.of_nat m) with (Z.of_nat (m - S k) + 1 + Z.of_nat k) by lia.
  rewrite !Z.pow_add_r by lia. change (16 ^ 1) with 16.
  replace (a * (16 ^ Z.of_nat (m - S k) * 16 * 16 ^ Z.of_nat k) + r)
    with (r + (a * 16 ^ Z.of_nat (m - S k) * 16) * 16 ^ Z.of_nat k) by lia.
  rewrite Z.div_add by (apply Z.pow_nonzero; lia).
  now rewrite Z.mod_add by lia.
Qed.

(** On a whole number of nibbles the library's text is the
    specification's. *)
Lemma hex_string_padded k : forall bits,
  length bits = (4 * k)%nat ->
  bitstring.hex_string bits = hex_padded k (bitstring.bits_uint bits).
Proof.
  induction k as [| k IH]; intros bits Hlen.
  - destruct bits; [reflexivity | discriminate].
  - destruct bits as [| b3 [| b2 [| b1 [| b0 rest]]]]; cbn in Hlen; try lia.
    cbn [bitstring.hex_string hex_padded].
    assert (length rest = (4 * k)%nat) as Hrest by lia.
    pose proof (bits_uint_range rest) as Hr.
    pose proof (bits_uint_range [b3; b2; b1; b0]) as Hn. cbn [length] in Hn.
    change (2 ^ Z.of_nat 4) with 16 in Hn.
    assert (2 ^ Z.of_nat (length rest) = 16 ^ Z.of_nat k) as Hpow.
    { rewrite Hrest. replace (Z.of_nat (4 * k)) with (4 * Z.of_nat k) by lia.
      now rewrite Z.pow_mul_r by lia. }
    change (b3 :: b2 :: b1 :: b0 :: rest) with ([b3; b2; b1; b0] ++ rest).
    rewrite bits_uint_app_list, Hpow. rewrite Hpow in Hr.
    rewrite (hex_padded_high k k) by lia. rewrite <- (IH rest Hrest).
    f_equal. f_equal.
    rewrite Z.add_comm, Z.div_add by lia.
    rewrite Z.div_small by lia. now rewrite Z.mod_small by lia.
Qed.

Lemma hex_width_exact n :
  Z.of_nat n mod 4 = 0 -> n = (4 * hex_width n)%nat.
Proof.
  intros Hm. unfold hex_width.
  pose proof (Z.div_mod (Z.of_nat n) 4 ltac:(lia)) as Hd. rewrite Hm in Hd.
  set (q := Z.of_nat n / 4) in Hd.
  replace ((Z.of_nat n + 3) / 4) with q; [lia |].
  apply (Z.div_unique _ _ _ 3); lia.
Qed.

Lemma hex_padded_length k v : String.length (hex_padded k v) = k.
Proof. induction k as [| k IH]; cbn; congruence. Qed.

Lemma hex_char_not_x d : bitstring.hex_char d <> "x"%char.
Proof.
  unfold bitstring.hex_char.
  destruct (nth_in_or_default (Z.to_nat d)
              (list_ascii_of_string "0123456789abcdef") "0"%char) as [Hin | ->];
    [| discriminate].
  intros E. rewrite E in Hin. cbn in Hin.
  repeat (destruct Hin as [Hin | Hin]; [discriminate |]). exact Hin.
Qed.

Lemma hex_padded_no_prefix k v : String.prefix "0x" (hex_padded k v) = false.
Proof.
  destruct k as [| [| k]]; cbn [hex_padded String.prefix]; [reflexivity | |].
  - match goal with |- context [ascii_dec ?a ?b] => now destruct (ascii_dec a b) end.
  - match goal with
    | |- context [ascii_dec "0"%char ?b] =>
        destruct (ascii_dec "0"%char b); [| reflexivity]
    end.
    match goal with
    | |- context [ascii_dec "x"%char ?b] =>
        destruct (ascii_dec "x"%char b) as [E | _]; [| reflexivity]
    end.
    symmetry in E. now apply hex_char_not_x in E.
Qed.

Lemma hex_eq (h : heap) l bits :
  h !! l = Some bits ->
  bitstring.hex l h
  = if Z.of_nat (length bits) mod 4 =? 0
    then (Ok (hex_padded (hex_width (length bits)) (bitstring.bits_uint bits)), h)
    else (Raise InterpretError, h).
Proof.
  intros live. unfold bitstring.hex.
  rewrite (bind_Ok _ _ _ _ _ (get_eq _ _ _ live)).
  destruct (Z.eqb_spec (Z.of_nat (length bits) mod 4) 0) as [Hm | Hm]; [| reflexivity].
  rewrite mret_eq. do 2 f_equal.
  apply hex_string_padded. now apply hex_width_exact.
Qed.

Lemma write_words_eq is_hex words_per_line :
  words_per_line <> 0 ->
  forall data bitss i (h : heap),
    hold h data bitss ->
    mem_tools.write_words is_hex words_per_line i data h
    = if negb is_hex || forallb hex_writable bitss
      then (Ok (rendered is_hex words_per_line i bitss), h)
      else (Raise InterpretError, h).
Proof.
  intros Hw data bitss i h Hh. revert i.
  induction Hh as [| vb bits data bitss Hvb _ IH]; intros i.
  - cbn. now rewrite orb_true_r.
  - cbn [mem_tools.write_words forallb rendered].
    assert ((if words_per_line =? 0
             then raise ZeroDivisionError
             else if (i + 1) mod words_per_line =? 0 then mret mem_tools.newline
                  else mret " "%string) h
            = (Ok (if (i + 1) mod words_per_line =? 0
                   then mem_tools.newline else " "%string), h)) as Hsep.
    { destruct (Z.eqb_spec words_per_line 0); [contradiction |].
      now destruct (_ =? 0). }
    destruct is_hex; cbn [negb orb] in *.
    + pose proof (hex_eq _ _ _ Hvb) as Hhex. unfold hex_writable at 1.
      destruct (Z.of_nat (length bits) mod 4 =? 0); cbn [andb].
      * rewrite (bind_Ok _ _ _ _ _ Hhex).
        rewrite (bind_Ok _ _ _ _ _ Hsep).
        pose proof (IH (i + 1)) as IHi.
        destruct (forallb hex_writable bitss).
        -- now rewrite (bind_Ok _ _ _ _ _ IHi).
        -- now rewrite (bind_Raise _ _ _ _ _ IHi).
      * now rewrite (bind_Raise _ _ _ _ _ Hhex).
    + rewrite (bind_Ok _ _ _ _ _ (bin_eq _ _ _ Hvb)).
      rewrite (bind_Ok _ _ _ _ _ Hsep).
      now rewrite (bind_Ok _ _ _ _ _ (IH (i + 1))).
Qed.

(** C9 as stated does not hold: for the 5-bit vector [00001] the
    specification's hexadecimal form is [01], two digits, but the
    hexadecimal writer raises [InterpretError] and writes no word. *)
Lemma write_memh_counterexample :
  hex_padded (hex_width 5) (bitstring.bits_uint [false; false; false; false; true])
  = "01"%string
  /\ mem_tools.write_memh [mkVerilogBits 1] 1
       {[1%positive := [false; false; false; false; true]]}
     = (Raise InterpretError, {[1%positive := [false; false; false; false; true]]}).
Proof. split; vm_compute; reflexivity. Qed.

(** C9 (as amended). For a non-empty list of vectors and a non-zero
    number of words per line: the binary writer writes every vector as
    its raw bit string, of as many characters as the vector has bits;
    the hexadecimal writer, when every length is a multiple of 4, writes
    every vector as its value padded with zeros to [length / 4], which
    is then [ceil(length / 4)], lower-case hexadecimal digits without
    the [0x] prefix; when some length is not a multiple of 4 the
    hexadecimal writer raises [InterpretError]. *)
Theorem write_mem_file_format (h : heap) (data : list VerilogBits)
    (bitss : list (list bool)) (words_per_line : Z) :
  hold h data bitss -> data <> [] -> words_per_line <> 0 ->
  mem_tools.write_mem_file data false words_per_line h
  = (Ok (rendered false words_per_line 0 bitss), h)
  /\ (forallb hex_writable bitss = true ->
      mem_tools.write_mem_file data true words_per_line h
      = (Ok (rendered true words_per_line 0 bitss), h))
  /\ (forallb hex_writable bitss = false ->
      mem_tools.write_mem_file data true words_per_line h
      = (Raise InterpretError, h))
  /\ (forall bits, String.length (bitstring.bin_string bits) = length bits)
  /\ (forall bits,
        hex_writable bits = true ->
        (4 * hex_width (length bits))%nat = length bits
        /\ String.length
             (hex_padded (hex_width (length bits)) (bitstring.bits_uint bits))
           = hex_width (length bits)
        /\ String.prefix "0x"
             (hex_padded (hex_width (length bits)) (bitstring.bits_uint bits))
           = false).
Proof.
  intros Hh Hne Hw.
  assert (forall is_hex,
            mem_tools.write_mem_file data is_hex words_per_line h
            = mem_tools.write_words is_hex words_per_line 0 data h) as Hfile
    by (intros; destruct data; [contradiction | reflexivity]).
  rewrite !Hfile, !(write_words_eq _ _ Hw _ _ _ _ Hh). cbn [negb orb].
  split; [reflexivity |]. split; [now intros -> |]. split; [now intros -> |].
  split; [apply bin_string_length |].
  intros bits Hb. apply Z.eqb_eq in Hb.
  split; [symmetry; now apply hex_width_exact |].
  split; [apply hex_padded_length | apply hex_padded_no_prefix].
Qed.

Lemma write_mem_file_format_witness :
  mem_tools.write_mem_file [mkVerilogBits 1; mkVerilogBits 2] true 2
    (<[2%positive := bits_170]>
       {[1%positive := [false; false; false; false; true; true; true; true]]})
  = (Ok ("0f aa" +:+ mem_tools.newline),
     <[2%positive := bits_170]>
       {[1%positive := [false; false; false; false; true; true; true; true]]}).
Proof.
  destruct (write_mem_file_format
              (<[2%positive := bits_170]>
                 {[1%positive := [false; false; false; false; true; true; true; true]]})
              [mkVerilogBits 1; mkVerilogBits 2]
              [[false; false; false; false; true; true; true; true]; bits_170] 2)
    as (_ & Hhex & _).
  - repeat constructor.
  - discriminate.
  - lia.
  - exact (Hhex eq_refl).
Defined.

(** * Further properties of the modelled code *)

(** ** Replication *)

Lemma concat_replicate_length {A} (n : nat) (l : list A) :
  length (List.concat (replicate n l)) = (n * length l)%nat.
Proof.
  induction n as [| n IH]; [reflexivity |].
  cbn [replicate List.concat]. rewrite length_app, IH. lia.
Qed.

Lemma mul_eq (h : heap) l bits n :
  h !! l = Some bits -> 0 <= n ->
  bitstring.mul l n h
  = (Ok (fresh (dom h)),
     <[fresh (dom h) := List.concat (replicate (Z.to_nat n) bits)]> h).
Proof.
  intros live Hn. unfold bitstring.mul. ztests.
  - subst n. reflexivity.
  - now rewrite (bind_Ok _ _ _ _ _ (get_eq _ _ _ live)).
Qed.

Lemma replicate_eq (h : heap) v bits n :
  h !! _data v = Some bits -> 0 <= n ->
  verilog_bits_rest.replicate v (PyInt n) h
  = (Ok (mkVerilogBits (fresh (dom h))),
     <[fresh (dom h) := List.concat (replicate (Z.to_nat n) bits)]> h).
Proof.
  intros live Hn. unfold verilog_bits_rest.replicate. ztests.
  now rewrite (bind_Ok _ _ _ _ _ (mul_eq _ _ _ _ live Hn)).
Qed.

(** X1. [v.replicate(n)] for an integer [n >= 0] returns a vector on a
    new object whose bits are those of [v] written [n] times, so of
    length [n * len(v)] (none for [n = 0]), and leaves [v] as it was; for
    a negative integer, and for a count that is not an integer, it raises
    [ValueError] and the store is untouched. *)
Theorem replicate_contract (h : heap) (v : VerilogBits) (bits : list bool) (n : Z) :
  h !! _data v = Some bits ->
  (0 <= n ->
   exists r,
     verilog_bits_rest.replicate v (PyInt n) h
     = (Ok r, <[_data r := List.concat (replicate (Z.to_nat n) bits)]> h)
     /\ h !! _data r = None
     /\ Z.of_nat (length (List.concat (replicate (Z.to_nat n) bits)))
        = n * Z.of_nat (length bits))
  /\ (n < 0 ->
      verilog_bits_rest.replicate v (PyInt n) h
      = (Raise (ValueError "Replication count must be a non-negative integer."), h))
  /\ (forall x, (forall k, x <> PyInt k) ->
      verilog_bits_rest.replicate v x h
      = (Raise (ValueError "Replication count must be a non-negative integer."), h)).
Proof.
  intros live. split; [| split].
  - intros Hn. exists (mkVerilogBits (fresh (dom h))).
    split; [now apply replicate_eq |]. split; [apply fresh_None |].
    rewrite concat_replicate_length. lia.
  - intros Hn. unfold verilog_bits_rest.replicate. now ztests.
  - intros x Hx. destruct x; try reflexivity. now destruct (Hx n0).
Qed.

Lemma replicate_contract_witness :
  exists r,
    verilog_bits_rest.replicate (mkVerilogBits 1) (PyInt 4)
      {[1%positive := [true; false]]}
    = (Ok r, <[_data r := bits_170]> {[1%positive := [true; false]]}).
Proof.
  destruct (replicate_contract {[1%positive := [true; false]]} (mkVerilogBits 1)
              [true; false] 4) as [Hok _]; [reflexivity |].
  destruct Hok as (r & E & _); [lia |]. exists r. exact E.
Defined.

Lemma concat_eq (h : heap) vs bss :
  hold h vs bss ->
  concat (map PyVerilogBits vs) h
  = (Ok (mkVerilogBits (fresh (dom h))), <[fresh (dom h) := List.concat bss]> h).
Proof.
  intros Hh.
  pose proof (hold_not_fresh _ _ _ Hh) as Hne.
  pose proof (hold_insert_other h (fresh (dom h)) [] vs bss (fresh_None h) Hh) as Hh1.
  unfold concat. cbn [bitstring.BitArray]. rewrite (bind_Ok _ _ _ _ _ (new_eq _ _)).
  rewrite (bind_Ok _ _ _ _ _
             (concat_loop_ok _ vs _ bss [] 0 (lookup_insert_eq _ _ _) Hne Hh1)).
  rewrite insert_insert_eq. reflexivity.
Qed.

(** X2. Replicating [n] times is concatenating [n] copies: for [n >= 0],
    [v.replicate(n)] and [concat(v, ..., v)] with [n] arguments return the
    same vector and leave the same store. *)
Theorem replicate_is_concat (h : heap) (v : VerilogBits) (bits : list bool) (n : nat) :
  h !! _data v = Some bits ->
  verilog_bits_rest.replicate v (PyInt (Z.of_nat n)) h
  = concat (map PyVerilogBits (replicate n v)) h.
Proof.
  intros live.
  rewrite (replicate_eq _ _ _ _ live) by lia.
  rewrite (concat_eq h (replicate n v) (replicate n bits)).
  - now rewrite Nat2Z.id.
  - unfold hold. induction n as [| n IH]; constructor; [exact live | exact IH].
Qed.

Lemma replicate_is_concat_witness :
  verilog_bits_rest.replicate (mkVerilogBits 1) (PyInt (Z.of_nat 3))
    {[1%positive := [true; false]]}
  = concat (map PyVerilogBits (replicate 3 (mkVerilogBits 1)))
      {[1%positive := [true; false]]}.
Proof.
  apply (replicate_is_concat {[1%positive := [true; false]]} (mkVerilogBits 1)
           [true; false] 3).
  reflexivity.
Defined.

(** ** Equality and copies *)

Lemma bin_string_inj a b :
  bitstring.bin_string a = bitstring.bin_string b -> a = b.
Proof.
  revert b. induction a as [| x a IH]; intros [| y b]; cbn; try discriminate.
  - reflexivity.
  - intros [= Hc Hr]. f_equal; [| now apply IH].
    destruct x, y; (reflexivity || discriminate).
Qed.

Lemma eq_eq (h : heap) v w a b :
  h !! _data v = Some a -> h !! _data w = Some b ->
  verilog_bits_rest.__eq__ v (PyVerilogBits w) h
  = (Ok (verilog_bits_rest.Bool (bool_decide (a = b))), h).
Proof.
  intros Hv Hw. unfold verilog_bits_rest.__eq__, bitstring.eq.
  erewrite bind_Ok; [reflexivity |].
  rewrite (bind_Ok _ _ _ _ _ (get_eq _ _ _ Hv)).
  now rewrite (bind_Ok _ _ _ _ _ (get_eq _ _ _ Hw)).
Qed.

(** X3. [v.__eq__(w)] for two vectors answers [True] exactly when they
    hold the same bits, which is exactly when [v.bin] and [w.bin] are the
    same text; it gives the same answer with the operands exchanged and
    does not depend on whether they share storage. For an operand that
    is not a [VerilogBits] the answer is [NotImplemented], never a
    boolean. The store is never changed. *)
Theorem eq_contract (h : heap) (v w : VerilogBits) (a b : list bool) :
  h !! _data v = Some a -> h !! _data w = Some b ->
  (verilog_bits_rest.__eq__ v (PyVerilogBits w) h
   = (Ok (verilog_bits_rest.Bool true), h) <-> a = b)
  /\ (verilog_bits_rest.__eq__ v (PyVerilogBits w) h
      = (Ok (verilog_bits_rest.Bool false), h) <-> a <> b)
  /\ (a = b <-> exists t, bin v h = (Ok t, h) /\ bin w h = (Ok t, h))
  /\ verilog_bits_rest.__eq__ w (PyVerilogBits v) h
     = verilog_bits_rest.__eq__ v (PyVerilogBits w) h
  /\ (forall x, (forall u, x <> PyVerilogBits u) ->
      verilog_bits_rest.__eq__ v x h = (Ok verilog_bits_rest.NotImplemented, h)).
Proof.
  intros Hv Hw.
  rewrite (eq_eq _ _ _ _ _ Hv Hw), (eq_eq _ _ _ _ _ Hw Hv).
  rewrite (bin_eq _ _ _ Hv), (bin_eq _ _ _ Hw).
  split; [| split; [| split; [| split]]].
  - destruct (decide (a = b)) as [E | E].
    + rewrite bool_decide_eq_true_2 by exact E. tauto.
    + rewrite bool_decide_eq_false_2 by exact E. split; [discriminate | tauto].
  - destruct (decide (a = b)) as [E | E].
    + rewrite bool_decide_eq_true_2 by exact E. split; [discriminate | tauto].
    + rewrite bool_decide_eq_false_2 by exact E. tauto.
  - split.
    + intros ->. eexists. split; reflexivity.
    + intros (t & [= <-] & [= E]). symmetry. now apply bin_string_inj.
  - do 3 f_equal. apply bool_decide_ext. split; congruence.
  - intros x Hx. destruct x; try reflexivity. now destruct (Hx v0).
Qed.

Lemma eq_contract_witness :
  verilog_bits_rest.__eq__ (mkVerilogBits 1) (PyVerilogBits (mkVerilogBits 2))
    (<[2%positive := [true; false]]> {[1%positive := [true; false]]})
  = (Ok (verilog_bits_rest.Bool true),
     <[2%positive := [true; false]]> {[1%positive := [true; false]]}).
Proof.
  destruct (eq_contract
              (<[2%positive := [true; false]]> {[1%positive := [true; false]]})
              (mkVerilogBits 1) (mkVerilogBits 2) [true; false] [true; false])
    as [Heq _]; [reflexivity | reflexivity |].
  now apply Heq.
Defined.

(** ** What reads and writes leave alone *)

Lemma extends_refl (h : heap) : extends h h.
Proof. now intros l b. Qed.

Lemma extends_new (h : heap) bits : extends h (<[fresh (dom h) := bits]> h).
Proof. intros l b. apply lookup_after_new. Qed.

Lemma extends_trans (h1 h2 h3 : heap) :
  extends h1 h2 -> extends h2 h3 -> extends h1 h3.
Proof. intros H12 H23 l b Hl. auto. Qed.

Lemma getitem_slice_extends (h h' : heap) l a b o :
  bitstring.getitem_slice l a b h = (o, h') -> extends h h'.
Proof.
  unfold bitstring.getitem_slice, mbind, M_bind, bind, bitstring.get.
  destruct (h !! l) as [bits |]; [| intros [= _ <-]; apply extends_refl].
  cbv zeta. destruct (_ <? _); rewrite new_eq; intros [= _ <-]; apply extends_new.
Qed.

Lemma parse_slice_heap (h h' : heap) v s t o :
  _parse_verilog_slice v s t h = (o, h') -> h' = h.
Proof.
  unfold _parse_verilog_slice.
  destruct s as [| msb | | |]; try (intros [= _ <-]; reflexivity).
  destruct t as [| lsb | | |]; try (intros [= _ <-]; reflexivity).
  destruct (lsb >? msb); [intros [= _ <-]; reflexivity |].
  unfold __len__, bitstring.len, mbind, M_bind, bind, bitstring.get.
  destruct (h !! _data v) as [bits |]; [| intros [= _ <-]; reflexivity].
  rewrite mret_eq. destruct (negb _); intros [= _ <-]; reflexivity.
Qed.

(** X4. A read [v[key]], whatever the key and whether it returns or
    raises, changes no object of the store: at most one new object, the
    result, is added. *)
Theorem getitem_is_pure (h h' : heap) (v : VerilogBits) (key : pykey)
    (o : outcome VerilogBits) :
  __getitem__ v key h = (o, h') -> extends h h'.
Proof.
  unfold __getitem__. destruct key as [i | s t st | ty].
  - unfold mbind, M_bind, bind.
    destruct (bitstring.getitem_slice _ _ _ h) as [[l | e |] h1] eqn:E;
      apply getitem_slice_extends in E;
      rewrite ?init_of_BitArray; now intros [= _ <-].
  - destruct st; try (intros [= _ <-]; apply extends_refl).
    unfold mbind, M_bind, bind.
    destruct (_parse_verilog_slice v s t h) as [[[a b] | e |] h1] eqn:Ep;
      apply parse_slice_heap in Ep; subst h1;
      try (intros [= _ <-]; apply extends_refl).
    destruct (bitstring.getitem_slice _ _ _ h) as [[l | e |] h1] eqn:E;
      apply getitem_slice_extends in E;
      rewrite ?init_of_BitArray; now intros [= _ <-].
  - intros [= _ <-]. apply extends_refl.
Qed.

Lemma getitem_is_pure_witness :
  extends {[1%positive := bits_170]}
    (<[2%positive := [true; false; true; false]]> {[1%positive := bits_170]}).
Proof.
  apply (getitem_is_pure _ _ (mkVerilogBits 1) (KSlice (PyInt 7) (PyInt 4) PyNone)
           (Ok (mkVerilogBits 2))).
  vm_compute. reflexivity.
Defined.

Lemma init_plain_extends (h h1 : heap) value o :
  __init__ value None false h = (o, h1) -> extends h h1.
Proof.
  rewrite init_plain_eq. destruct value as [| z | s | w | l].
  - intros [= _ <-]. apply extends_new.
  - intros [= _ <-]. apply extends_refl.
  - destruct (bitstring.auto_bits s); intros [= _ <-];
      [apply extends_new | apply extends_refl].
  - destruct (h !! _data w); intros [= _ <-];
      [apply extends_new | apply extends_refl].
  - intros [= _ <-]. apply extends_refl.
Qed.

(** The two ways a write can end: it returns, having replaced the bits
    of the target in a store that extends the old one; or it does not
    return, and the store only extends the old one. *)
Lemma setitem_outcome (h h' : heap) v key x old o :
  h !! _data v = Some old ->
  __setitem__ v key x h = (o, h') ->
  exists h1,
    extends h h1
    /\ ((o = Ok tt /\ exists new, h' = <[_data v := new]> h1)
        \/ (o <> Ok tt /\ h' = h1)).
Proof.
  intros live. unfold __setitem__, mbind, M_bind, bind.
  destruct (__init__ x None false h) as [[nv | e |] h1] eqn:Einit;
    pose proof (init_plain_extends _ _ _ _ Einit) as Hext;
    [| intros [= <- <-]; exists h1; split; [exact Hext | right; now split] ..].
  pose proof (Hext _ _ live) as live1.
  intros E. exists h1. split; [exact Hext |]. cbv beta zeta in E.
  destruct key as [i | s t st | ty].
  - destruct (h1 !! _data nv) as [val |] eqn:Hv.
    + rewrite (setitem_int_eq _ _ _ _ _ live1 Hv i) in E.
      destruct (_ && _) in E; injection E as <- <-; [left | right];
        split; eauto; discriminate.
    + unfold bitstring.setitem_int, mbind, M_bind, bind in E.
      rewrite (get_eq _ _ _ live1) in E.
      destruct (negb _) in E; [injection E as <- <-; right; now split |].
      unfold bitstring.get in E. rewrite Hv in E. injection E as <- <-.
      right. now split.
  - destruct st; try (injection E as <- <-; right; now split).
    destruct (_parse_verilog_slice v s t h1) as [[[a b] | e |] h2] eqn:Ep;
      pose proof (parse_slice_heap _ _ _ _ _ _ Ep); subst h2;
      try (injection E as <- <-; right; now split).
    destruct (parse_slice_inv _ _ _ _ _ _ _ _ live1 Ep)
      as (msb & lsb & -> & -> & Hlo & Hle & Hhi & -> & -> & _).
    destruct (h1 !! _data nv) as [val |] eqn:Hv.
    + rewrite (setitem_slice_eq _ _ _ _ _ live1 Hv) in E by lia.
      injection E as <- <-. left. split; eauto.
    + unfold bitstring.setitem_slice, mbind, M_bind, bind in E.
      rewrite (get_eq _ _ _ live1) in E. unfold bitstring.get in E.
      rewrite Hv in E. injection E as <- <-. right. now split.
  - injection E as <- <-. right. now split.
Qed.

(** X5. A write [v[key] = x] that does not return (bad key, index out of
    bounds, value that cannot be constructed) has not touched [v]: the
    checks come before the mutation. And a write, however it ends,
    changes no object other than the one [v] refers to. *)
Theorem setitem_failure_atomic (h h' : heap) (v : VerilogBits) (key : pykey)
    (x : pyval) (old : list bool) (o : outcome unit) :
  h !! _data v = Some old ->
  __setitem__ v key x h = (o, h') ->
  (o <> Ok tt -> h' !! _data v = Some old)
  /\ (forall l b, l <> _data v -> h !! l = Some b -> h' !! l = Some b).
Proof.
  intros live E.
  destruct (setitem_outcome _ _ _ _ _ _ _ live E)
    as (h1 & Hext & [(-> & new & ->) | (Ho & ->)]).
  - split; [congruence |].
    intros l b Hne Hl. rewrite lookup_insert_ne by congruence. now apply Hext.
  - split; [intros _; now apply Hext | intros l b _ Hl; now apply Hext].
Qed.

Lemma setitem_failure_atomic_witness :
  ({[1%positive := zeros_8]} : heap) !! 1%positive = Some zeros_8.
Proof.
  destruct (setitem_failure_atomic {[1%positive := zeros_8]} {[1%positive := zeros_8]}
              (mkVerilogBits 1) (KSlice (PyInt 8) (PyInt 0) PyNone) (PyInt 1)
              zeros_8 (Raise CreationError)) as [Hsame _].
  - reflexivity.
  - vm_compute. reflexivity.
  - apply Hsame. discriminate.
Defined.

(** X6. Copy construction gives independent storage: [w = VerilogBits(v)]
    holds the bits of [v] on another object and compares equal to [v];
    whatever is then written to [w], and however that write ends, [v]
    keeps its bits. *)
Theorem copy_is_independent (h h1 : heap) (v w : VerilogBits) (bits : list bool) :
  h !! _data v = Some bits ->
  __init__ (PyVerilogBits v) None false h = (Ok w, h1) ->
  _data w <> _data v
  /\ h1 !! _data w = Some bits
  /\ h1 !! _data v = Some bits
  /\ verilog_bits_rest.__eq__ v (PyVerilogBits w) h1
     = (Ok (verilog_bits_rest.Bool true), h1)
  /\ (forall key x o h2,
        __setitem__ w key x h1 = (o, h2) -> h2 !! _data v = Some bits).
Proof.
  intros live E. rewrite init_plain_eq, live in E. injection E as <- <-.
  cbn [_data].
  assert (fresh (dom h) <> _data v) as Hne
    by (intros Heq; rewrite <- Heq, fresh_None in live; discriminate).
  assert (<[fresh (dom h) := bits]> h !! fresh (dom h) = Some bits) as Hw
    by apply lookup_insert_eq.
  assert (<[fresh (dom h) := bits]> h !! _data v = Some bits) as Hv
    by now apply lookup_after_new.
  split; [exact Hne |]. split; [exact Hw |]. split; [exact Hv |]. split.
  - rewrite (eq_eq _ v (mkVerilogBits (fresh (dom h))) bits bits Hv Hw).
    now rewrite bool_decide_eq_true_2.
  - intros key x o h2 Eset.
    destruct (setitem_outcome _ _ (mkVerilogBits (fresh (dom h))) _ _ bits _ Hw Eset)
      as (h' & Hext & [(_ & new & ->) | (_ & ->)]).
    + cbn [_data]. rewrite lookup_insert_ne by exact Hne. now apply Hext.
    + now apply Hext.
Qed.

Lemma copy_is_independent_witness :
  (<[2%positive := bits_170]> {[1%positive := bits_170]} : heap) !! 1%positive
  = Some bits_170.
Proof.
  destruct (copy_is_independent {[1%positive := bits_170]}
              (<[2%positive := bits_170]> {[1%positive := bits_170]})
              (mkVerilogBits 1) (mkVerilogBits 2) bits_170)
    as (_ & _ & Hv & _).
  - reflexivity.
  - vm_compute. reflexivity.
  - exact Hv.
Defined.

(** ** Reads after writes, and reads of reads *)

Lemma setitem_range_eq (h : heap) v old msb lsb x val :
  h !! _data v = Some old ->
  value_bits h x = Some val ->
  0 <= lsb -> lsb <= msb -> msb <= Z.of_nat (length old) - 1 ->
  exists h1,
    extends h h1
    /\ __setitem__ v (KSlice (PyInt msb) (PyInt lsb) PyNone) x h
       = (Ok tt,
          <[_data v := splice old (Z.of_nat (length old) - 1 - msb)
                         (Z.of_nat (length old) - lsb) val]> h1).
Proof.
  intros live Hval Hlo Hle Hhi.
  destruct (init_plain_ok h x val Hval) as (nv & h1 & Einit & Hframe & Hv).
  pose proof (Hframe _ _ live) as live1.
  exists h1. split; [exact Hframe |].
  unfold __setitem__. rewrite (bind_Ok _ _ _ _ _ Einit).
  rewrite (bind_Ok _ _ _ _ _ (parse_slice_ok _ _ _ live1 msb lsb Hle Hlo Hhi)).
  rewrite (setitem_slice_eq _ _ _ _ _ live1 Hv) by lia.
  do 3 f_equal. lia.
Qed.

Lemma slice_of_splice old start stop val :
  0 <= start -> start <= stop -> stop <= Z.of_nat (length old) ->
  bitstring._slice (splice old start stop val) start (start + Z.of_nat (length val))
  = val.
Proof.
  intros. unfold bitstring._slice, splice.
  rewrite drop_app_length' by (rewrite length_take; lia).
  replace (Z.to_nat (start + Z.of_nat (length val) - start)) with (length val) by lia.
  now rewrite take_app_length.
Qed.

(** X7. Set then get: after a ranged write [v[msb:lsb] = x] inside the
    bounds with a value of exactly [msb - lsb + 1] bits, the read
    [v[msb:lsb]] returns the bits of [x], and [v] still has its length. *)
Theorem set_then_get (h : heap) (v : VerilogBits) (old : list bool) (msb lsb : Z)
    (x : pyval) (val : list bool) :
  h !! _data v = Some old ->
  value_bits h x = Some val ->
  0 <= lsb -> lsb <= msb -> msb <= Z.of_nat (length old) - 1 ->
  Z.of_nat (length val) = msb - lsb + 1 ->
  exists h1 r,
    __setitem__ v (KSlice (PyInt msb) (PyInt lsb) PyNone) x h = (Ok tt, h1)
    /\ __len__ v h1 = (Ok (Z.of_nat (length old)), h1)
    /\ __getitem__ v (KSlice (PyInt msb) (PyInt lsb) PyNone) h1
       = (Ok r, <[_data r := val]> h1)
    /\ h1 !! _data r = None.
Proof.
  intros live Hval Hlo Hle Hhi Hw.
  destruct (setitem_range_eq h v old msb lsb x val live Hval Hlo Hle Hhi)
    as (h0 & _ & E).
  set (n := Z.of_nat (length old)) in *.
  set (new := splice old (n - 1 - msb) (n - lsb) val) in *.
  assert (<[_data v := new]> h0 !! _data v = Some new) as Hnew
    by apply lookup_insert_eq.
  assert (Z.of_nat (length new) = n) as Hlen.
  { unfold new. rewrite splice_length by (fold n; lia). fold n. lia. }
  exists (<[_data v := new]> h0), (mkVerilogBits (fresh (dom (<[_data v := new]> h0)))).
  split; [exact E |]. split; [| split; [| apply fresh_None]].
  - unfold __len__. rewrite (len_eq _ _ _ Hnew). now rewrite Hlen.
  - rewrite (getitem_range_ok _ _ _ Hnew msb lsb) by lia.
    cbn [_data]. do 3 f_equal. rewrite Hlen. unfold new.
    replace (n - lsb) with (n - 1 - msb + Z.of_nat (length val)) by lia.
    apply slice_of_splice; fold n; lia.
Qed.

Lemma set_then_get_witness :
  exists h1 r,
    __setitem__ (mkVerilogBits 1) (KSlice (PyInt 7) (PyInt 4) PyNone)
      (PyStr "0b1111") {[1%positive := zeros_8]} = (Ok tt, h1)
    /\ __getitem__ (mkVerilogBits 1) (KSlice (PyInt 7) (PyInt 4) PyNone) h1
       = (Ok r, <[_data r := [true; true; true; true]]> h1).
Proof.
  destruct (set_then_get {[1%positive := zeros_8]} (mkVerilogBits 1) zeros_8 7 4
              (PyStr "0b1111") [true; true; true; true])
    as (h1 & r & Eset & _ & Eget & _);
    [reflexivity | reflexivity | cbn; lia .. |].
  exists h1, r. split; [exact Eset | exact Eget].
Defined.

Lemma slice_of_slice bits s1 e1 s2 e2 :
  0 <= s1 -> s1 <= e1 -> e1 <= Z.of_nat (length bits) ->
  0 <= s2 -> s2 <= e2 -> e2 <= e1 - s1 ->
  bitstring._slice (bitstring._slice bits s1 e1) s2 e2
  = bitstring._slice bits (s1 + s2) (s1 + e2).
Proof.
  intros. unfold bitstring._slice.
  rewrite skipn_firstn_comm, firstn_firstn, drop_drop.
  f_equal; [lia | f_equal; lia].
Qed.

(** X8. A slice of a slice is a slice: for [lsb <= msb] inside [v] and
    [b <= a <= msb - lsb], reading [v[msb:lsb]] and then [[a:b]] of the
    result gives the same bits as reading [v[lsb+a : lsb+b]] directly. *)
Theorem getitem_getitem (h : heap) (v : VerilogBits) (bits : list bool)
    (msb lsb a b : Z) :
  h !! _data v = Some bits ->
  0 <= lsb -> lsb <= msb -> msb <= Z.of_nat (length bits) - 1 ->
  0 <= b -> b <= a -> a <= msb - lsb ->
  exists r1 h1 r2 h2 r out,
    __getitem__ v (KSlice (PyInt msb) (PyInt lsb) PyNone) h = (Ok r1, h1)
    /\ __getitem__ r1 (KSlice (PyInt a) (PyInt b) PyNone) h1 = (Ok r2, h2)
    /\ h2 !! _data r2 = Some out
    /\ __getitem__ v (KSlice (PyInt (lsb + a)) (PyInt (lsb + b)) PyNone) h
       = (Ok r, <[_data r := out]> h).
Proof.
  intros live Hlo Hle Hhi Hb Hba Ha.
  set (n := Z.of_nat (length bits)) in *.
  set (mid := bitstring._slice bits (n - 1 - msb) (n - lsb)).
  assert (Z.of_nat (length mid) = msb - lsb + 1) as Hmid
    by (unfold mid; rewrite slice_length; fold n; lia).
  set (h1 := <[fresh (dom h) := mid]> h).
  assert (h1 !! _data (mkVerilogBits (fresh (dom h))) = Some mid) as live1
    by apply lookup_insert_eq.
  set (out := bitstring._slice bits (n - 1 - (lsb + a)) (n - (lsb + b))).
  exists (mkVerilogBits (fresh (dom h))), h1,
         (mkVerilogBits (fresh (dom h1))), (<[fresh (dom h1) := out]> h1),
         (mkVerilogBits (fresh (dom h))), out.
  split; [apply (getitem_range_ok _ _ _ live); fold n; lia |].
  split; [| split; [apply lookup_insert_eq |]].
  - rewrite (getitem_range_ok _ _ _ live1) by lia. do 2 f_equal.
    rewrite Hmid. unfold mid, out.
    rewrite slice_of_slice by (fold n; lia). f_equal; lia.
  - now rewrite (getitem_range_ok _ _ _ live) by (fold n; lia).
Qed.

Lemma getitem_getitem_witness :
  exists r, __getitem__ (mkVerilogBits 1) (KSlice (PyInt 5) (PyInt 4) PyNone)
              {[1%positive := bits_170]}
            = (Ok r, <[_data r := [true; false]]> {[1%positive := bits_170]}).
Proof.
  destruct (getitem_getitem {[1%positive := bits_170]} (mkVerilogBits 1) bits_170
              6 3 2 1)
    as (r1 & h1 & r2 & h2 & r & out & E1 & E2 & Hout & E);
    [reflexivity | cbn; lia .. |].
  exists r.
  assert (out = [true; false]) as <-; [| exact E].
  vm_compute in E1. injection E1 as <- <-.
  vm_compute in E2. injection E2 as <- <-.
  vm_compute in Hout. now injection Hout as <-.
Defined.

(** X9. Concatenation and slicing are inverse: in [r = concat(a, b)] of
    two non-empty vectors, the slice of the top [len(a)] bits is [a] and
    the slice of the low [len(b)] bits is [b]. *)
Theorem concat_then_slice (h : heap) (a b : VerilogBits) (A B : list bool) :
  h !! _data a = Some A -> h !! _data b = Some B ->
  A <> [] -> B <> [] ->
  let la := Z.of_nat (length A) in
  let lb := Z.of_nat (length B) in
  exists r h1,
    concat [PyVerilogBits a; PyVerilogBits b] h = (Ok r, h1)
    /\ (exists hi,
          __getitem__ r (KSlice (PyInt (la + lb - 1)) (PyInt lb) PyNone) h1
          = (Ok hi, <[_data hi := A]> h1))
    /\ (exists lo,
          __getitem__ r (KSlice (PyInt (lb - 1)) (PyInt 0) PyNone) h1
          = (Ok lo, <[_data lo := B]> h1)).
Proof.
  intros Ha Hb HA HB la lb.
  assert (0 < la) by (unfold la; destruct A; [congruence | cbn; lia]).
  assert (0 < lb) by (unfold lb; destruct B; [congruence | cbn; lia]).
  set (h1 := <[fresh (dom h) := A ++ B]> h).
  assert (h1 !! _data (mkVerilogBits (fresh (dom h))) = Some (A ++ B)) as live1
    by apply lookup_insert_eq.
  assert (Z.of_nat (length (A ++ B)) = la + lb) as Hlen
    by (rewrite length_app; unfold la, lb; lia).
  exists (mkVerilogBits (fresh (dom h))), h1.
  split; [| split].
  - change [PyVerilogBits a; PyVerilogBits b] with (map PyVerilogBits [a; b]).
    rewrite (concat_eq h [a; b] [A; B]) by (repeat constructor; assumption).
    cbn [List.concat]. now rewrite app_nil_r.
  - exists (mkVerilogBits (fresh (dom h1))).
    rewrite (getitem_range_ok _ _ _ live1) by lia. cbn [_data]. do 2 f_equal.
    rewrite Hlen.
    replace (la + lb - 1 - (la + lb - 1)) with 0 by lia.
    replace (la + lb - lb) with la by lia.
    unfold bitstring._slice. rewrite Z.sub_0_r. unfold la. rewrite Nat2Z.id.
    cbn [Z.to_nat drop]. apply take_app_length.
  - exists (mkVerilogBits (fresh (dom h1))).
    rewrite (getitem_range_ok _ _ _ live1) by lia. cbn [_data]. do 2 f_equal.
    rewrite Hlen.
    replace (la + lb - 1 - (lb - 1)) with la by lia.
    unfold bitstring._slice.
    replace (Z.to_nat la) with (length A) by (unfold la; lia).
    rewrite drop_app_length. apply take_ge. unfold la, lb. lia.
Qed.

Lemma concat_then_slice_witness :
  exists r h1,
    concat [PyVerilogBits (mkVerilogBits 1); PyVerilogBits (mkVerilogBits 2)]
      (<[2%positive := [false; false]]> {[1%positive := [true; true; false]]})
    = (Ok r, h1)
    /\ exists lo,
         __getitem__ r (KSlice (PyInt 1) (PyInt 0) PyNone) h1
         = (Ok lo, <[_data lo := [false; false]]> h1).
Proof.
  destruct (concat_then_slice
              (<[2%positive := [false; false]]> {[1%positive := [true; true; false]]})
              (mkVerilogBits 1) (mkVerilogBits 2) [true; true; false] [false; false])
    as (r & h1 & E & _ & Hlo); [reflexivity | reflexivity | discriminate .. |].
  exists r, h1. split; [exact E | exact Hlo].
Defined.

(** ** Integer subscripts *)

Lemma getitem_slice_single (h : heap) l bits i :
  h !! l = Some bits ->
  let n := Z.of_nat (length bits) in
  bitstring.getitem_slice l (Some i) (Some (i + 1)) h
  = (Ok (fresh (dom h)),
     <[fresh (dom h) :=
         if ((0 <=? i) && (i <? n)) || ((- n <=? i) && (i <=? -2))
         then bitstring._slice bits (if i <? 0 then i + n else i)
                ((if i <? 0 then i + n else i) + 1)
         else []]> h).
Proof.
  intros live n. unfold bitstring.getitem_slice.
  rewrite (bind_Ok _ _ _ _ _ (get_eq _ _ _ live)). fold n. cbv zeta.
  assert (0 <= n) by (unfold n; lia).
  destruct (Z.ltb_spec i 0) as [Hneg | Hpos].
  - destruct (Z.ltb_spec (i + 1) 0) as [Hneg1 | Hz].
    + destruct (Z.leb_spec (- n) i) as [Hin | Hout].
      * rewrite Z.max_l, Z.min_l by lia. ztests.
        rewrite new_eq. do 3 f_equal. lia.
      * ztests. destruct (Z.ltb_spec (Z.max (i + n) 0) (Z.min (i + 1 + n) n));
          [lia | reflexivity].
    + assert (i = -1) as -> by lia. cbn [Z.add Z.leb Z.compare andb orb].
      destruct (Z.ltb_spec (Z.max (-1 + n) 0) (Z.min 0 n)); [lia |].
      ztests; reflexivity.
  - destruct (Z.ltb_spec (i + 1) 0); [lia |].
    destruct (Z.ltb_spec i n) as [Hin | Hout].
    + rewrite Z.max_l, Z.min_l by lia. ztests. reflexivity.
    + destruct (Z.ltb_spec (Z.max i 0) (Z.min (i + 1) n)); [lia |].
      ztests; reflexivity.
Qed.

(** X10. An integer read never raises. [v[i]] returns the one bit at
    stored position [i] for [0 <= i < n], the one bit at position
    [i + n] for [-n <= i <= -2], and a vector of no bits for every other
    integer: [i >= n], [i < -n] and also [i = -1]. *)
Theorem getitem_int_total (h : heap) (v : VerilogBits) (bits : list bool) (i : Z) :
  h !! _data v = Some bits ->
  let n := Z.of_nat (length bits) in
  exists r out,
    __getitem__ v (KInt i) h = (Ok r, <[_data r := out]> h)
    /\ h !! _data r = None
    /\ (0 <= i < n -> exists b, out = [b] /\ bits !! Z.to_nat i = Some b)
    /\ (- n <= i <= -2 -> exists b, out = [b] /\ bits !! Z.to_nat (i + n) = Some b)
    /\ (n <= i \/ i = -1 \/ i < - n -> out = []).
Proof.
  intros live n. eexists (mkVerilogBits (fresh (dom h))), _.
  split.
  { unfold __getitem__.
    rewrite (bind_Ok _ _ _ _ _ (getitem_slice_single _ _ _ i live)).
    rewrite init_of_BitArray. reflexivity. }
  fold n. split; [apply fresh_None |]. split; [| split].
  - intros Hi. ztests. apply slice_single; fold n; lia.
  - intros Hi. ztests. apply slice_single; fold n; lia.
  - intros Hi. ztests; reflexivity.
Qed.

Lemma getitem_int_total_witness :
  exists r out,
    __getitem__ (mkVerilogBits 1) (KInt (-2)) {[1%positive := bits_170]}
    = (Ok r, <[_data r := out]> {[1%positive := bits_170]})
    /\ out = [true].
Proof.
  destruct (getitem_int_total {[1%positive := bits_170]} (mkVerilogBits 1)
              bits_170 (-2))
    as (r & out & E & _ & _ & Hneg & _); [reflexivity |].
  exists r, out. split; [exact E |].
  destruct Hneg as (b & -> & Hb); [cbn; lia |]. now injection Hb as <-.
Defined.

(** X11. An integer write [v[i] = x], with a value [x] that the
    constructor accepts, returns exactly when [-n <= i < n], and then
    replaces the one stored position [i] (or [i + n] for a negative [i])
    by the bits of [x]; any other index raises [IndexError] and leaves
    [v] as it was. So [v[-1] = x] writes the last position, the one that
    the read [v[-1]] does not return. *)
Theorem setitem_int_bounds (h : heap) (v : VerilogBits) (old : list bool) (i : Z)
    (x : pyval) (val : list bool) :
  h !! _data v = Some old ->
  value_bits h x = Some val ->
  let n := Z.of_nat (length old) in
  let k := if i <? 0 then i + n else i in
  exists h1,
    extends h h1
    /\ (- n <= i < n ->
        __setitem__ v (KInt i) x h
        = (Ok tt, <[_data v := splice old k (k + 1) val]> h1))
    /\ (i < - n \/ n <= i ->
        __setitem__ v (KInt i) x h
        = (Raise (IndexError "Slice index out of range."), h1)
        /\ h1 !! _data v = Some old).
Proof.
  intros live Hval n k.
  destruct (init_plain_ok h x val Hval) as (nv & h1 & Einit & Hframe & Hv).
  pose proof (Hframe _ _ live) as live1.
  exists h1. split; [exact Hframe |].
  unfold __setitem__. rewrite (bind_Ok _ _ _ _ _ Einit). cbv zeta.
  rewrite (setitem_int_eq _ _ _ _ _ live1 Hv i). fold n. fold k.
  split.
  - intros Hi. unfold k. ztests; reflexivity.
  - intros Hi. split; [| exact live1]. unfold k. ztests; reflexivity.
Qed.

Lemma setitem_int_bounds_witness :
  exists h1 : heap,
    __setitem__ (mkVerilogBits 1) (KInt (-1)) (PyStr "0b1")
      {[1%positive := zeros_8]}
    = (Ok tt, <[1%positive := splice zeros_8 7 8 [true]]> h1).
Proof.
  destruct (setitem_int_bounds {[1%positive := zeros_8]} (mkVerilogBits 1) zeros_8
              (-1) (PyStr "0b1") [true])
    as (h1 & _ & Hok & _); [reflexivity | reflexivity |].
  exists h1. apply Hok. cbn. lia.
Defined.

(** ** The integer readings *)

(** X12. For a vector of [L >= 1] bits, [.uint] lies in [0, 2^L - 1] and
    is the sum of the hardware bits weighted by powers of two, [.sint]
    lies in [-2^(L-1), 2^(L-1) - 1], and the two agree when the top bit
    is clear and differ by [2^L] when it is set. On a vector of no bits
    both raise [InterpretError]. *)
Theorem uint_sint_relation (h : heap) (v : VerilogBits) (bits : list bool) :
  h !! _data v = Some bits ->
  let L := Z.of_nat (length bits) in
  (1 <= L ->
   exists u s,
     uint v h = (Ok u, h) /\ sint v h = (Ok s, h)
     /\ 0 <= u < 2 ^ L
     /\ - 2 ^ (L - 1) <= s < 2 ^ (L - 1)
     /\ (forall i, 0 <= i < L -> hw_bit bits i = Some (Z.testbit u i))
     /\ s = (if u <? 2 ^ (L - 1) then u else u - 2 ^ L))
  /\ (L = 0 ->
      uint v h = (Raise InterpretError, h) /\ sint v h = (Raise InterpretError, h)).
Proof.
  intros live L. split.
  - intros HL.
    pose proof (bits_uint_range bits) as Hr. fold L in Hr.
    assert (2 ^ L = 2 * 2 ^ (L - 1)) as Hpow
      by (rewrite <- Z.pow_succ_r by lia; f_equal; lia).
    assert (0 < 2 ^ (L - 1)) as Hpos by (apply Z.pow_pos_nonneg; lia).
    exists (bitstring.bits_uint bits),
           (if bitstring.bits_uint bits <? 2 ^ (L - 1)
            then bitstring.bits_uint bits else bitstring.bits_uint bits - 2 ^ L).
    split; [| split; [| split; [exact Hr | split; [| split; [| reflexivity]]]]].
    + unfold uint, bitstring.uint.
      rewrite (bind_Ok _ _ _ _ _ (get_eq _ _ _ live)). fold L. now ztests.
    + unfold sint, bitstring.int.
      rewrite (bind_Ok _ _ _ _ _ (get_eq _ _ _ live)). fold L. cbv zeta.
      destruct (Z.eqb_spec L 0); [lia |].
      rewrite Z.shiftr_div_pow2 by lia.
      set (u := bitstring.bits_uint bits) in *.
      destruct (Z.ltb_spec u (2 ^ (L - 1))) as [Hlow | Hhigh].
      * rewrite Z.div_small by lia. reflexivity.
      * assert (u / 2 ^ (L - 1) = 1) as ->
          by (symmetry; apply (Z.div_unique _ _ _ (u - 2 ^ (L - 1))); lia).
        cbn [Z.eqb]. rewrite Z.lnot_pred.
        replace (2 ^ L - 1) with (Z.ones L) by (rewrite Z.ones_equiv; lia).
        rewrite Z.land_ones by lia.
        replace (- u) with (2 ^ L - u + (-1) * 2 ^ L) by lia.
        rewrite Z.mod_add, Z.mod_small by lia.
        rewrite mret_eq. do 2 f_equal. lia.
    + destruct (_ <? _) eqn:E; [apply Z.ltb_lt in E | apply Z.ltb_ge in E]; lia.
    + intros i Hi. apply hw_bit_testbit. fold L. lia.
  - intros HL. unfold uint, sint, bitstring.uint, bitstring.int.
    rewrite !(bind_Ok _ _ _ _ _ (get_eq _ _ _ live)). fold L. rewrite HL.
    split; reflexivity.
Qed.

Lemma uint_sint_relation_witness :
  exists u s,
    uint (mkVerilogBits 1) {[1%positive := bits_170]}
    = (Ok u, {[1%positive := bits_170]})
    /\ sint (mkVerilogBits 1) {[1%positive := bits_170]}
       = (Ok s, {[1%positive := bits_170]})
    /\ s = (if u <? 2 ^ 7 then u else u - 2 ^ 8).
Proof.
  destruct (uint_sint_relation {[1%positive := bits_170]} (mkVerilogBits 1) bits_170)
    as [Hok _]; [reflexivity |].
  destruct Hok as (u & s & Eu & Es & _ & _ & _ & Hs); [cbn; lia |].
  exists u, s. split; [exact Eu |]. split; [exact Es | exact Hs].
Defined.

(** ** Literals and the accessors *)

Lemma digits_bits_bin bits :
  bitstring.digits_bits bitstring.bin_digit (bitstring.bin_string bits) = Some bits.
Proof.
  induction bits as [| b bits IH]; [reflexivity |].
  cbn [bitstring.bin_string bitstring.digits_bits]. rewrite IH. now destruct b.
Qed.

Lemma auto_bits_bin bits :
  bits <> [] ->
  bitstring.auto_bits ("0b" +:+ bitstring.bin_string bits) = Some bits.
Proof.
  intros Hne. destruct bits as [| b bits]; [congruence |].
  unfold bitstring.auto_bits.
  change (bitstring.literal_bits ("0b" +:+ bitstring.bin_string (b :: bits)))
    with (bitstring.digits_bits bitstring.bin_digit (bitstring.bin_string (b :: bits))).
  now rewrite digits_bits_bin.
Qed.

(** X13. The text of [.bin] names the vector: for a vector [v] of at
    least one bit, [VerilogBits('0b' + v.bin)] is a vector on a new
    object with the bits of [v], and it compares equal to [v]. *)
Theorem bin_round_trip (h : heap) (v : VerilogBits) (bits : list bool) :
  h !! _data v = Some bits ->
  bits <> [] ->
  exists w h1,
    (b ← bin v; __init__ (PyStr ("0b" +:+ b)) None false) h = (Ok w, h1)
    /\ h !! _data w = None
    /\ h1 !! _data w = Some bits
    /\ h1 !! _data v = Some bits
    /\ verilog_bits_rest.__eq__ v (PyVerilogBits w) h1
       = (Ok (verilog_bits_rest.Bool true), h1).
Proof.
  intros live Hne.
  assert (<[fresh (dom h) := bits]> h !! fresh (dom h) = Some bits) as Hw
    by apply lookup_insert_eq.
  assert (<[fresh (dom h) := bits]> h !! _data v = Some bits) as Hv
    by now apply lookup_after_new.
  exists (mkVerilogBits (fresh (dom h))), (<[fresh (dom h) := bits]> h).
  split; [| split; [apply fresh_None | split; [exact Hw | split; [exact Hv |]]]].
  - rewrite (bind_Ok _ _ _ _ _ (bin_eq _ _ _ live)).
    rewrite init_plain_eq. now rewrite (auto_bits_bin _ Hne).
  - rewrite (eq_eq _ v (mkVerilogBits (fresh (dom h))) bits bits Hv Hw).
    now rewrite bool_decide_eq_true_2.
Qed.

Lemma bin_round_trip_witness :
  exists w h1,
    (b ← bin (mkVerilogBits 1); __init__ (PyStr ("0b" +:+ b)) None false)
      {[1%positive := bits_170]}
    = (Ok w, h1)
    /\ h1 !! _data w = Some bits_170.
Proof.
  destruct (bin_round_trip {[1%positive := bits_170]} (mkVerilogBits 1) bits_170)
    as (w & h1 & E & _ & Hw & _); [reflexivity | discriminate |].
  exists w, h1. split; [exact E | exact Hw].
Defined.

Lemma bits_uint_drop bits k :
  (k <= length bits)%nat ->
  bitstring.bits_uint (drop k bits)
  = bitstring.bits_uint bits mod 2 ^ Z.of_nat (length bits - k).
Proof.
  intros Hk. rewrite <- (take_drop k bits) at 2.
  rewrite bits_uint_app_list, length_drop.
  pose proof (bits_uint_range (drop k bits)) as Hr. rewrite length_drop in Hr.
  rewrite Z.add_comm, Z.mod_add by (apply Z.pow_nonzero; lia).
  now rewrite Z.mod_small by lia.
Qed.

Lemma bits_uint_zeros k bits :
  bitstring.bits_uint (replicate k false ++ bits) = bitstring.bits_uint bits.
Proof.
  rewrite bits_uint_app_list.
  replace (bitstring.bits_uint (replicate k false)) with 0; [lia |].
  rewrite <- uint_bits_zero, bits_uint_uint_bits. now rewrite Z.mod_0_l by (apply Z.pow_nonzero; lia).
Qed.

(** X14. What the target length does to the value: for a literal of
    unsigned value [u] and a target length [L >= 1], the constructed
    vector has [L] bits and its [.uint] is [u mod 2^L]: the value is kept
    when it fits and reduced modulo [2^L] when it does not. *)
Theorem init_literal_value (h : heap) (s : string) (bits : list bool) (L : Z) :
  bitstring.literal_bits s = Some bits ->
  1 <= L ->
  exists r h',
    __init__ (PyStr s) (Some L) false h = (Ok r, h')
    /\ __len__ r h' = (Ok L, h')
    /\ uint r h' = (Ok (bitstring.bits_uint bits mod 2 ^ L), h').
Proof.
  intros Hlit HL.
  assert (bitstring.auto_bits s = Some bits) as Hauto
    by (unfold bitstring.auto_bits; now rewrite Hlit).
  set (n := Z.of_nat (length bits)).
  pose proof (bits_uint_range bits) as Hr. fold n in Hr.
  assert (exists r h' out,
            __init__ (PyStr s) (Some L) false h = (Ok r, h')
            /\ h' !! _data r = Some out
            /\ Z.of_nat (length out) = L
            /\ bitstring.bits_uint out = bitstring.bits_uint bits mod 2 ^ L)
    as (r & h' & out & E & Hout & Hlen & Hval).
  { unfold __init__.
    destruct (Z.lt_trichotomy n L) as [Hlt | [Heq | Hgt]].
    - eexists _, _, _. rewrite (init_auto_extend h (Some s) bits Hauto L Hlt).
      split; [reflexivity |]. split; [apply lookup_insert_eq |]. split.
      + rewrite length_app, length_replicate. fold n. lia.
      + rewrite bits_uint_zeros. symmetry. apply Z.mod_small.
        split; [lia |]. apply Z.lt_le_trans with (2 ^ n); [lia |].
        apply Z.pow_le_mono_r; lia.
    - eexists _, _, _. rewrite <- Heq. unfold n.
      rewrite (init_auto_exact h (Some s) bits Hauto).
      split; [reflexivity |]. split; [apply lookup_insert_eq |].
      split; [reflexivity |]. symmetry. now apply Z.mod_small.
    - eexists _, _, _.
      rewrite (init_auto_truncate h (Some s) bits Hauto L) by (fold n; lia).
      split; [reflexivity |]. split; [apply lookup_insert_eq |]. fold n. split.
      + rewrite length_drop. fold n. lia.
      + rewrite bits_uint_drop by lia. do 2 f_equal. lia. }
  exists r, h'. split; [exact E |]. split.
  - unfold __len__. rewrite (len_eq _ _ _ Hout). now rewrite Hlen.
  - unfold uint, bitstring.uint.
    rewrite (bind_Ok _ _ _ _ _ (get_eq _ _ _ Hout)), Hlen.
    destruct (Z.eqb_spec L 0); [lia |]. now rewrite Hval.
Qed.

Lemma init_literal_value_witness :
  exists r h',
    __init__ (PyStr "0xF5") (Some 4) false ∅ = (Ok r, h')
    /\ uint r h' = (Ok 5, h').
Proof.
  destruct (init_literal_value ∅ "0xF5"
              [true; true; true; true; false; true; false; true] 4)
    as (r & h' & E & _ & Hu); [reflexivity | lia |].
  exists r, h'. split; [exact E | exact Hu].
Defined.

(** ** The memory-file reader *)

Example test_read_memh :
  run (vs ← mem_tools.read_memh (fun _ => EmptyString)
              (pystr.lines ("// two words" +:+ mem_tools.newline
                            +:+ "0f aa // data" +:+ mem_tools.newline
                            +:+ "@10 ff" +:+ mem_tools.newline
                            +:+ mem_tools.newline +:+ "  3 "))
              8;
       mapM bin vs)
  = Ok ["00001111"; "10101010"; "00000011"]%string.
Proof. vm_compute. reflexivity. Qed.

(** *** Splitting text into words *)

Lemma app_String c a b : (String c a +:+ b = String c (a +:+ b))%string.
Proof. reflexivity. Qed.

Lemma app_empty_l a : (EmptyString +:+ a)%string = a.
Proof. reflexivity. Qed.

Lemma app_empty_r a : (a +:+ EmptyString)%string = a.
Proof. induction a as [| c a IH]; [reflexivity |]. now rewrite app_String, IH. Qed.

Lemma app_assoc_string a b c : ((a +:+ b) +:+ c = a +:+ (b +:+ c))%string.
Proof. induction a as [| x a IH]; [reflexivity |]. now rewrite !app_String, IH. Qed.

Lemma split_from_space cur c b :
  pystr.isspace c = true ->
  pystr.split_from cur (String c b) = pystr.split_from cur EmptyString ++ pystr.split b.
Proof. intros Hc. cbn [pystr.split_from]. rewrite Hc. now destruct cur. Qed.

Lemma split_from_app_space a : forall cur c b,
  pystr.isspace c = true ->
  pystr.split_from cur (a +:+ String c b) = pystr.split_from cur a ++ pystr.split b.
Proof.
  induction a as [| x a IH]; intros cur c b Hc.
  - now apply split_from_space.
  - rewrite app_String. cbn [pystr.split_from].
    destruct (pystr.isspace x); [| now apply IH].
    destruct cur; rewrite (IH _ _ _ Hc); reflexivity.
Qed.

Lemma split_from_word w : forall cur s,
  no_space w = true ->
  pystr.split_from cur (w +:+ s) = pystr.split_from (cur +:+ w) s.
Proof.
  induction w as [| x w IH]; intros cur s Hw.
  - now rewrite app_empty_r.
  - cbn [no_space] in Hw. apply andb_true_iff in Hw as [Hx Hw].
    rewrite app_String. cbn [pystr.split_from].
    apply negb_true_iff in Hx. rewrite Hx, (IH _ _ Hw).
    f_equal. now rewrite app_assoc_string.
Qed.

Lemma split_lstrip s : pystr.split (pystr.lstrip s) = pystr.split s.
Proof.
  unfold pystr.split. induction s as [| c s IH]; [reflexivity |].
  cbn [pystr.lstrip pystr.split_from].
  destruct (pystr.isspace c) eqn:Hc; [exact IH |].
  cbn [pystr.split_from]. now rewrite Hc.
Qed.

Lemma split_from_rstrip s : forall cur,
  pystr.split_from cur (pystr.rstrip s) = pystr.split_from cur s.
Proof.
  induction s as [| c s IH]; intros cur; [reflexivity |].
  cbn [pystr.rstrip].
  destruct (pystr.rstrip s) as [| c' r'] eqn:Hr.
  - destruct (pystr.isspace c) eqn:Hc.
    + cbn [pystr.split_from]. rewrite Hc.
      destruct cur; now rewrite <- IH.
    + cbn [pystr.split_from]. rewrite Hc. now rewrite <- IH.
  - cbn [pystr.split_from].
    destruct (pystr.isspace c); [destruct cur |]; now rewrite <- IH.
Qed.

Lemma split_strip s : pystr.split (pystr.strip s) = pystr.split s.
Proof.
  unfold pystr.strip, pystr.split at 1. rewrite split_from_rstrip.
  apply split_lstrip.
Qed.

(** Cutting a text into lines and the lines into words gives the words
    of the text. *)
Lemma split_lines text : forall pending_cr cur,
  (pending_cr = true -> cur = EmptyString) ->
  List.concat (map pystr.split (pystr.lines_from pending_cr cur text))
  = pystr.split (cur +:+ text).
Proof.
  assert (pystr.isspace "010" = true) as Hlf by reflexivity.
  assert (pystr.isspace "013" = true) as Hcr by reflexivity.
  induction text as [| c text IH]; intros pc cur Hpc.
  - rewrite app_empty_r. cbn [pystr.lines_from].
    destruct cur; [reflexivity |]. cbn [map List.concat]. apply app_nil_r.
  - cbn [pystr.lines_from].
    destruct (Ascii.eqb_spec c "010") as [-> | Hn].
    { destruct pc.
      - rewrite (Hpc eq_refl). rewrite IH by (intros; reflexivity).
        rewrite !app_empty_l. unfold pystr.split at 2. cbn [pystr.split_from].
        now rewrite Hlf.
      - cbn [map List.concat]. rewrite IH by discriminate.
        unfold pystr.split at 1 3. rewrite !split_from_app_space by exact Hlf.
        now rewrite app_nil_r. }
    destruct (Ascii.eqb_spec c "013") as [-> | Hr].
    { cbn [map List.concat]. rewrite IH by reflexivity.
      unfold pystr.split at 1 3. rewrite !split_from_app_space by exact Hcr.
      now rewrite app_nil_r. }
    rewrite IH by discriminate. now rewrite app_assoc_string.
Qed.

(** *** Lines without addresses and comments *)

Lemma plain_text_app a b : plain_text (a +:+ b) = plain_text a && plain_text b.
Proof.
  induction a as [| c a IH]; [reflexivity |].
  rewrite app_String. cbn [plain_text]. now rewrite IH, andb_assoc.
Qed.

Lemma plain_lstrip s : plain_text s = true -> plain_text (pystr.lstrip s) = true.
Proof.
  induction s as [| c s IH]; [reflexivity |]. cbn [pystr.lstrip].
  destruct (pystr.isspace c); [| easy].
  cbn [plain_text]. intros [_ H]%andb_true_iff. now apply IH.
Qed.

Lemma plain_rstrip s : plain_text s = true -> plain_text (pystr.rstrip s) = true.
Proof.
  induction s as [| c s IH]; [reflexivity |]. cbn [pystr.rstrip plain_text].
  intros [Hc H]%andb_true_iff. specialize (IH H).
  destruct (pystr.rstrip s).
  - destruct (pystr.isspace c); [reflexivity |]. cbn [plain_text]. now rewrite Hc.
  - cbn [plain_text] in *. now rewrite Hc, IH.
Qed.

Lemma before_plain sep0 sep s :
  plain_char sep0 = false -> plain_text s = true ->
  pystr.before (String sep0 sep) s = None.
Proof.
  intros Hsep. induction s as [| c s IH]; [reflexivity |].
  cbn [plain_text]. intros [Hc H]%andb_true_iff.
  cbn [pystr.before String.prefix].
  destruct (ascii_dec sep0 c) as [-> | _]; [congruence |].
  now rewrite (IH H).
Qed.

Lemma clean_line_plain line :
  plain_text line = true -> mem_tools.clean_line line = pystr.strip line.
Proof.
  intros H. unfold mem_tools.clean_line.
  assert (plain_text (pystr.strip line) = true) as Hs
    by (unfold pystr.strip; now apply plain_rstrip, plain_lstrip).
  rewrite (before_plain "@" EmptyString _ eq_refl Hs).
  now rewrite (before_plain "/" "/" _ eq_refl Hs).
Qed.

Lemma lines_plain text : forall pending_cr cur,
  plain_text cur = true -> plain_text text = true ->
  Forall (fun line => plain_text line = true)
    (pystr.lines_from pending_cr cur text).
Proof.
  induction text as [| c text IH]; intros pc cur Hcur Htext.
  - cbn. destruct cur; constructor; [exact Hcur | constructor].
  - cbn [plain_text] in Htext. apply andb_true_iff in Htext as [Hc Htext].
    cbn [pystr.lines_from].
    assert (plain_text (cur +:+ String "010" EmptyString) = true) as Hline
      by (rewrite plain_text_app, Hcur; reflexivity).
    destruct (Ascii.eqb c "010").
    { destruct pc; [now apply IH |]. constructor; [exact Hline | now apply IH]. }
    destruct (Ascii.eqb c "013").
    { constructor; [exact Hline | now apply IH]. }
    apply IH; [| exact Htext].
    rewrite plain_text_app, Hcur. cbn [plain_text]. now rewrite Hc.
Qed.

(** For a text without [@] and [/], the words that the reader finds line
    by line are the words of the whole text. *)
Lemma words_of_plain_text text :
  plain_text text = true ->
  List.concat (map (fun line => pystr.split (mem_tools.clean_line line))
                 (pystr.lines text))
  = pystr.split text.
Proof.
  intros H.
  transitivity (List.concat (map pystr.split (pystr.lines text)));
    [| exact (split_lines text false EmptyString ltac:(discriminate))].
  f_equal.
  pose proof (lines_plain text false EmptyString eq_refl H) as Hl.
  fold (pystr.lines text) in Hl.
  induction Hl as [| line ls Hline _ IH]; [reflexivity |].
  cbn [map]. rewrite IH. f_equal.
  rewrite (clean_line_plain _ Hline). apply split_strip.
Qed.

(** *** One word, then all of them *)

Lemma extends_None (h h' : heap) l :
  extends h h' -> h' !! l = None -> h !! l = None.
Proof.
  intros Hext Hl. destruct (h !! l) as [b |] eqn:E; [| reflexivity].
  rewrite (Hext _ _ E) in Hl. discriminate.
Qed.

Lemma hold_extends (h h' : heap) vs bss :
  extends h h' -> hold h vs bss -> hold h' vs bss.
Proof.
  intros Hext. unfold hold. induction 1; constructor; auto.
Qed.

(** A word that [bitstring] reads, with a target length of at least 1. *)
Lemma init_str_sized (h : heap) s L bits :
  bitstring.auto_bits s = Some bits -> 1 <= L ->
  exists r h' out,
    __init__ (PyStr s) (Some L) false h = (Ok r, h')
    /\ extends h h'
    /\ h !! _data r = None
    /\ h' !! _data r = Some out
    /\ Z.of_nat (length out) = L
    /\ (Z.of_nat (length bits) = L -> out = bits).
Proof.
  intros Hauto HL. unfold __init__.
  set (n := Z.of_nat (length bits)).
  destruct (Z.lt_trichotomy n L) as [Hlt | [Heq | Hgt]].
  - eexists _, _, _. rewrite (init_auto_extend h (Some s) bits Hauto L Hlt).
    split; [reflexivity |]. split; [apply extends_new |].
    split; [apply fresh_None |]. split; [apply lookup_insert_eq |]. split.
    + rewrite length_app, length_replicate. fold n. lia.
    + fold n. lia.
  - eexists _, _, _. rewrite <- Heq. unfold n.
    rewrite (init_auto_exact h (Some s) bits Hauto).
    split; [reflexivity |]. split; [apply extends_new |].
    split; [apply fresh_None |]. split; [apply lookup_insert_eq |]. now split.
  - eexists _, _, _.
    rewrite (init_auto_truncate h (Some s) bits Hauto L) by (fold n; lia).
    split; [reflexivity |].
    assert (extends h (<[fresh (dom (<[fresh (dom h) := bits]> h))
                         := drop (Z.to_nat (n - L)) bits]>
                         (<[fresh (dom h) := bits]> h))) as Hext
      by (eapply extends_trans; apply extends_new).
    split; [exact Hext |].
    split; [cbn [_data];
            apply (extends_None h (<[fresh (dom h) := bits]> h));
            [apply extends_new | apply fresh_None] |].
    split; [apply lookup_insert_eq |]. fold n. split.
    + rewrite length_drop. fold n. lia.
    + lia.
Qed.

Lemma init_str_refused (h : heap) s L :
  bitstring.auto_bits s = None ->
  __init__ (PyStr s) (Some L) false h = (Raise CreationError, h).
Proof.
  intros Hauto. unfold __init__, init_auto, bitstring.BitArray. now rewrite Hauto.
Qed.

Section Reader.
Variable exn_text : exn -> string.
Variables (word_width : Z) (is_hex : bool).
Hypothesis width_pos : 1 <= word_width.

(** The vectors [vs] are new with respect to [h] and hold [word_width]
    bits each in [h']. *)
Let sized (h h' : heap) (vs : list VerilogBits) : Prop :=
  Forall (fun v => h !! _data v = None
                   /\ exists out, h' !! _data v = Some out
                                  /\ Z.of_nat (length out) = word_width) vs.

Lemma sized_weaken (h0 h h' h'' : heap) vs :
  extends h0 h -> extends h' h'' -> sized h h' vs -> sized h0 h'' vs.
Proof.
  intros H0 H1 Hs. unfold sized in *. eapply Forall_impl; [exact Hs |].
  intros v [Hnew (out & Hout & Hlen)]. split; [now apply (extends_None h0 h) |].
  exists out. auto.
Qed.

Lemma read_word_step line_num word (h : heap) :
  (exists r h' out,
     try_except
       (__init__ (PyStr ((if is_hex then "0x" else "0b") +:+ word))
          (Some word_width) false)
       (fun e =>
          raise (ValueError ("Error parsing word '" +:+ word
                   +:+ "' on line " +:+ str line_num +:+ ": " +:+ exn_text e))) h
     = (Ok r, h')
     /\ extends h h' /\ h !! _data r = None /\ h' !! _data r = Some out
     /\ Z.of_nat (length out) = word_width
     /\ forall bits, word_of is_hex word_width word bits -> out = bits)
  \/ (bitstring.auto_bits ((if is_hex then "0x" else "0b") +:+ word) = None
      /\ try_except
           (__init__ (PyStr ((if is_hex then "0x" else "0b") +:+ word))
              (Some word_width) false)
           (fun e =>
              raise (ValueError ("Error parsing word '" +:+ word
                       +:+ "' on line " +:+ str line_num +:+ ": " +:+ exn_text e))) h
         = (Raise (ValueError ("Error parsing word '" +:+ word
                     +:+ "' on line " +:+ str line_num +:+ ": "
                     +:+ exn_text CreationError)), h)).
Proof.
  destruct (bitstring.auto_bits ((if is_hex then "0x" else "0b") +:+ word))
    as [bits |] eqn:Hauto.
  - left.
    destruct (init_str_sized h _ word_width bits Hauto width_pos)
      as (r & h' & out & E & Hext & Hnew & Hout & Hlen & Hsame).
    exists r, h', out. unfold try_except. rewrite E.
    repeat (split; [assumption || reflexivity |]).
    intros bits' [Hb Hw]. rewrite Hb in Hauto. injection Hauto as ->. now apply Hsame.
  - right. split; [reflexivity |]. unfold try_except.
    now rewrite (init_str_refused h _ word_width Hauto).
Qed.

(** How the loop over the words of one line ends. *)
Lemma read_words_outcome line_num words : forall (h h' : heap) o,
  mem_tools.read_words exn_text word_width is_hex line_num words h = (o, h') ->
  extends h h'
  /\ match o with
     | Ok vs =>
         NoDup (map _data vs) /\ sized h h' vs /\ length vs = length words
     | Raise e =>
         exists word,
           In word words
           /\ e = ValueError ("Error parsing word '" +:+ word
                    +:+ "' on line " +:+ str line_num +:+ ": "
                    +:+ exn_text CreationError)
     | Fault => False
     end.
Proof.
  induction words as [| word words IH]; intros h h' o.
  - cbn. intros [= <- <-]. split; [apply extends_refl |].
    split; [constructor |]. split; [constructor | reflexivity].
  - cbn [mem_tools.read_words]. unfold mbind at 1, M_bind, bind.
    destruct (read_word_step line_num word h)
      as [(r & h1 & out & -> & Hext & Hnew & Hout & Hlen & _) | [_ ->]].
    + unfold mbind, M_bind, bind.
      destruct (mem_tools.read_words exn_text word_width is_hex line_num words h1)
        as [[vs | e |] h2] eqn:Erest;
        destruct (IH _ _ _ Erest) as [Hext2 Hrest]; intros [= <- <-];
        (split; [now apply (extends_trans h h1 h2) |]).
      * destruct Hrest as (Hnd & Hs & Hl). split; [| split].
        -- cbn [map]. constructor; [| exact Hnd].
           intros Hin. apply list_elem_of_In, in_map_iff in Hin as (v & Hv & Hin).
           unfold sized in Hs. rewrite Forall_forall in Hs.
           apply list_elem_of_In, Hs in Hin as [Hfresh _].
           rewrite Hv, Hout in Hfresh. discriminate.
        -- constructor.
           ++ split; [exact Hnew |]. exists out. split; [now apply Hext2 | exact Hlen].
           ++ now apply (sized_weaken h h1 h2 h2 vs Hext (extends_refl _)).
        -- cbn. now rewrite Hl.
      * destruct Hrest as (w & Hin & ->). exists w. split; [now right | reflexivity].
      * exact Hrest.
    + intros [= <- <-]. split; [apply extends_refl |].
      exists word. split; [now left | reflexivity].
Qed.

(** The loop over the words when every word stands for some bits. *)
Lemma read_words_ok line_num words : forall bitss (h : heap),
  Forall2 (word_of is_hex word_width) words bitss ->
  exists vs h',
    mem_tools.read_words exn_text word_width is_hex line_num words h = (Ok vs, h')
    /\ extends h h' /\ hold h' vs bitss.
Proof.
  induction words as [| word words IH]; intros bitss h Hw.
  - inversion Hw; subst. exists [], h.
    split; [reflexivity |]. split; [apply extends_refl | constructor].
  - inversion Hw as [| ? bits ? bitss' Hword Hrest]; subst.
    cbn [mem_tools.read_words]. unfold mbind at 1, M_bind, bind.
    destruct (read_word_step line_num word h)
      as [(r & h1 & out & -> & Hext & Hnew & Hout & Hlen & Hsame) | [Hnone _]].
    + rewrite (Hsame _ Hword) in Hout.
      destruct (IH bitss' h1 Hrest) as (vs & h2 & E & Hext2 & Hh).
      exists (r :: vs), h2. unfold mbind, M_bind, bind. rewrite E.
      split; [reflexivity |]. split; [now apply (extends_trans h h1 h2) |].
      constructor; [now apply Hext2 | exact Hh].
    + destruct Hword as [Hsome _]. rewrite Hsome in Hnone. discriminate.
Qed.

(** An empty line has no words. *)
Lemma read_line_words line_num line (h : heap) :
  (match mem_tools.clean_line line with
   | EmptyString => mret []
   | _ => mem_tools.read_words exn_text word_width is_hex line_num
            (pystr.split (mem_tools.clean_line line))
   end) h
  = mem_tools.read_words exn_text word_width is_hex line_num
      (pystr.split (mem_tools.clean_line line)) h.
Proof. now destruct (mem_tools.clean_line line). Qed.

(** The loop over the lines when every word of the file stands for some
    bits. *)
Lemma read_lines_ok lines : forall line_num bitss (h : heap),
  Forall2 (word_of is_hex word_width)
    (List.concat (map (fun line => pystr.split (mem_tools.clean_line line)) lines))
    bitss ->
  exists vs h',
    mem_tools.read_lines exn_text word_width is_hex line_num lines h = (Ok vs, h')
    /\ extends h h' /\ hold h' vs bitss.
Proof.
  induction lines as [| line lines IH]; intros line_num bitss h Hw.
  - inversion Hw; subst. exists [], h.
    split; [reflexivity |]. split; [apply extends_refl | constructor].
  - cbn [map List.concat] in Hw.
    apply Forall2_app_inv_l in Hw as (b1 & b2 & H1 & H2 & ->).
    cbn [mem_tools.read_lines]. cbv zeta.
    destruct (read_words_ok line_num _ b1 h H1) as (vs1 & h1 & E1 & Hext1 & Hh1).
    destruct (IH (line_num + 1) b2 h1 H2) as (vs2 & h2 & E2 & Hext2 & Hh2).
    exists (vs1 ++ vs2), h2. unfold mbind, M_bind, bind.
    rewrite read_line_words, E1, E2.
    split; [reflexivity |]. split; [now apply (extends_trans h h1 h2) |].
    apply Forall2_app; [now apply (hold_extends h1 h2) | exact Hh2].
Qed.

(** How the loop over the lines ends. *)
Lemma read_lines_outcome lines : forall line_num (h h' : heap) o,
  mem_tools.read_lines exn_text word_width is_hex line_num lines h = (o, h') ->
  extends h h'
  /\ match o with
     | Ok vs =>
         NoDup (map _data vs) /\ sized h h' vs
         /\ length vs
            = length (List.concat
                        (map (fun line => pystr.split (mem_tools.clean_line line))
                           lines))
     | Raise e =>
         exists (k : nat) line word,
           lines !! k = Some line
           /\ In word (pystr.split (mem_tools.clean_line line))
           /\ e = ValueError ("Error parsing word '" +:+ word
                    +:+ "' on line " +:+ str (line_num + Z.of_nat k) +:+ ": "
                    +:+ exn_text CreationError)
     | Fault => False
     end.
Proof.
  induction lines as [| line lines IH]; intros line_num h h' o.
  - cbn. intros [= <- <-]. split; [apply extends_refl |].
    split; [constructor |]. split; [constructor | reflexivity].
  - cbn [mem_tools.read_lines]. cbv zeta. unfold mbind at 1, M_bind, bind.
    rewrite read_line_words.
    destruct (mem_tools.read_words exn_text word_width is_hex line_num
                (pystr.split (mem_tools.clean_line line)) h)
      as [[vs1 | e |] h1] eqn:E1;
      apply read_words_outcome in E1 as [Hext1 H1].
    + unfold mbind, M_bind, bind.
      destruct (mem_tools.read_lines exn_text word_width is_hex (line_num + 1) lines h1)
        as [[vs2 | e |] h2] eqn:E2;
        destruct (IH _ _ _ _ E2) as [Hext2 H2]; intros [= <- <-];
        (split; [now apply (extends_trans h h1 h2) |]).
      * destruct H1 as (Hnd1 & Hs1 & Hl1). destruct H2 as (Hnd2 & Hs2 & Hl2).
        split; [| split].
        -- rewrite map_app. apply NoDup_app. split; [exact Hnd1 |].
           split; [| exact Hnd2].
           intros l Hin1 Hin2.
           apply list_elem_of_In, in_map_iff in Hin1 as (v1 & <- & Hin1).
           apply list_elem_of_In, in_map_iff in Hin2 as (v2 & Hv & Hin2).
           unfold sized in Hs1, Hs2. rewrite Forall_forall in Hs1, Hs2.
           apply list_elem_of_In, Hs1 in Hin1 as [_ (out & Hout & _)].
           apply list_elem_of_In, Hs2 in Hin2 as [Hfresh _].
           rewrite Hv, Hout in Hfresh. discriminate.
        -- apply Forall_app. split.
           ++ now apply (sized_weaken h h h1 h2 vs1 (extends_refl _) Hext2).
           ++ now apply (sized_weaken h h1 h2 h2 vs2 Hext1 (extends_refl _)).
        -- cbn [map List.concat]. rewrite !length_app. congruence.
      * destruct H2 as (k & l & w & Hk & Hin & ->).
        exists (S k), l, w. split; [exact Hk |]. split; [exact Hin |].
        now replace (line_num + Z.of_nat (S k)) with (line_num + 1 + Z.of_nat k) by lia.
      * exact H2.
    + intros [= <- <-]. split; [exact Hext1 |].
      destruct H1 as (w & Hin & ->).
      exists 0%nat, line, w. split; [reflexivity |]. split; [exact Hin |].
      now rewrite Z.add_0_r.
    + intros [= <- <-]. split; [exact Hext1 | exact H1].
Qed.

End Reader.

(** X15. Every vector that [read_mem_file] returns, for a word width of
    at least 1, has exactly that many bits, whatever the length of the
    word's text; the vectors are one for each word of the file, each on
    an object of its own that is new, and the objects that existed are
    left as they were. *)
Theorem read_mem_file_sized (exn_text : exn -> string) (lines : list string)
    (word_width : Z) (is_hex : bool) (h h' : heap) (vs : list VerilogBits) :
  1 <= word_width ->
  mem_tools.read_mem_file exn_text lines word_width is_hex h = (Ok vs, h') ->
  extends h h'
  /\ NoDup (map _data vs)
  /\ length vs
     = length (List.concat
                 (map (fun line => pystr.split (mem_tools.clean_line line)) lines))
  /\ Forall (fun v => h !! _data v = None
                      /\ exists out, h' !! _data v = Some out
                                     /\ Z.of_nat (length out) = word_width) vs.
Proof.
  intros HL E. unfold mem_tools.read_mem_file in E.
  destruct (read_lines_outcome exn_text word_width is_hex HL lines 1 h h' _ E)
    as (Hext & Hnd & Hs & Hl).
  auto.
Qed.

Lemma read_mem_file_sized_witness :
  Forall (fun v => (∅ : heap) !! _data v = None
                   /\ exists out,
                        (<[2%positive := [false; false; true; true]]>
                           {[1%positive := [false; false; false; true; true]]} : heap)
                          !! _data v = Some out
                        /\ Z.of_nat (length out) = 4)
    [mkVerilogBits 2].
Proof.
  destruct (read_mem_file_sized (fun _ => EmptyString) ["00011"%string] 4 false ∅
              (<[2%positive := [false; false; true; true]]>
                 {[1%positive := [false; false; false; true; true]]})
              [mkVerilogBits 2])
    as (_ & _ & _ & Hs).
  - lia.
  - vm_compute. reflexivity.
  - exact Hs.
Defined.



(** *** Addresses and comments *)

Lemma lstrip_app_nonspace a c r :
  pystr.isspace c = false ->
  pystr.lstrip (a +:+ String c r) = (pystr.lstrip a +:+ String c r)%string.
Proof.
  intros Hc. induction a as [| x a IH].
  - cbn [pystr.lstrip]. rewrite !app_empty_l. cbn [pystr.lstrip]. now rewrite Hc.
  - rewrite app_String. cbn [pystr.lstrip]. now destruct (pystr.isspace x).
Qed.

Lemma rstrip_app_nonspace a c r :
  pystr.isspace c = false ->
  pystr.rstrip (a +:+ String c r) = (a +:+ String c (pystr.rstrip r))%string.
Proof.
  intros Hc. induction a as [| x a IH].
  - rewrite !app_empty_l. cbn [pystr.rstrip]. rewrite Hc. now destruct (pystr.rstrip r).
  - rewrite !app_String. cbn [pystr.rstrip]. rewrite IH.
    now destruct a.
Qed.

Lemma strip_app_nonspace a c r :
  pystr.isspace c = false ->
  pystr.strip (a +:+ String c r)
  = (pystr.lstrip a +:+ String c (pystr.rstrip r))%string.
Proof.
  intros Hc. unfold pystr.strip.
  now rewrite lstrip_app_nonspace, rstrip_app_nonspace.
Qed.

Lemma lstrip_idem s : pystr.lstrip (pystr.lstrip s) = pystr.lstrip s.
Proof.
  induction s as [| c s IH]; [reflexivity |]. cbn [pystr.lstrip].
  destruct (pystr.isspace c) eqn:Hc; [exact IH |]. cbn [pystr.lstrip]. now rewrite Hc.
Qed.

Lemma strip_lstrip s : pystr.strip (pystr.lstrip s) = pystr.strip s.
Proof. unfold pystr.strip. now rewrite lstrip_idem. Qed.

Lemma prefix_app s r : String.prefix s (s +:+ r) = true.
Proof.
  induction s as [| y s IH]; [now destruct r |].
  rewrite app_String. cbn [String.prefix].
  destruct (ascii_dec y y); [exact IH | congruence].
Qed.

Lemma before_app_plain sep0 sep a r :
  plain_char sep0 = false -> plain_text a = true ->
  pystr.before (String sep0 sep) (a +:+ String sep0 sep +:+ r) = Some a.
Proof.
  intros Hsep. induction a as [| c a IH].
  - intros _. rewrite app_empty_l, app_String. cbn [pystr.before].
    rewrite <- app_String. now rewrite prefix_app.
  - cbn [plain_text]. intros [Hc H]%andb_true_iff.
    rewrite app_String. cbn [pystr.before String.prefix].
    destruct (ascii_dec sep0 c) as [-> | _]; [congruence |].
    now rewrite (IH H).
Qed.

(** A line whose data part has neither [@] nor [/] is read as its data
    part, whatever follows the first [@]. *)
Lemma clean_line_address data tail :
  plain_text data = true ->
  mem_tools.clean_line (data +:+ "@" +:+ tail) = pystr.strip data.
Proof.
  intros H. unfold mem_tools.clean_line. cbv zeta.
  change ("@" +:+ tail)%string with (String "@" tail).
  rewrite strip_app_nonspace by reflexivity.
  change (String "@" (pystr.rstrip tail))
    with (String "@" EmptyString +:+ pystr.rstrip tail)%string.
  rewrite (before_app_plain "@" EmptyString) by (reflexivity || now apply plain_lstrip).
  rewrite strip_lstrip.
  rewrite (before_plain "/" "/"); [reflexivity | reflexivity |].
  unfold pystr.strip. now apply plain_rstrip, plain_lstrip.
Qed.

(** And whatever follows the first [//]. *)
Lemma clean_line_comment data tail :
  plain_text data = true ->
  mem_tools.clean_line (data +:+ "//" +:+ tail) = pystr.strip data.
Proof.
  intros H. unfold mem_tools.clean_line. cbv zeta.
  change ("//" +:+ tail)%string with (String "/" (String "/" tail)).
  rewrite strip_app_nonspace by reflexivity.
  assert (pystr.rstrip (String "/" tail) = String "/" (pystr.rstrip tail)) as ->
    by (cbn [pystr.rstrip]; now destruct (pystr.rstrip tail)).
  pose proof (plain_lstrip _ H) as Hl.
  set (d := pystr.lstrip data) in *. set (t := pystr.rstrip tail).
  assert (forall r, pystr.strip (d +:+ String "/" (String "/" r))
                    = (d +:+ String "/" (String "/" (pystr.rstrip r)))%string) as Hstrip.
  { intros r. unfold pystr.strip.
    rewrite lstrip_app_nonspace, rstrip_app_nonspace by reflexivity.
    unfold d. rewrite lstrip_idem. fold d.
    now assert (pystr.rstrip (String "/" r) = String "/" (pystr.rstrip r)) as ->
      by (cbn [pystr.rstrip]; now destruct (pystr.rstrip r)). }
  assert (forall r, pystr.before "//" (d +:+ String "/" (String "/" r)) = Some d)
    as Hcomment.
  { intros r. change (String "/" (String "/" r)) with ("//" +:+ r)%string.
    now apply (before_app_plain "/" "/"). }
  assert (pystr.strip d = pystr.strip data) as Hd by apply strip_lstrip.
  destruct (pystr.before "@" (d +:+ String "/" (String "/" t))) as [x |] eqn:Hat.
  - (* an [@] inside the comment *)
    assert (exists r, x = (d +:+ String "/" (String "/" r))%string) as [r ->].
    { clear - Hat Hl. revert x Hat. induction d as [| c d IH]; intros x Hat.
      - rewrite app_empty_l in Hat. cbn in Hat.
        destruct (pystr.before "@" t) as [y |]; [| discriminate].
        cbn in Hat. injection Hat as <-. now exists y.
      - cbn [plain_text] in Hl. apply andb_true_iff in Hl as [Hc Hl].
        rewrite app_String in Hat. cbn [pystr.before String.prefix] in Hat.
        destruct (ascii_dec "@" c) as [<- | _]; [discriminate |].
        destruct (pystr.before "@" (d +:+ String "/" (String "/" t))) as [y |];
          [| discriminate].
        cbn in Hat. injection Hat as <-.
        destruct (IH Hl y eq_refl) as [r ->]. now exists r. }
    rewrite Hstrip, Hcomment. exact Hd.
  - rewrite Hcomment. exact Hd.
Qed.

Lemma read_lines_clean exn_text word_width is_hex ls1 : forall ls2 line_num,
  Forall2 (fun a b => mem_tools.clean_line a = mem_tools.clean_line b) ls1 ls2 ->
  mem_tools.read_lines exn_text word_width is_hex line_num ls1
  = mem_tools.read_lines exn_text word_width is_hex line_num ls2.
Proof.
  induction ls1 as [| a ls1 IH]; intros ls2 line_num H; inversion H; subst.
  - reflexivity.
  - cbn [mem_tools.read_lines]. cbv zeta.
    match goal with Hc : mem_tools.clean_line a = _ |- _ => rewrite Hc end.
    match goal with
    | Hf : Forall2 _ ls1 ?l |- _ => now rewrite (IH l (line_num + 1) Hf)
    end.
Qed.

(** X17. In a line whose data has neither [@] nor [/], everything from
    the first [//] on is a comment and everything from the first [@] on
    is an address part: the file is read as if the line ended before it.
    In particular the words that follow an address on its line are not
    read. *)
Theorem read_mem_file_comments (exn_text : exn -> string)
    (before_ after_ : list string) (data tail : string)
    (word_width : Z) (is_hex : bool) :
  plain_text data = true ->
  mem_tools.read_mem_file exn_text
    (before_ ++ (data +:+ "//" +:+ tail)%string :: after_) word_width is_hex
  = mem_tools.read_mem_file exn_text (before_ ++ data :: after_) word_width is_hex
  /\ mem_tools.read_mem_file exn_text
       (before_ ++ (data +:+ "@" +:+ tail)%string :: after_) word_width is_hex
     = mem_tools.read_mem_file exn_text (before_ ++ data :: after_) word_width is_hex.
Proof.
  intros H. unfold mem_tools.read_mem_file.
  split; apply read_lines_clean; apply Forall2_app;
    try (apply Forall2_same_length_lookup_2; [reflexivity | congruence]);
    (constructor; [| apply Forall2_same_length_lookup_2; [reflexivity | congruence]]).
  - now rewrite clean_line_comment, clean_line_plain.
  - now rewrite clean_line_address, clean_line_plain.
Qed.

Lemma read_mem_file_comments_witness :
  mem_tools.read_mem_file (fun _ => EmptyString)
    ([] ++ ("0f " +:+ "@" +:+ "10 ff")%string :: ["aa"%string]) 8 true
  = mem_tools.read_mem_file (fun _ => EmptyString)
      ([] ++ "0f "%string :: ["aa"%string]) 8 true.
Proof.
  apply (read_mem_file_comments (fun _ => EmptyString) [] ["aa"%string]
           "0f "%string "10 ff"%string 8 true).
  reflexivity.
Defined.

(** *** Writing and reading back *)

Lemma hex_char_plain d :
  pystr.isspace (bitstring.hex_char d) = false
  /\ plain_char (bitstring.hex_char d) = true.
Proof.
  unfold bitstring.hex_char.
  destruct (nth_in_or_default (Z.to_nat d)
              (list_ascii_of_string "0123456789abcdef") "0"%char) as [Hin | ->];
    [| now split].
  set (c := nth _ _ _) in *. clearbody c. cbn in Hin.
  repeat (destruct Hin as [<- | Hin]; [now split |]). destruct Hin.
Qed.

Lemma hex_padded_plain k v :
  no_space (hex_padded k v) = true /\ plain_text (hex_padded k v) = true.
Proof.
  induction k as [| k [IH1 IH2]]; [now split |].
  cbn [hex_padded no_space plain_text]. rewrite IH1, IH2.
  destruct (hex_char_plain ((v / 16 ^ Z.of_nat k) mod 16)) as [-> ->]. now split.
Qed.

Lemma hex_digit_char b3 b2 b1 b0 :
  bitstring.hex_digit (bitstring.hex_char (bitstring.bits_uint [b3; b2; b1; b0]))
  = Some [b3; b2; b1; b0].
Proof. now destruct b3, b2, b1, b0. Qed.

Lemma digits_bits_hex k : forall bits,
  length bits = (4 * k)%nat ->
  bitstring.digits_bits bitstring.hex_digit (bitstring.hex_string bits) = Some bits.
Proof.
  induction k as [| k IH]; intros bits Hlen.
  - now destruct bits.
  - destruct bits as [| b3 [| b2 [| b1 [| b0 rest]]]]; cbn in Hlen; try lia.
    cbn [bitstring.hex_string bitstring.digits_bits].
    now rewrite hex_digit_char, (IH rest) by lia.
Qed.

Lemma auto_bits_hex bits :
  bits <> [] -> Z.of_nat (length bits) mod 4 = 0 ->
  bitstring.auto_bits ("0x" +:+ bitstring.hex_string bits) = Some bits.
Proof.
  intros Hne Hm. pose proof (hex_width_exact _ Hm) as Hk.
  pose proof (digits_bits_hex _ _ Hk) as Hd.
  destruct bits as [| b3 [| b2 [| b1 [| b0 rest]]]];
    [congruence | discriminate Hm .. |].
  unfold bitstring.auto_bits.
  change (bitstring.literal_bits
            ("0x" +:+ bitstring.hex_string (b3 :: b2 :: b1 :: b0 :: rest)))
    with (bitstring.digits_bits bitstring.hex_digit
            (bitstring.hex_string (b3 :: b2 :: b1 :: b0 :: rest))).
  now rewrite Hd.
Qed.

(** A word that the writers write is not empty and has neither white
    space nor [@] nor [/]; read as a literal of its radix it gives the
    bits back. *)
Lemma word_text_word is_hex bits :
  bits <> [] -> (is_hex = true -> Z.of_nat (length bits) mod 4 = 0) ->
  word_text is_hex bits <> EmptyString
  /\ no_space (word_text is_hex bits) = true
  /\ plain_text (word_text is_hex bits) = true
  /\ bitstring.auto_bits ((if is_hex then "0x" else "0b") +:+ word_text is_hex bits)
     = Some bits.
Proof.
  intros Hne Hm. destruct is_hex; cbn [word_text].
  - specialize (Hm eq_refl). pose proof (hex_width_exact _ Hm) as Hk.
    split; [| split; [| split; [| now apply auto_bits_hex]]].
    + destruct bits as [| b3 [| b2 [| b1 [| b0 rest]]]];
        [congruence | discriminate Hm .. | discriminate].
    + rewrite (hex_string_padded _ _ Hk). apply hex_padded_plain.
    + rewrite (hex_string_padded _ _ Hk). apply hex_padded_plain.
  - split; [now destruct bits |]. split; [| split; [| now apply auto_bits_bin]].
    + clear. induction bits as [| b bits IH]; [reflexivity |].
      cbn [bitstring.bin_string no_space]. rewrite IH. now destruct b.
    + clear. induction bits as [| b bits IH]; [reflexivity |].
      cbn [bitstring.bin_string plain_text]. rewrite IH. now destruct b.
Qed.

Lemma split_word w :
  w <> EmptyString -> no_space w = true -> pystr.split w = [w].
Proof.
  intros Hne Hw. unfold pystr.split.
  rewrite <- (app_empty_r w) at 1. rewrite (split_from_word w _ _ Hw).
  rewrite app_empty_l. now destruct w.
Qed.

(** The words of the text that the writers write are the words
    written, and the text has no address and no comment. *)
Lemma rendered_words is_hex words_per_line : forall bitss i,
  Forall (fun bits => bits <> []
                      /\ (is_hex = true -> Z.of_nat (length bits) mod 4 = 0)) bitss ->
  pystr.split (rendered is_hex words_per_line i bitss) = map (word_text is_hex) bitss
  /\ plain_text (rendered is_hex words_per_line i bitss) = true.
Proof.
  induction bitss as [| bits bitss IH]; intros i Hb; [now split |].
  inversion Hb as [| ? ? [Hne Hm] Hrest]; subst.
  destruct (IH (i + 1) Hrest) as [IHs IHp].
  destruct (word_text_word is_hex bits Hne Hm) as (Hw0 & Hw1 & Hw2 & _).
  cbn [rendered map].
  assert ((if is_hex
           then hex_padded (hex_width (length bits)) (bitstring.bits_uint bits)
           else bitstring.bin_string bits) = word_text is_hex bits) as ->.
  { destruct is_hex; [| reflexivity]. cbn [word_text]. symmetry.
    apply hex_string_padded, hex_width_exact. now apply Hm. }
  assert (exists c, (if (i + 1) mod words_per_line =? 0
                     then mem_tools.newline else " "%string) = String c EmptyString
                    /\ pystr.isspace c = true /\ plain_char c = true)
    as (c & -> & Hc & Hp)
    by (destruct (_ =? 0); eexists; (split; [reflexivity | now split])).
  rewrite app_String, app_empty_l. split.
  - unfold pystr.split at 1. rewrite (split_from_app_space _ _ _ _ Hc).
    fold (pystr.split (word_text is_hex bits)).
    now rewrite (split_word _ Hw0 Hw1), IHs.
  - rewrite plain_text_app. cbn [plain_text]. now rewrite Hw2, Hp, IHp.
Qed.

(** X18. What the writers write, the readers read back: for a non-empty
    list of vectors that all have [word_width] bits, at least 1 and for
    the hexadecimal format a multiple of 4, and a non-zero number of
    words per line, [write_mem_file] writes a text from which
    [read_mem_file], with the same radix and [word_width], returns
    as many new vectors with the same bits, in the same order. *)
Theorem write_then_read (exn_text : exn -> string) (h : heap)
    (data : list VerilogBits) (bitss : list (list bool))
    (is_hex : bool) (words_per_line word_width : Z) :
  hold h data bitss -> data <> [] -> words_per_line <> 0 ->
  1 <= word_width ->
  (is_hex = true -> word_width mod 4 = 0) ->
  Forall (fun bits => Z.of_nat (length bits) = word_width) bitss ->
  exists text vs h',
    mem_tools.write_mem_file data is_hex words_per_line h = (Ok text, h)
    /\ mem_tools.read_mem_file exn_text (pystr.lines text) word_width is_hex h
       = (Ok vs, h')
    /\ extends h h'
    /\ hold h' vs bitss.
Proof.
  intros Hh Hne Hw HL Hm Hlen.
  assert (Forall (fun bits => bits <> []
                    /\ (is_hex = true -> Z.of_nat (length bits) mod 4 = 0)) bitss)
    as Hb.
  { eapply Forall_impl; [exact Hlen |]. intros bits Hbits. split.
    - intros ->. cbn in Hbits. lia.
    - rewrite Hbits. exact Hm. }
  destruct (rendered_words is_hex words_per_line bitss 0 Hb) as [Hsplit Hplain].
  assert (negb is_hex || forallb hex_writable bitss = true) as Hwr.
  { destruct is_hex; [| reflexivity]. cbn [negb orb].
    apply forallb_forall. intros bits Hin. apply Z.eqb_eq.
    rewrite Forall_forall in Hb. destruct (Hb bits) as [_ Hx]; [| now apply Hx].
    now apply list_elem_of_In. }
  set (text := rendered is_hex words_per_line 0 bitss) in *.
  destruct (read_lines_ok exn_text word_width is_hex HL (pystr.lines text) 1 bitss h)
    as (vs & h' & Hread & Hext & Hhold).
  { rewrite (words_of_plain_text text Hplain), Hsplit.
    apply Forall2_fmap_l, Forall_Forall2_diag.
    rewrite Forall_forall in Hb, Hlen. apply Forall_forall. intros bits Hin.
    destruct (Hb bits Hin) as [Hne' Hm'].
    split; [now apply word_text_word | now apply Hlen]. }
  exists text, vs, h'. split; [| now split].
  assert (mem_tools.write_mem_file data is_hex words_per_line h
          = mem_tools.write_words is_hex words_per_line 0 data h) as ->
    by (destruct data; [contradiction | reflexivity]).
  now rewrite (write_words_eq is_hex words_per_line Hw data bitss 0 h Hh), Hwr.
Qed.

Lemma write_then_read_witness :
  exists text vs h',
    mem_tools.write_mem_file [mkVerilogBits 1; mkVerilogBits 2] true 2
      {[1%positive := bits_170; 2%positive := zeros_8]}
    = (Ok text, {[1%positive := bits_170; 2%positive := zeros_8]})
    /\ mem_tools.read_mem_file (fun _ => EmptyString) (pystr.lines text) 8 true
         {[1%positive := bits_170; 2%positive := zeros_8]}
       = (Ok vs, h')
    /\ extends {[1%positive := bits_170; 2%positive := zeros_8]} h'
    /\ hold h' vs [bits_170; zeros_8].
Proof.
  apply (write_then_read (fun _ => EmptyString)
           {[1%positive := bits_170; 2%positive := zeros_8]}
           [mkVerilogBits 1; mkVerilogBits 2] [bits_170; zeros_8] true 2 8).
  - repeat constructor.
  - discriminate.
  - lia.
  - lia.
  - reflexivity.
  - repeat constructor.
Defined.

(** X19. A number of words per line of 0 is never accepted: for a
    non-empty list of vectors [write_mem_file] raises after the first
    word, [ZeroDivisionError] from the test of the line's end, unless
    the format is hexadecimal and the length of the first vector is not
    a multiple of 4, which raises [InterpretError] before. *)
Theorem write_mem_file_zero_per_line (h : heap) (vb : VerilogBits)
    (data : list VerilogBits) (bits : list bool) (is_hex : bool) :
  h !! _data vb = Some bits ->
  mem_tools.write_mem_file (vb :: data) is_hex 0 h
  = (Raise (if is_hex && negb (hex_writable bits)
            then InterpretError else ZeroDivisionError), h).
Proof.
  intros Hvb. unfold mem_tools.write_mem_file. cbn [mem_tools.write_words].
  change (0 =? 0) with true. cbv iota.
  destruct is_hex; cbn [andb].
  - pose proof (hex_eq _ _ _ Hvb) as Hhex. unfold hex_writable.
    destruct (Z.of_nat (length bits) mod 4 =? 0); cbn [negb].
    + now rewrite (bind_Ok _ _ _ _ _ Hhex).
    + now rewrite (bind_Raise _ _ _ _ _ Hhex).
  - now rewrite (bind_Ok _ _ _ _ _ (bin_eq _ _ _ Hvb)).
Qed.

Lemma write_mem_file_zero_per_line_witness :
  mem_tools.write_mem_file [mkVerilogBits 1] false 0 {[1%positive := bits_170]}
  = (Raise ZeroDivisionError, {[1%positive := bits_170]}).
Proof.
  apply (write_mem_file_zero_per_line {[1%positive := bits_170]} (mkVerilogBits 1)
           [] bits_170 false).
  reflexivity.
Defined.
